(** * FST trading platform: the market-depth and trade-history components

  A shallow embedding of the data paths of
  [src/ui/web/static/js/components/orderbook.js] (class [OrderBook]) and of
  the trade-history component (class [TradeHistory]), with the properties
  the specification states about them and further properties of the two
  components.

  JavaScript numbers are IEEE 754 binary64 values; they are modelled by the
  primitive type [float], whose operations the kernel computes and whose
  meaning is given by [SpecFloat] through the [FloatAxioms] of the standard
  library.  DOM construction and rendering are not modelled: they read the
  fields computed here and write none of them. *)

From Stdlib Require Import ZArith List Bool String Ascii Floats Lia.
From Stdlib Require Import Sorted Permutation.
Import ListNotations.

(* ================================================================= *)
(** * JavaScript values and the built-ins the components call         *)
(* ================================================================= *)

Module Js.

(** Primitive values, as they reach the components after JSON decoding. *)
Inductive value : Type :=
| VUndefined
| VNull
| VBool (b : bool)
| VNum (f : float)
| VStr (s : string).

(** ToBoolean. *)
Definition truthy (v : value) : bool :=
  match v with
  | VUndefined | VNull => false
  | VBool b => b
  | VNum f => negb (PrimFloat.eqb f 0 || PrimFloat.is_nan f)
  | VStr s => negb (String.eqb s "")
  end.

(** [a || b]. *)
Definition or (a b : value) : value := if truthy a then a else b.

(** ** [parseFloat] on strings

    The longest prefix of the trimmed string that is a [StrDecimalLiteral]
    is read as an exact decimal [m * 10^e] and rounded once, to nearest
    with ties to even.  Strings are sequences of bytes in UTF-8; the
    white space skipped is [StrWhiteSpaceChar]: the white space and the
    line terminators of the language. *)

Local Open Scope Z_scope.

(** Tab, line feed, vertical tab, form feed, carriage return, space. *)
Definition isWhiteSpace (c : ascii) : bool :=
  let n := Z.of_N (N_of_ascii c) in
  ((9 <=? n) && (n <=? 13)) || (n =? 32).

(** U+00A0, the one white space of two bytes ([c2 a0]). *)
Definition isWhiteSpace2 (c1 c2 : ascii) : bool :=
  (Z.of_N (N_of_ascii c1) =? 194) && (Z.of_N (N_of_ascii c2) =? 160).

(** The white space of three bytes: U+1680 ([e1 9a 80]), U+2000 to U+200A
    ([e2 80 80] to [e2 80 8a]), the line and paragraph separators U+2028
    and U+2029 ([e2 80 a8], [e2 80 a9]), U+202F ([e2 80 af]), U+205F
    ([e2 81 9f]), U+3000 ([e3 80 80]) and U+FEFF ([ef bb bf]). *)
Definition isWhiteSpace3 (c1 c2 c3 : ascii) : bool :=
  let a := Z.of_N (N_of_ascii c1) in
  let b := Z.of_N (N_of_ascii c2) in
  let c := Z.of_N (N_of_ascii c3) in
  ((a =? 225) && (b =? 154) && (c =? 128))
  || ((a =? 226) && (b =? 128)
      && (((128 <=? c) && (c <=? 138)) || (c =? 168) || (c =? 169)
          || (c =? 175)))
  || ((a =? 226) && (b =? 129) && (c =? 159))
  || ((a =? 227) && (b =? 128) && (c =? 128))
  || ((a =? 239) && (b =? 187) && (c =? 191)).

Fixpoint trimStart (s : string) : string :=
  match s with
  | String c1 r1 =>
      if isWhiteSpace c1 then trimStart r1
      else
        match r1 with
        | String c2 r2 =>
            if isWhiteSpace2 c1 c2 then trimStart r2
            else
              match r2 with
              | String c3 r3 =>
                  if isWhiteSpace3 c1 c2 c3 then trimStart r3 else s
              | EmptyString => s
              end
        | EmptyString => s
        end
  | EmptyString => s
  end.

Definition digitValue (c : ascii) : option Z :=
  let n := Z.of_N (N_of_ascii c) in
  if (48 <=? n) && (n <=? 57) then Some (n - 48) else None.

(** Reads a run of decimal digits: the value accumulated on [acc], the
    number of digits read added to [count], and the rest of the string. *)
Fixpoint decimalDigits (acc count : Z) (s : string) : Z * Z * string :=
  match s with
  | String c r =>
      match digitValue c with
      | Some d => decimalDigits (10 * acc + d) (count + 1) r
      | None => (acc, count, s)
      end
  | EmptyString => (acc, count, s)
  end.

(** [ExponentPart], or nothing when [e] is not followed by a signed
    integer. *)
Definition exponentPart (s : string) : Z :=
  match s with
  | String c r =>
      if (Ascii.eqb c "e" || Ascii.eqb c "E")%bool then
        match r with
        | String "+" r' => fst (fst (decimalDigits 0 0 r'))
        | String "-" r' => - fst (fst (decimalDigits 0 0 r'))
        | _ => fst (fst (decimalDigits 0 0 r))
        end
      else 0
  | EmptyString => 0
  end.

(** Digits, optional fraction, optional exponent: [Some (m, e)] stands for
    [m * 10^e]; [None] when there is no digit at all. *)
Definition strUnsignedDecimal (s : string) : option (Z * Z) :=
  let '(i, ni, r1) := decimalDigits 0 0 s in
  let '(m, nf, r2) :=
    match r1 with
    | String "." r => decimalDigits i 0 r
    | _ => (i, 0, r1)
    end in
  if ni + nf =? 0 then None else Some (m, exponentPart r2 - nf).

(** The binary64 value nearest to [m * 10^e], for [0 <= m]. *)
Definition roundDecimal (m e : Z) : spec_float :=
  match m with
  | Zpos p =>
      if 0 <=? e then binary_normalize prec emax (m * 10 ^ e) 0 false
      else SFdiv prec emax (S754_finite false p 0)
                           (S754_finite false (Z.to_pos (10 ^ (- e))) 0)
  | _ => S754_zero false
  end.

Definition strUnsignedValue (s : string) : float :=
  if String.prefix "Infinity" s then infinity
  else match strUnsignedDecimal s with
       | Some (m, e) => SF2Prim (roundDecimal m e)
       | None => nan
       end.

Definition parseFloatString (s : string) : float :=
  match trimStart s with
  | String "-" r => (- strUnsignedValue r)%float
  | String "+" r => strUnsignedValue r
  | r => strUnsignedValue r
  end.

(** [parseFloat v] is [parseFloatString (ToString v)].  A number prints to
    the shortest decimal that reads back as itself, except that [-0] prints
    as ["0"]; [undefined], [null] and booleans print to words that hold no
    number. *)
Definition parseFloat (v : value) : float :=
  match v with
  | VNum f =>
      if PrimFloat.is_nan f then nan
      else if PrimFloat.eqb f 0 then 0%float
      else f
  | VStr s => parseFloatString s
  | VUndefined | VNull | VBool _ => nan
  end.

End Js.

(** Completion of a call: it returns normally or throws ([TypeError] is the
  only exception the modelled paths raise). *)
Inductive completion (A : Type) : Type :=
| Normal (a : A)
| Throw.
Arguments Normal {A} a.
Arguments Throw {A}.

(** [Array.prototype.map] with a callback that may throw: elements are
  visited in order and the first exception ends the call. *)
Fixpoint mapC {A B : Type} (f : A -> completion B) (l : list A)
: completion (list B) :=
match l with
| [] => Normal []
| x :: r =>
    match f x with
    | Throw => Throw
    | Normal y =>
        match mapC f r with
        | Throw => Throw
        | Normal ys => Normal (y :: ys)
        end
    end
end.

(** [l.slice(0, end)] for an integer [end]: a negative [end] counts from the
  end of the array. *)
Definition slice0 {A : Type} (l : list A) (end_ : Z) : list A :=
let len := Z.of_nat (List.length l) in
let final :=
  if (end_ <? 0)%Z then Z.max (len + end_) 0 else Z.min end_ len in
firstn (Z.to_nat final) l.

(** [Array.prototype.sort] with a comparator.  For a comparator that is
    consistent on the elements, the language fixes the result: the
    arrangement of the elements in which none is followed by one that the
    comparator puts before it, and in which elements the comparator does not
    tell apart keep their order (the sort is stable).  Insertion from the
    right computes it: [x] moves past [y] exactly when
    [comparator(x, y) > 0].  (With an inconsistent comparator, one that
    returns [NaN] for some pairs only, the language leaves the order to the
    implementation; the model then is this insertion order.) *)
Section Sort.
Context {A : Type}.
Variable comparator : A -> A -> float.

Definition after (x y : A) : bool := PrimFloat.ltb 0 (comparator x y).

Fixpoint insert (x : A) (l : list A) : list A :=
  match l with
  | [] => [x]
  | y :: r => if after x y then y :: insert x r else x :: l
  end.

Definition sort (l : list A) : list A := fold_right insert [] l.

(** The comparator does not tell [x] from [z]. *)
Definition tied (z x : A) : bool := negb (after z x) && negb (after x z).

(** What the language asks of the result [l'] of sorting [l]. *)
Definition arranged (l l' : list A) : Prop :=
  Permutation l l' /\
  StronglySorted (fun x y => after x y = false) l' /\
  forall z, In z l -> filter (tied z) l' = filter (tied z) l.
End Sort.

(* ================================================================= *)
(** * The order book ([orderbook.js])                                  *)
(* ================================================================= *)

Module OrderBook.

(** A row of a ladder is a JavaScript array of numbers:
    [[price, quantity]] out of [_processDepthData], and
    [[price, quantity, total]] once [_calculateStats] has run. *)
Definition Row : Type := list float.

(** [item[i]] where a number is expected: a missing element is [undefined],
    which every arithmetic operator and comparison reads as [NaN]. *)
Definition at_ (item : Row) (i : nat) : float := nth i item nan.

(** An entry of a raw side array, as the callback of [data.map] tells them
    apart. *)
Record LevelObject : Type := {
  o_price : Js.value;
  o_p : Js.value;
  o_quantity : Js.value;
  o_q : Js.value;
  o_amount : Js.value;
  o_a : Js.value
}.

Inductive RawItem : Type :=
| ItemArray (elems : list Js.value)    (* [Array.isArray(item)] *)
| ItemObject (o : LevelObject)         (* a non-null object *)
| ItemNull                             (* [typeof null === 'object'] *)
| ItemOther.                           (* a number, string, boolean or
                                          [undefined] *)

(** What an update holds under [bids] or [asks]. *)
Inductive SideField : Type :=
| SideAbsent                           (* missing, or any falsy value *)
| SideNotArray                         (* a truthy value that is no array *)
| SideArray (items : list RawItem).

Record RawUpdate : Type := {
  u_lastUpdateId : option float;       (* [None]: the field is missing *)
  u_bids : SideField;
  u_asks : SideField
}.

(** The fields of [this] that the data path reads or writes.  [maxRows]
    stands for [this.options.maxRows], an integer. *)
Record t : Type := {
  maxRows : Z;
  bids : list Row;
  asks : list Row;
  lastUpdateId : float;
  spreadValue : float;
  spreadPercent : float;
  totalBidVolume : float;
  totalAskVolume : float
}.

(** The constructor, with the options given ([None]: the default 15). *)
Definition new (optMaxRows : option Z) : t := {|
  maxRows := match optMaxRows with Some n => n | None => 15%Z end;
  bids := [];
  asks := [];
  lastUpdateId := 0;
  spreadValue := 0;
  spreadPercent := 0;
  totalBidVolume := 0;
  totalAskVolume := 0
|}.

(** ** A method is a state transformer that may throw *)

Definition M (A : Type) : Type := t -> t * completion A.

Definition ret {A : Type} (a : A) : M A := fun this => (this, Normal a).

Definition bind {A B : Type} (m : M A) (k : A -> M B) : M B :=
  fun this =>
    match m this with
    | (this', Normal a) => k a this'
    | (this', Throw) => (this', Throw)
    end.

Definition get : M t := fun this => (this, Normal this).

Definition modify (f : t -> t) : M unit := fun this => (f this, Normal tt).

Definition lift {A : Type} (c : completion A) : M A := fun this => (this, c).

Declare Scope method_scope.
Delimit Scope method_scope with method.
Notation "x <- m ;; k" := (bind m (fun x => k))
  (at level 61, m at next level, right associativity) : method_scope.
Notation "m ;; k" := (bind m (fun _ => k))
  (at level 61, right associativity) : method_scope.

Definition set_bids (l : list Row) (this : t) : t :=
  {| maxRows := maxRows this; bids := l; asks := asks this;
     lastUpdateId := lastUpdateId this; spreadValue := spreadValue this;
     spreadPercent := spreadPercent this;
     totalBidVolume := totalBidVolume this;
     totalAskVolume := totalAskVolume this |}.

Definition set_asks (l : list Row) (this : t) : t :=
  {| maxRows := maxRows this; bids := bids this; asks := l;
     lastUpdateId := lastUpdateId this; spreadValue := spreadValue this;
     spreadPercent := spreadPercent this;
     totalBidVolume := totalBidVolume this;
     totalAskVolume := totalAskVolume this |}.

Definition set_lastUpdateId (id : float) (this : t) : t :=
  {| maxRows := maxRows this; bids := bids this; asks := asks this;
     lastUpdateId := id; spreadValue := spreadValue this;
     spreadPercent := spreadPercent this;
     totalBidVolume := totalBidVolume this;
     totalAskVolume := totalAskVolume this |}.

Definition set_maxRows (n : Z) (this : t) : t :=
  {| maxRows := n; bids := bids this; asks := asks this;
     lastUpdateId := lastUpdateId this; spreadValue := spreadValue this;
     spreadPercent := spreadPercent this;
     totalBidVolume := totalBidVolume this;
     totalAskVolume := totalAskVolume this |}.

(** ** [_processDepthData] *)

(** The callback of [data.map]: one raw entry to [[price, quantity]].
    Reading a property of [null] throws. *)
Definition normalize (item : RawItem) : completion Row :=
  match item with
  | ItemArray elems =>
      let price := nth 0 elems Js.VUndefined in
      let quantity := nth 1 elems Js.VUndefined in
      Normal [Js.parseFloat price; Js.parseFloat quantity]
  | ItemObject o =>
      let price := Js.or (o_price o) (o_p o) in
      let quantity :=
        Js.or (Js.or (Js.or (o_quantity o) (o_q o)) (o_amount o)) (o_a o) in
      Normal [Js.parseFloat price; Js.parseFloat quantity]
  | ItemNull => Throw
  | ItemOther =>
      Normal [Js.parseFloat Js.VUndefined; Js.parseFloat Js.VUndefined]
  end.

(** [item => item[1] > 0]. *)
Definition positiveQuantity (item : Row) : bool :=
  PrimFloat.ltb 0 (at_ item 1).

(** [(a, b) => isBids ? b[0] - a[0] : a[0] - b[0]]. *)
Definition comparator (isBids : bool) (a b : Row) : float :=
  if isBids then (at_ b 0 - at_ a 0)%float else (at_ a 0 - at_ b 0)%float.

Definition _processDepthData (this : t) (data : SideField) (isBids : bool)
  : completion (list Row) :=
  match data with
  | SideArray items =>
      match mapC normalize items with
      | Throw => Throw
      | Normal processed =>
          let filtered := filter positiveQuantity processed in
          let sorted := sort (comparator isBids) filtered in
          Normal (slice0 sorted (maxRows this))
      end
  | _ => Normal []
  end.

(** ** [_calculateStats] *)

(** [l.reduce((sum, item) => sum + item[1], 0)]. *)
Definition totalVolume (l : list Row) : float :=
  fold_left (fun sum item => (sum + at_ item 1)%float) l 0%float.

(** [l.map(item => { total += item[1]; return [...item, total]; })], with
    the running [total] as an argument. *)
Fixpoint withTotals (total : float) (l : list Row) : list Row :=
  match l with
  | [] => []
  | item :: r =>
      let total' := (total + at_ item 1)%float in
      (item ++ [total']) :: withTotals total' r
  end.

Definition calculateStats (this : t) : t :=
  let both :=
    ((0 <? List.length (asks this)) && (0 <? List.length (bids this)))%nat in
  let lowestAsk := at_ (nth 0 (asks this) []) 0 in
  let highestBid := at_ (nth 0 (bids this) []) 0 in
  let spread := if both then (lowestAsk - highestBid)%float else 0%float in
  {| maxRows := maxRows this;
     bids := withTotals 0 (bids this);
     asks := withTotals 0 (asks this);
     lastUpdateId := lastUpdateId this;
     spreadValue := spread;
     spreadPercent :=
       if both then (spread / lowestAsk * 100)%float else 0%float;
     totalBidVolume := totalVolume (bids this);
     totalAskVolume := totalVolume (asks this) |}.

Definition _calculateStats : M unit := modify calculateStats.

(** ** [update] *)

(** [data.lastUpdateId && data.lastUpdateId > this.lastUpdateId], for a
    [lastUpdateId] that is present. *)
Definition newer (id : float) (this : t) : bool :=
  Js.truthy (Js.VNum id) && PrimFloat.ltb (lastUpdateId this) id.

Definition isPresent (f : SideField) : bool :=
  match f with SideAbsent => false | _ => true end.

Local Open Scope method_scope.

(** [data = None] stands for a [null] or [undefined] argument.  The
    completion is that of the data path, which ends with [_calculateStats]:
    [Throw] is the [TypeError] that a [null] entry of a side array raises.
    The rendering that follows in the source reads the fields left here
    and writes none of them; where it raises an exception of its own
    ([toFixed] with a precision option outside 0 to 100), the fields are
    those of a call that is [Normal] here. *)
Definition update (data : option RawUpdate) : M unit :=
  match data with
  | None => ret tt
  | Some data =>
      (match u_lastUpdateId data with
       | Some id =>
           this <- get ;;
           if newer id this then modify (set_lastUpdateId id) else ret tt
       | None => ret tt
       end) ;;
      (if isPresent (u_bids data) then
         this <- get ;;
         l <- lift (_processDepthData this (u_bids data) true) ;;
         modify (set_bids l)
       else ret tt) ;;
      (if isPresent (u_asks data) then
         this <- get ;;
         l <- lift (_processDepthData this (u_asks data) false) ;;
         modify (set_asks l)
       else ret tt) ;;
      _calculateStats
  end.

(** ** [updateOptions]

    [Object.assign(this.options, options)]: an option that is given replaces
    the stored one as it is.  What follows in the source rebuilds the DOM. *)
Definition updateOptions (optMaxRows : option Z) : M unit :=
  modify (fun this =>
            match optMaxRows with
            | Some n => set_maxRows n this
            | None => this
            end).


(** ** Vocabulary of the properties *)

(** The renderers read a row as [const [price, quantity, total] = row]. *)
Definition price (row : Row) : float := at_ row 0.
Definition quantity (row : Row) : float := at_ row 1.
Definition cumulative (row : Row) : float := at_ row 2.

(** The two sides, by the flag [_processDepthData] takes. *)
Definition ladder (isBids : bool) (this : t) : list Row :=
  if isBids then bids this else asks this.

Definition field (isBids : bool) (data : RawUpdate) : SideField :=
  if isBids then u_bids data else u_asks data.

Definition sideVolume (isBids : bool) (this : t) : float :=
  if isBids then totalBidVolume this else totalAskVolume this.

(** [a] may stand before [b]: bids by falling price, asks by rising price. *)
Definition inOrder (isBids : bool) (a b : Row) : Prop :=
  if isBids then PrimFloat.leb (price b) (price a) = true
  else PrimFloat.leb (price a) (price b) = true.

(** The entries of a raw side array that survive the quantity filter, as
    [[price, quantity]] rows in the order of the array. *)
Definition survivors (items : list RawItem) (rows : list Row) : Prop :=
  exists processed,
    mapC normalize items = Normal processed /\
    rows = filter positiveQuantity processed.

(** Running totals of a list of quantities, from [total]. *)
Fixpoint runningTotals (total : float) (qs : list float) : list float :=
  match qs with
  | [] => []
  | q :: r => (total + q)%float :: runningTotals (total + q) r
  end.

(** A ladder as [_calculateStats] leaves it: rows of at least three numbers,
    positive quantities, and in third place the running total of the
    quantities. *)
Definition rowStored (row : Row) : Prop :=
  (3 <= List.length row)%nat /\ PrimFloat.ltb 0 (quantity row) = true.

Definition ladderStored (l : list Row) : Prop :=
  Forall rowStored l /\
  map cumulative l = runningTotals 0 (map quantity l).

(** A ladder as [_processDepthData] leaves it: [[price, quantity]] rows with
    positive quantities.  A side is left so when [update] throws before it
    reaches [_calculateStats]. *)
Definition rowFresh (row : Row) : Prop :=
  row = [price row; quantity row] /\ PrimFloat.ltb 0 (quantity row) = true.

Definition ladderKept (l : list Row) : Prop :=
  ladderStored l \/ Forall rowFresh l.

(** The invariant of the stored state between calls. *)
Definition stored (this : t) : Prop :=
  ladderKept (bids this) /\ ladderKept (asks this) /\
  PrimFloat.leb 0 (lastUpdateId this) = true.

(** What [update] leaves under one side: the new ladder when the side is
    present, the old rows otherwise, before [_calculateStats] runs. *)
Definition sideAfter (this : t) (f : SideField) (isBids : bool)
  : completion (list Row) :=
  if isPresent f then _processDepthData this f isBids
  else Normal (ladder isBids this).

(** What [update] leaves in [lastUpdateId]. *)
Definition idAfter (data : RawUpdate) (this : t) : float :=
  match u_lastUpdateId data with
  | Some id => if newer id this then id else lastUpdateId this
  | None => lastUpdateId this
  end.

(** The larger of two numbers that are not [NaN]. *)
Definition larger (a b : float) : float :=
  if PrimFloat.ltb a b then b else a.

(** The state [_calculateStats] starts from at the end of [update], with the
    ladders [lb] and [la] the two sides have left. *)
Definition beforeStats (data : RawUpdate) (this : t) (lb la : list Row) : t :=
  {| maxRows := maxRows this; bids := lb; asks := la;
     lastUpdateId := idAfter data this;
     spreadValue := spreadValue this; spreadPercent := spreadPercent this;
     totalBidVolume := totalBidVolume this;
     totalAskVolume := totalAskVolume this |}.

(** The states an order book goes through: built by the constructor, then
    changed by [update] (however it completes) and [updateOptions]. *)
Inductive reachable : t -> Prop :=
| reach_new (n : option Z) : reachable (new n)
| reach_update (data : option RawUpdate) (this : t) :
    reachable this -> reachable (fst (update data this))
| reach_updateOptions (n : option Z) (this : t) :
    reachable this -> reachable (fst (updateOptions n this)).

End OrderBook.

(* ================================================================= *)
(** * The trade history: [addTrade] and the price-change class        *)
(* ================================================================= *)

Module TradeHistory.

(** The fields of a raw trade that [_getTradePrice] and
    [_getTradeQuantity] read. *)
Record RawTrade : Type := {
  r_price : Js.value;
  r_p : Js.value;
  r_quantity : Js.value;
  r_amount : Js.value;
  r_q : Js.value;
  r_a : Js.value
}.

(** A processed trade; its time, side and id play no part in what follows
    and are left out. *)
Record Trade : Type := {
  price : float;
  quantity : float;
  amount : float
}.

(** The class the price cell of a new row gets besides its side. *)
Inductive PriceChangeClass : Type :=
| PriceUp                              (* ['price-up'] *)
| PriceDown                            (* ['price-down'] *)
| NoClass.                             (* [''] *)

Record t : Type := {
  maxRows : Z;                         (* [this.options.maxRows] *)
  priceChangeColors : bool;            (* [this.options.priceChangeColors] *)
  autoUpdate : bool;                   (* [this.options.autoUpdate] *)
  hasTableBody : bool;                 (* [this.tableBody] is an element *)
  trades : list Trade;
  lastPrice : option float;            (* [None]: [null] *)
  currentPage : Z
}.

Definition new (optMaxRows : option Z) (colors auto table : bool) : t := {|
  maxRows := match optMaxRows with Some n => n | None => 50%Z end;
  priceChangeColors := colors;
  autoUpdate := auto;
  hasTableBody := table;
  trades := [];
  lastPrice := None;
  currentPage := 1
|}.

(** [typeof price === 'number' ? price : parseFloat(price)] *)
Definition _getTradePrice (trade : RawTrade) : float :=
  let price := Js.or (r_price trade) (r_p trade) in
  match price with
  | Js.VNum f => f
  | _ => Js.parseFloat price
  end.

Definition _getTradeQuantity (trade : RawTrade) : float :=
  let quantity :=
    Js.or (Js.or (Js.or (r_quantity trade) (r_amount trade)) (r_q trade))
          (r_a trade) in
  match quantity with
  | Js.VNum f => f
  | _ => Js.parseFloat quantity
  end.

(** The class [_renderNewTrade] computes for the row of [trade]; [None] when
    it returns before building a row. *)
Definition _renderNewTrade (this : t) (trade : Trade)
  : option PriceChangeClass :=
  if negb (hasTableBody this) || negb (currentPage this =? 1)%Z then None
  else
    Some match lastPrice this with
         | Some last =>
             if priceChangeColors this then
               if PrimFloat.ltb last (price trade) then PriceUp
               else if PrimFloat.ltb (price trade) last then PriceDown
               else NoClass
             else NoClass
         | None => NoClass
         end.

(** [addTrade]: the state after the call and the class of the row it
    rendered, if it rendered one.  [trade = None] stands for a falsy
    argument.  [_applyFilters] recomputes the filtered view and resets the
    page to 1. *)
Definition addTrade (trade : option RawTrade) (this : t)
  : t * option PriceChangeClass :=
  match trade with
  | None => (this, None)
  | Some trade =>
      let p := _getTradePrice trade in
      let q := _getTradeQuantity trade in
      let processed :=
        {| price := p; quantity := q; amount := (p * q)%float |} in
      let last :=
        match trades this with
        | first :: _ => Some (price first)
        | [] => None
        end in
      let unshifted := processed :: trades this in
      let kept :=
        if (maxRows this <? Z.of_nat (List.length unshifted))%Z
        then removelast unshifted else unshifted in
      let this' :=
        {| maxRows := maxRows this;
           priceChangeColors := priceChangeColors this;
           autoUpdate := autoUpdate this;
           hasTableBody := hasTableBody this;
           trades := kept;
           lastPrice := last;
           currentPage := 1 |} in
      if autoUpdate this' && (currentPage this' =? 1)%Z
      then (this', _renderNewTrade this' processed)
      else (this', None)
  end.

(** ** Vocabulary of the properties *)


End TradeHistory.

(* ================================================================= *)
(** * Sample messages                                                  *)
(* ================================================================= *)

Module Samples.
Import OrderBook.

Definition level (p q : float) : RawItem :=
  ItemArray [Js.VNum p; Js.VNum q].

(** [{lastUpdateId: 7, bids: [[100,1],[99,2]], asks: [[101,1],[102,2]]}] *)
Definition snapshot : RawUpdate :=
  {| u_lastUpdateId := Some 7%float;
     u_bids := SideArray [level 100 1; level 99 2];
     u_asks := SideArray [level 101 1; level 102 2] |}.

(** [{bids: [[50,1]]}] *)
Definition bidsOnly : RawUpdate :=
  {| u_lastUpdateId := None;
     u_bids := SideArray [level 50 1];
     u_asks := SideAbsent |}.

(** [[["98.5","3"], {p:"99", q:"0"}, [100,1], {price:"98.5", amount:2}]] *)
Definition mixedBids : list RawItem :=
  [ItemArray [Js.VStr "98.5"; Js.VStr "3"];
   ItemObject {| o_price := Js.VUndefined; o_p := Js.VStr "99";
                 o_quantity := Js.VUndefined; o_q := Js.VStr "0";
                 o_amount := Js.VUndefined; o_a := Js.VUndefined |};
   level 100 1;
   ItemObject {| o_price := Js.VStr "98.5"; o_p := Js.VUndefined;
                 o_quantity := Js.VUndefined; o_q := Js.VUndefined;
                 o_amount := Js.VNum 2; o_a := Js.VUndefined |}].

(** [[["101.25","4"], [101.25, 1]]] *)
Definition mixedAsks : list RawItem :=
  [ItemArray [Js.VStr "101.25"; Js.VStr "4"]; level 101.25 1].

(** [{lastUpdateId: 3, bids: mixedBids, asks: mixedAsks}] *)
Definition mixed : RawUpdate :=
  {| u_lastUpdateId := Some 3%float;
     u_bids := SideArray mixedBids;
     u_asks := SideArray mixedAsks |}.

(** [{bids: [["abc", 1]], asks: []}]: a price that is no number. *)
Definition nanPrice : RawUpdate :=
  {| u_lastUpdateId := None;
     u_bids := SideArray [ItemArray [Js.VStr "abc"; Js.VNum 1]];
     u_asks := SideArray [] |}.


(** [{bids: [[1,1]], asks: [[0,1]]}]: a best ask of zero. *)
Definition zeroAsk : RawUpdate :=
  {| u_lastUpdateId := None;
     u_bids := SideArray [level 1 1];
     u_asks := SideArray [level 0 1] |}.

(** [{bids: [[3,1],[2,1],[1,1]], asks: []}] *)
Definition threeBids : RawUpdate :=
  {| u_lastUpdateId := None;
     u_bids := SideArray [level 3 1; level 2 1; level 1 1];
     u_asks := SideArray [] |}.

(** [{bids: [[5, "Infinity"]], asks: []}] *)
Definition infiniteQuantity : RawUpdate :=
  {| u_lastUpdateId := None;
     u_bids := SideArray [ItemArray [Js.VNum 5; Js.VStr "Infinity"]];
     u_asks := SideArray [] |}.

(** The state a call leaves. *)
Definition stateAfter (m : M unit) (this : t) : t := fst (m this).

(** A new order book after one message. *)
Definition firstState (data : RawUpdate) : t :=
  stateAfter (update (Some data)) (new None).

(** A new order book after [updateOptions({maxRows: n})] and the three
    bids. *)
Definition cappedState (n : Z) : t :=
  stateAfter (update (Some threeBids))
    (stateAfter (updateOptions (Some n)) (new None)).

(** The snapshot, then [{bids: [[50,1]]}]. *)
Definition partialState : t :=
  stateAfter (update (Some bidsOnly)) (firstState snapshot).

Definition trade (p : float) : TradeHistory.RawTrade :=
  {| TradeHistory.r_price := Js.VNum p; TradeHistory.r_p := Js.VUndefined;
     TradeHistory.r_quantity := Js.VNum 1;
     TradeHistory.r_amount := Js.VUndefined;
     TradeHistory.r_q := Js.VUndefined; TradeHistory.r_a := Js.VUndefined |}.



End Samples.

(* ================================================================= *)
(** * The order book: bad entries and the depth chart                  *)
(* ================================================================= *)

Module OrderBookView.
Import OrderBook.

(** The side holds an array with a [null] entry, the one entry on which the
    callback of [data.map] throws. *)
Definition hasNull (f : SideField) : Prop :=
  match f with
  | SideArray items => In ItemNull items
  | _ => False
  end.

(** [item => [item[0], item[2]]] of [_renderDepthChart]: a point of a
    series.  [None] stands for [undefined], where the row is too short. *)
Definition point (item : Row) : list (option float) :=
  [nth_error item 0; nth_error item 2].

(** The data of the two series that [_renderDepthChart] hands to the chart:
    [bidData.reverse()] and [askData]. *)
Definition depthSeries (this : t)
  : list (list (option float)) * list (list (option float)) :=
  (rev (map point (bids this)), map point (asks this)).

(** [_renderDepthChart]: the series it draws, if the chart library and the
    container of the chart are there ([window.echarts && this.chartContainer]). *)
Definition _renderDepthChart (echarts chartContainer : bool) (this : t)
  : option (list (list (option float)) * list (list (option float))) :=
  if echarts && chartContainer then Some (depthSeries this) else None.

(** A coordinate of a point of a series, [NaN] where the point has none. *)
Definition coordinate (i : nat) (p : list (option float)) : float :=
  match nth_error p i with
  | Some (Some x) => x
  | _ => nan
  end.

(** [this.asks.length > 0 ? this.asks[this.asks.length - 1][2] : 0] of
    [_renderAsks], and the same over [this.bids] in [_renderBids]: the total
    against which the bar of every row is measured. *)
Definition maxTotal (l : list Row) : float :=
  match l with
  | [] => 0
  | _ => at_ (last l []) 2
  end.

(** ** Sample messages *)

(** [{lastUpdateId: 9, bids: [null], asks: [[101,1]]}] *)
Definition nullBid : RawUpdate :=
  {| u_lastUpdateId := Some 9%float;
     u_bids := SideArray [ItemNull];
     u_asks := SideArray [Samples.level 101 1] |}.

(** [{lastUpdateId: 9, bids: [[98,4],[99,5]], asks: [[101,1], null]}] *)
Definition nullAsk : RawUpdate :=
  {| u_lastUpdateId := Some 9%float;
     u_bids := SideArray [Samples.level 98 4; Samples.level 99 5];
     u_asks := SideArray [Samples.level 101 1; ItemNull] |}.

End OrderBookView.

(* ================================================================= *)
(** * The trade history: the list, its filters, its order, its pages   *)
(* ================================================================= *)

(** [l.slice(start, end)] for integers: a negative index counts from the
    end of the array. *)
Definition slice {A : Type} (l : list A) (start end_ : Z) : list A :=
  let len := Z.of_nat (List.length l) in
  let k :=
    if (start <? 0)%Z then Z.max (len + start) 0 else Z.min start len in
  let final :=
    if (end_ <? 0)%Z then Z.max (len + end_) 0 else Z.min end_ len in
  firstn (Z.to_nat (final - k)) (skipn (Z.to_nat k) l).

(** [Array.prototype.map] with a callback that may throw and that is given
    the index of the element; [i] is the index of the first element. *)
Fixpoint mapCAt {A B : Type} (f : nat -> A -> completion B) (i : nat)
  (l : list A) : completion (list B) :=
  match l with
  | [] => Normal []
  | x :: r =>
      match f i x with
      | Throw => Throw
      | Normal y =>
          match mapCAt f (S i) r with
          | Throw => Throw
          | Normal ys => Normal (y :: ys)
          end
      end
  end.

(** [Array.prototype.filter], the callback given the index as well. *)
Fixpoint filterAt {A : Type} (f : nat -> A -> bool) (i : nat) (l : list A)
  : list A :=
  match l with
  | [] => []
  | x :: r => if f i x then x :: filterAt f (S i) r else filterAt f (S i) r
  end.

Module TradeTable.

(** ** What the host gives

    The component reads the clock ([Date.now()], [new Date()]), parses
    date strings and computes boundaries of the local calendar.  None of
    these is fixed by the program; they are taken as given. *)
Record Host : Type := {
  (** [Date.parse]: the time value of a string, [NaN] if it has none *)
  dateParse : string -> float;
  (** [new Date(now.getFullYear(), now.getMonth(), now.getDate())] *)
  midnight : float -> float;
  (** [d = new Date(today); d.setDate(today.getDate() - 1)] *)
  dayBefore : float -> float;
  (** [d = new Date(today); d.setDate(today.getDate() - today.getDay())] *)
  weekStart : float -> float;
  (** [new Date(now.getFullYear(), now.getMonth(), 1)] *)
  monthStart : float -> float
}.

(** The integer [z] as a number; exact below [2^53]. *)
Definition ofInteger (z : Z) : float :=
  SF2Prim (binary_normalize prec emax z 0 false).

(** [TimeClip], which [new Date(number)] applies: [NaN] for a number that
    is not finite or beyond 8.64e15 milliseconds either way, and the number
    without its fraction otherwise. *)
Definition timeClip (time : float) : float :=
  match Prim2SF time with
  | S754_zero _ => 0%float
  | S754_finite s m e =>
      let beyond :=
        if (0 <=? e)%Z then (8640000000000000 <? Z.pos m * 2 ^ e)%Z
        else (8640000000000000 * 2 ^ (- e) <? Z.pos m)%Z in
      let magnitude :=
        if (0 <=? e)%Z then (Z.pos m * 2 ^ e)%Z
        else (Z.pos m / 2 ^ (- e))%Z in
      if beyond then nan
      else ofInteger (if s then (- magnitude)%Z else magnitude)
  | _ => nan
  end.

(** ** Raw trades *)

(** A field that may hold a time: a primitive, a [Date] (by its time
    value, [NaN] for an invalid date) or another object. *)
Inductive TimeField : Type :=
| Prim (v : Js.value)
| DateObject (tv : float)
| OtherObject.

Definition truthyTime (f : TimeField) : bool :=
  match f with
  | Prim v => Js.truthy v
  | DateObject _ | OtherObject => true
  end.

(** [a || b] on such fields. *)
Definition orTime (a b : TimeField) : TimeField :=
  if truthyTime a then a else b.

(** A raw trade: the fields the component reads.  An entry that is a
    number, a string or a boolean has none of them and reads as the object
    whose fields are all [undefined]. *)
Record RawTrade : Type := {
  numbers : TradeHistory.RawTrade;     (* [price p quantity amount q a] *)
  r_time : TimeField;
  r_timestamp : TimeField;
  r_tradeTime : TimeField;
  r_date : TimeField;
  r_side : Js.value;
  r_type : Js.value;
  r_direction : Js.value;
  r_isBuyerMaker : Js.value;
  r_isBuyer : Js.value;
  r_id : Js.value;
  r_tradeId : Js.value
}.

Inductive Side : Type :=
| Buy                                  (* ['buy'] *)
| Sell.                                (* ['sell'] *)

Definition Side_eqb (a b : Side) : bool :=
  match a, b with
  | Buy, Buy | Sell, Sell => true
  | _, _ => false
  end.

(** A processed trade.  [time] is the time value of the [Date] the field
    holds. *)
Record Trade : Type := {
  time : float;
  price : float;
  quantity : float;
  side : Side;
  amount : float;
  id : Js.value;
  raw : RawTrade
}.

(** ** Filter, order and state *)

Inductive SideFilter : Type :=
| AllSides                             (* ['all'] *)
| Only (s : Side).                     (* ['buy'], ['sell'] *)

Inductive TimeRange : Type :=
| AllTime | Today | Yesterday | Week | Month.

Record Filter : Type := {
  f_side : SideFilter;
  minAmount : option float;            (* [None]: [null] *)
  maxAmount : option float;
  timeRange : TimeRange
}.

Inductive SortField : Type :=
| ByTime | ByPrice | ByQuantity | ByAmount.

Definition SortField_eqb (a b : SortField) : bool :=
  match a, b with
  | ByTime, ByTime | ByPrice, ByPrice
  | ByQuantity, ByQuantity | ByAmount, ByAmount => true
  | _, _ => false
  end.

Inductive Direction : Type :=
| Asc | Desc.

Record Sort : Type := {
  s_field : SortField;
  direction : Direction
}.

(** The fields of a [TradeHistory] that the list operations read and
    write.  [this.tableBody] is set by [_buildDOM], which the constructor
    runs before it returns. *)
Record t : Type := {
  maxRows : Z;                         (* [this.options.maxRows] *)
  pageSize : Z;                        (* [this.options.pageSize] *)
  trades : list Trade;
  filteredTrades : list Trade;
  lastPrice : option float;            (* [None]: [null] *)
  currentPage : Z;
  filter_ : Filter;                    (* [this.filter] *)
  sort_ : Sort                         (* [this.sort] *)
}.

(** The state the constructor leaves, given [options.maxRows] and
    [options.pageSize] where the caller sets them. *)
Definition new (optMaxRows optPageSize : option Z) : t := {|
  maxRows := match optMaxRows with Some n => n | None => 50%Z end;
  pageSize := match optPageSize with Some n => n | None => 15%Z end;
  trades := [];
  filteredTrades := [];
  lastPrice := None;
  currentPage := 1;
  filter_ := {| f_side := AllSides; minAmount := None; maxAmount := None;
                timeRange := AllTime |};
  sort_ := {| s_field := ByTime; direction := Desc |}
|}.

Definition set_trades (l : list Trade) (this : t) : t :=
  {| maxRows := maxRows this; pageSize := pageSize this;
     trades := l; filteredTrades := filteredTrades this;
     lastPrice := lastPrice this; currentPage := currentPage this;
     filter_ := filter_ this; sort_ := sort_ this |}.

Definition set_filteredTrades (l : list Trade) (this : t) : t :=
  {| maxRows := maxRows this; pageSize := pageSize this;
     trades := trades this; filteredTrades := l;
     lastPrice := lastPrice this; currentPage := currentPage this;
     filter_ := filter_ this; sort_ := sort_ this |}.

Definition set_lastPrice (p : option float) (this : t) : t :=
  {| maxRows := maxRows this; pageSize := pageSize this;
     trades := trades this; filteredTrades := filteredTrades this;
     lastPrice := p; currentPage := currentPage this;
     filter_ := filter_ this; sort_ := sort_ this |}.

Definition set_currentPage (n : Z) (this : t) : t :=
  {| maxRows := maxRows this; pageSize := pageSize this;
     trades := trades this; filteredTrades := filteredTrades this;
     lastPrice := lastPrice this; currentPage := n;
     filter_ := filter_ this; sort_ := sort_ this |}.

Definition set_filter (f : Filter) (this : t) : t :=
  {| maxRows := maxRows this; pageSize := pageSize this;
     trades := trades this; filteredTrades := filteredTrades this;
     lastPrice := lastPrice this; currentPage := currentPage this;
     filter_ := f; sort_ := sort_ this |}.

Definition set_sort (s : Sort) (this : t) : t :=
  {| maxRows := maxRows this; pageSize := pageSize this;
     trades := trades this; filteredTrades := filteredTrades this;
     lastPrice := lastPrice this; currentPage := currentPage this;
     filter_ := filter_ this; sort_ := s |}.

Definition set_options (optMaxRows optPageSize : option Z) (this : t) : t :=
  {| maxRows := match optMaxRows with Some n => n | None => maxRows this end;
     pageSize :=
       match optPageSize with Some n => n | None => pageSize this end;
     trades := trades this; filteredTrades := filteredTrades this;
     lastPrice := lastPrice this; currentPage := currentPage this;
     filter_ := filter_ this; sort_ := sort_ this |}.

Section Hosted.
Variable host : Host.

(** ** Reading a raw trade *)

(** [_getTradeTime].  [now] is what the clock reads during the call; the
    call reads it once at most, as [Date.now()] when the four fields are
    falsy or as [new Date()] when the field holds neither a number, a
    string nor a [Date]. *)
Definition _getTradeTime (now : float) (trade : RawTrade) : float :=
  let timeValue :=
    orTime (orTime (orTime (orTime (r_time trade) (r_timestamp trade))
                           (r_tradeTime trade))
                   (r_date trade))
           (Prim (Js.VNum now)) in
  match timeValue with
  | Prim (Js.VNum n) =>
      if PrimFloat.ltb 9999999999 n then timeClip n
      else timeClip (n * 1000)
  | Prim (Js.VStr s) => timeClip (dateParse host s)
  | DateObject tv => tv
  | _ => now
  end.

Definition isUpper (c : ascii) : bool :=
  let n := N_of_ascii c in ((65 <=? n) && (n <=? 90))%N.

(** [String.prototype.toLowerCase] on a string in UTF-8, as far as words
    of ASCII letters go: the letters [A]-[Z] and the Kelvin sign (U+212A,
    [e2 84 aa]) are the characters whose lower case is an ASCII letter.
    Other characters are left as they are; whatever their lower case is,
    it is not ASCII. *)
Fixpoint toLowerCase (s : string) : string :=
  match s with
  | String "226" (String "132" (String "170" r)) =>
      String "k" (toLowerCase r)
  | String c r =>
      String (if isUpper c then ascii_of_N (N_of_ascii c + 32) else c)
             (toLowerCase r)
  | EmptyString => EmptyString
  end.

(** [String(side).toLowerCase()] where [side] is a string.  [String] of a
    number or of a boolean is no name of a side in any case of letters:
    [None]. *)
Definition sideStr (side : Js.value) : option string :=
  match side with
  | Js.VStr s => Some (toLowerCase s)
  | _ => None
  end.

Definition isTrue (v : Js.value) : bool :=
  match v with Js.VBool true => true | _ => false end.

Definition isFalse (v : Js.value) : bool :=
  match v with Js.VBool false => true | _ => false end.

Definition oneOf (s : option string) (words : list string) : bool :=
  match s with
  | Some w => existsb (String.eqb w) words
  | None => false
  end.

(** [_getTradeSide] *)
Definition _getTradeSide (trade : RawTrade) : Side :=
  let side :=
    Js.or (Js.or (Js.or (r_side trade) (r_type trade)) (r_direction trade))
          (Js.VStr "") in
  let s := sideStr side in
  if oneOf s ["buy"; "bid"; "b"]%string then Buy
  else if oneOf s ["sell"; "ask"; "s"]%string then Sell
  else if isFalse (r_isBuyerMaker trade) || isTrue (r_isBuyer trade) then Buy
  else if isTrue (r_isBuyerMaker trade) || isFalse (r_isBuyer trade) then Sell
  else Buy.

(** [trade.id || trade.tradeId || ''] *)
Definition tradeId (trade : RawTrade) : Js.value :=
  Js.or (Js.or (r_id trade) (r_tradeId trade)) (Js.VStr "").

(** The processed trade that [update] and [addTrade] build. *)
Definition process (now : float) (trade : RawTrade) : Trade :=
  let price := TradeHistory._getTradePrice (numbers trade) in
  let quantity := TradeHistory._getTradeQuantity (numbers trade) in
  {| time := _getTradeTime now trade;
     price := price;
     quantity := quantity;
     side := _getTradeSide trade;
     amount := (price * quantity)%float;
     id := tradeId trade;
     raw := trade |}.

(** ** Filtering *)

(** The callback of [this.trades.filter] in [_applyFilters]; [now] is what
    [new Date()] reads while it runs. *)
Definition passes (f : Filter) (now : float) (trade : Trade) : bool :=
  if match f_side f with
     | AllSides => false
     | Only s => negb (Side_eqb (side trade) s)
     end
  then false
  else if match minAmount f with
          | Some m => PrimFloat.ltb (amount trade) m
          | None => false
          end
  then false
  else if match maxAmount f with
          | Some m => PrimFloat.ltb m (amount trade)
          | None => false
          end
  then false
  else
    let tradeDate := time trade in
    let today := midnight host now in
    let yesterday := dayBefore host today in
    let firstDayOfWeek := weekStart host today in
    let firstDayOfMonth := monthStart host now in
    match timeRange f with
    | AllTime => true
    | Today => negb (PrimFloat.ltb tradeDate today)
    | Yesterday =>
        negb (PrimFloat.ltb tradeDate yesterday
              || PrimFloat.leb today tradeDate)
    | Week => negb (PrimFloat.ltb tradeDate firstDayOfWeek)
    | Month => negb (PrimFloat.ltb tradeDate firstDayOfMonth)
    end.

(** ** Sorting *)

(** [a[field]] for the three fields that hold numbers. *)
Definition get (field : SortField) (a : Trade) : float :=
  match field with
  | ByTime => time a
  | ByPrice => price a
  | ByQuantity => quantity a
  | ByAmount => amount a
  end.

(** The comparator of [_applySort]. *)
Definition comparator (s : Sort) (a b : Trade) : float :=
  let result :=
    match s_field s with
    | ByTime => (time a - time b)%float
    | field => (get field a - get field b)%float
    end in
  match direction s with
  | Asc => result
  | Desc => (- result)%float
  end.

Definition _applySort (this : t) : t :=
  set_filteredTrades (sort (comparator (sort_ this)) (filteredTrades this))
                     this.

(** [_applyFilters]; [clock i] is what the clock reads while the filter
    visits [this.trades[i]]. *)
Definition _applyFilters (clock : nat -> float) (this : t) : t :=
  let filtered :=
    filterAt (fun i trade => passes (filter_ this) (clock i) trade) 0
             (trades this) in
  set_currentPage 1 (_applySort (set_filteredTrades filtered this)).

(** [_toggleSort] *)
Definition _toggleSort (field : SortField) (this : t) : t :=
  let s := sort_ this in
  let s' :=
    if SortField_eqb (s_field s) field then
      {| s_field := s_field s;
         direction := match direction s with Asc => Desc | Desc => Asc end |}
    else {| s_field := field; direction := Desc |} in
  _applySort (set_sort s' this).

(** ** Pages *)

(** The value of [Math.ceil(length / pageSize)]. *)
Inductive Pages : Type :=
| Finite (n : Z)
| Infinite                             (* a length above 0 over 0 *)
| NotANumber.                          (* 0 over 0 *)

Definition totalPages (this : t) : Pages :=
  let len := Z.of_nat (List.length (filteredTrades this)) in
  if (pageSize this =? 0)%Z then
    if (len =? 0)%Z then NotANumber else Infinite
  else Finite (- ((- len) / pageSize this))%Z.

(** [n < pages] *)
Definition below (n : Z) (pages : Pages) : bool :=
  match pages with
  | Finite m => (n <? m)%Z
  | Infinite => true
  | NotANumber => false
  end.

(** [currentPageTrades] of [_renderCurrentPage]: the rows it renders. *)
Definition currentPageTrades (this : t) : list Trade :=
  let startIndex := ((currentPage this - 1) * pageSize this)%Z in
  let endIndex :=
    Z.min (startIndex + pageSize this)
          (Z.of_nat (List.length (filteredTrades this))) in
  slice (filteredTrades this) startIndex endIndex.

(** The handler of the button to the previous page. *)
Definition prevButton_click (this : t) : t :=
  if (1 <? currentPage this)%Z
  then set_currentPage (currentPage this - 1) this
  else this.

(** The handler of the button to the next page. *)
Definition nextButton_click (this : t) : t :=
  if below (currentPage this) (totalPages this)
  then set_currentPage (currentPage this + 1) this
  else this.

(** The handlers of the two selects of the filter bar. *)
Definition sideSelect_change (clock : nat -> float) (v : SideFilter)
  (this : t) : t :=
  let f := filter_ this in
  _applyFilters clock
    (set_filter {| f_side := v; minAmount := minAmount f;
                   maxAmount := maxAmount f; timeRange := timeRange f |}
                this).

Definition timeSelect_change (clock : nat -> float) (v : TimeRange)
  (this : t) : t :=
  let f := filter_ this in
  _applyFilters clock
    (set_filter {| f_side := f_side f; minAmount := minAmount f;
                   maxAmount := maxAmount f; timeRange := v |}
                this).

(** ** [update], [addTrade], [clear], [updateOptions] *)

(** SameValueZero, by which a [Set] tells its members apart. *)
Definition sameValueZero (v w : Js.value) : bool :=
  match v, w with
  | Js.VUndefined, Js.VUndefined => true
  | Js.VNull, Js.VNull => true
  | Js.VBool a, Js.VBool b => Bool.eqb a b
  | Js.VNum a, Js.VNum b =>
      (PrimFloat.is_nan a && PrimFloat.is_nan b) || PrimFloat.eqb a b
  | Js.VStr a, Js.VStr b => String.eqb a b
  | _, _ => false
  end.

(** [new Set(ids).has(v)] *)
Definition has (ids : list Js.value) (v : Js.value) : bool :=
  existsb (sameValueZero v) ids.

(** [update(trades, append)].  [trades = None] stands for an argument that
    is no array; an entry [None] for [null] or [undefined], on which the
    callback of [trades.map] throws.  [clock i] is what the clock reads
    while entry [i] is processed, [filterClock] the clock of the
    [_applyFilters] that follows.  The completion is that of the data
    path, which ends when the list and the view are stored: [Throw] is the
    [TypeError] of a [null] entry.  The rendering that follows in the
    source reads these fields and writes none of them; where it raises an
    exception of its own ([toFixed] with a precision option outside 0 to
    100), the fields are those of a call that is [Normal] here. *)
Definition update (clock filterClock : nat -> float)
  (batch : option (list (option RawTrade))) (append : bool) (this : t)
  : t * completion unit :=
  match batch with
  | None => (this, Normal tt)
  | Some entries =>
      match mapCAt (fun i entry =>
                      match entry with
                      | Some trade => Normal (process (clock i) trade)
                      | None => Throw
                      end) 0 entries with
      | Throw => (this, Throw)
      | Normal processedTrades =>
          let stored :=
            if append then
              let existingIds := map id (trades this) in
              let newTrades :=
                filter (fun trade => negb (has existingIds (id trade)))
                       processedTrades in
              let all := newTrades ++ trades this in
              if (maxRows this <? Z.of_nat (List.length all))%Z
              then slice0 all (maxRows this)
              else all
            else slice0 processedTrades (maxRows this) in
          (_applyFilters filterClock (set_trades stored this), Normal tt)
      end
  end.

(** [addTrade(trade)], the list it keeps.  [trade = None] stands for a
    falsy argument.  (The class of the row it renders is
    [TradeHistory.addTrade].) *)
Definition addTrade (now : float) (filterClock : nat -> float)
  (trade : option RawTrade) (this : t) : t :=
  match trade with
  | None => this
  | Some trade =>
      let processed := process now trade in
      let last :=
        match trades this with
        | first :: _ => Some (price first)
        | [] => None
        end in
      let unshifted := processed :: trades this in
      let kept :=
        if (maxRows this <? Z.of_nat (List.length unshifted))%Z
        then removelast unshifted else unshifted in
      _applyFilters filterClock (set_trades kept (set_lastPrice last this))
  end.

(** [clear] *)
Definition clear (this : t) : t :=
  set_currentPage 1 (set_filteredTrades [] (set_trades [] this)).

(** [updateOptions(options)], for the two options the list depends on. *)
Definition updateOptions (filterClock : nat -> float)
  (optMaxRows optPageSize : option Z) (this : t) : t :=
  _applyFilters filterClock (set_options optMaxRows optPageSize this).

(** ** Vocabulary of the properties *)

(** The ids of the stored trades. *)
Definition ids (this : t) : list Js.value := map id (trades this).

(** A batch without [null] entries. *)
Definition entriesOf (raws : list RawTrade) : list (option RawTrade) :=
  map Some raws.

(** What [trades.map] makes of such a batch, entry [i] first. *)
Fixpoint processAt (clock : nat -> float) (i : nat) (raws : list RawTrade)
  : list Trade :=
  match raws with
  | [] => []
  | trade :: rest => process (clock i) trade :: processAt clock (S i) rest
  end.


(** The stored list is within [maxRows]. *)
Definition within (this : t) : Prop :=
  (Z.of_nat (List.length (trades this)) <= maxRows this)%Z.

(** The trade is on the side the filter asks for. *)
Definition onSide (f : SideFilter) (trade : Trade) : bool :=
  match f with
  | AllSides => true
  | Only s => Side_eqb (side trade) s
  end.

(** The filter without its time range. *)
Definition anyTime (f : Filter) : Filter :=
  {| f_side := f_side f; minAmount := minAmount f;
     maxAmount := maxAmount f; timeRange := AllTime |}.

(** The order the view is in: down the rows the value of the sort field
    does not fall in ascending direction, and does not rise in descending
    direction. *)
Definition ordered (s : Sort) (a b : Trade) : Prop :=
  match direction s with
  | Asc => PrimFloat.leb (get (s_field s) a) (get (s_field s) b) = true
  | Desc => PrimFloat.leb (get (s_field s) b) (get (s_field s) a) = true
  end.

(** [x] has the value of [z] in the field. *)
Definition sameValue (field : SortField) (z x : Trade) : bool :=
  PrimFloat.eqb (get field x) (get field z).

(** The state with the view on page [n]. *)
Definition onPage (n : Z) (this : t) : t := set_currentPage n this.

(** The rows of the pages 1 to [k], page by page. *)
Definition pagesTo (k : nat) (this : t) : list (list Trade) :=
  map (fun n => currentPageTrades (onPage (Z.of_nat n) this)) (seq 1 k).

(** The part of a processed trade and of the state that the class of a
    new row depends on ([TradeHistory.addTrade]). *)
Definition numbersOf (trade : Trade) : TradeHistory.Trade :=
  {| TradeHistory.price := price trade;
     TradeHistory.quantity := quantity trade;
     TradeHistory.amount := amount trade |}.

Definition asHistory (colors auto : bool) (this : t) : TradeHistory.t :=
  {| TradeHistory.maxRows := maxRows this;
     TradeHistory.priceChangeColors := colors;
     TradeHistory.autoUpdate := auto;
     TradeHistory.hasTableBody := true;
     TradeHistory.trades := map numbersOf (trades this);
     TradeHistory.lastPrice := lastPrice this;
     TradeHistory.currentPage := currentPage this |}.

(** The view shows stored trades, and the page is 1 or one of the pages
    that the view has. *)
Definition inRange (this : t) : Prop :=
  (1 <= currentPage this)%Z /\
  incl (filteredTrades this) (trades this) /\
  ((0 < pageSize this)%Z ->
   currentPage this = 1%Z \/
   exists k, totalPages this = Finite k /\ (currentPage this <= k)%Z).

(** What a user of the table can do to it. *)
Inductive reachable : t -> Prop :=
| reach_new m p : reachable (new m p)
| reach_update clock filterClock batch append this this' c :
    reachable this ->
    update clock filterClock batch append this = (this', c) ->
    reachable this'
| reach_addTrade now filterClock trade this :
    reachable this -> reachable (addTrade now filterClock trade this)
| reach_clear this : reachable this -> reachable (clear this)
| reach_toggleSort field this :
    reachable this -> reachable (_toggleSort field this)
| reach_prev this : reachable this -> reachable (prevButton_click this)
| reach_next this : reachable this -> reachable (nextButton_click this)
| reach_side clock v this :
    reachable this -> reachable (sideSelect_change clock v this)
| reach_time clock v this :
    reachable this -> reachable (timeSelect_change clock v this)
| reach_options filterClock m p this :
    reachable this -> reachable (updateOptions filterClock m p this).

End Hosted.

(** ** Samples *)

(** The clock of the samples stands at 2024-01-01T00:00:00Z, a Monday. *)
Definition newYear (i : nat) : float := 1704067200000%float.

(** A host in UTC as far as the samples go: the boundaries of the calendar
    are those of that reading of the clock (the day and the month begin
    with it, the week began the day before), and no string is a date. *)
Definition utc : Host :=
  {| dateParse := fun _ => nan;
     midnight := fun _ => 1704067200000%float;
     dayBefore := fun _ => 1703980800000%float;
     weekStart := fun _ => 1703980800000%float;
     monthStart := fun _ => 1704067200000%float |}.

(** [{price: p, quantity: 1, id: i}] *)
Definition priced (i : string) (p : float) : RawTrade :=
  {| numbers := Samples.trade p;
     r_time := Prim Js.VUndefined; r_timestamp := Prim Js.VUndefined;
     r_tradeTime := Prim Js.VUndefined; r_date := Prim Js.VUndefined;
     r_side := Js.VUndefined; r_type := Js.VUndefined;
     r_direction := Js.VUndefined;
     r_isBuyerMaker := Js.VUndefined; r_isBuyer := Js.VUndefined;
     r_id := Js.VStr i; r_tradeId := Js.VUndefined |}.

(** [{price: p, quantity: 1}] *)
Definition unnamed (p : float) : RawTrade :=
  {| numbers := Samples.trade p;
     r_time := Prim Js.VUndefined; r_timestamp := Prim Js.VUndefined;
     r_tradeTime := Prim Js.VUndefined; r_date := Prim Js.VUndefined;
     r_side := Js.VUndefined; r_type := Js.VUndefined;
     r_direction := Js.VUndefined;
     r_isBuyerMaker := Js.VUndefined; r_isBuyer := Js.VUndefined;
     r_id := Js.VUndefined; r_tradeId := Js.VUndefined |}.

(** [{price: p, quantity: 1, id: i, side: 'SELL'}] *)
Definition sold (i : string) (p : float) : RawTrade :=
  {| numbers := Samples.trade p;
     r_time := Prim Js.VUndefined; r_timestamp := Prim Js.VUndefined;
     r_tradeTime := Prim Js.VUndefined; r_date := Prim Js.VUndefined;
     r_side := Js.VStr "SELL"; r_type := Js.VUndefined;
     r_direction := Js.VUndefined;
     r_isBuyerMaker := Js.VUndefined; r_isBuyer := Js.VUndefined;
     r_id := Js.VStr i; r_tradeId := Js.VUndefined |}.

(** A new history after [update([a, b, c])], where [b] is a sale. *)
Definition bothSides : t :=
  fst (update utc newYear newYear
         (Some (entriesOf [priced "a" 2; sold "b" 3; priced "c" 1]))
         false (new None None)).

(** [{price: p, quantity: 1, time: when}] *)
Definition dated (when : string) (p : float) : RawTrade :=
  {| numbers := Samples.trade p;
     r_time := Prim (Js.VStr when); r_timestamp := Prim Js.VUndefined;
     r_tradeTime := Prim Js.VUndefined; r_date := Prim Js.VUndefined;
     r_side := Js.VUndefined; r_type := Js.VUndefined;
     r_direction := Js.VUndefined;
     r_isBuyerMaker := Js.VUndefined; r_isBuyer := Js.VUndefined;
     r_id := Js.VUndefined; r_tradeId := Js.VUndefined |}.

(** The default filter with a time range. *)
Definition ranged (range : TimeRange) : Filter :=
  {| f_side := AllSides; minAmount := None; maxAmount := None;
     timeRange := range |}.

(** A new history after [update([a, b, c])] with the prices 2, 3 and 1. *)
Definition threeTrades : t :=
  fst (update utc newYear newYear
         (Some (entriesOf [priced "a" 2; priced "b" 3; priced "c" 1]))
         false (new None None)).

(** The three trades in pages of [size] rows, sorted by price. *)
Definition paged (size : Z) : t :=
  _toggleSort ByPrice
    (fst (update utc newYear newYear
            (Some (entriesOf [priced "a" 2; priced "b" 3; priced "c" 1]))
            false (new None (Some size)))).

(** Two trades without an id recorded one by one, then
    [updateOptions({maxRows: 1})]: the list is longer than [maxRows]. *)
Definition lowered : t :=
  updateOptions utc newYear (Some 1%Z) None
    (addTrade utc 0 newYear (Some (unnamed 101))
       (addTrade utc 0 newYear (Some (unnamed 100)) (new None None))).

End TradeTable.

(* ================================================================= *)
(** * Facts of binary64 arithmetic                                     *)
(* ================================================================= *)

(** The order and the rounding of [SpecFloat], as far as the ladders need
    them: the sign of a difference, and a sum with a positive term. *)

Module FloatFacts.

Local Open Scope Z_scope.

Abbreviation fexp64 := (fexp prec emax).

Lemma fexp64_eq e : fexp64 e = Z.max (e - 53) (-1074).
Proof. reflexivity. Qed.

(** ** Mantissas and shifts *)

(** A mantissa of [d] binary digits lies between [2^(d-1)] and [2^d]. *)
Lemma digits2_bounds p :
  2 ^ (Zpos (digits2_pos p) - 1) <= Zpos p < 2 ^ Zpos (digits2_pos p).
Proof.
  induction p as [p IH | p IH |]; simpl digits2_pos.
  - rewrite Pos2Z.inj_succ.
    replace (Z.succ (Z.pos (digits2_pos p)) - 1)
      with (Z.succ (Z.pos (digits2_pos p) - 1)) by lia.
    rewrite !Z.pow_succ_r by lia. lia.
  - rewrite Pos2Z.inj_succ.
    replace (Z.succ (Z.pos (digits2_pos p)) - 1)
      with (Z.succ (Z.pos (digits2_pos p) - 1)) by lia.
    rewrite !Z.pow_succ_r by lia. lia.
  - simpl. lia.
Qed.

Lemma Zdigits2_bounds m :
  0 < m -> 2 ^ (Zdigits2 m - 1) <= m < 2 ^ Zdigits2 m.
Proof. destruct m; try lia. intros _. apply digits2_bounds. Qed.

Lemma Zdigits2_pos m : 0 < m -> 0 < Zdigits2 m.
Proof. destruct m; simpl; lia. Qed.

Lemma iter_pos_nat {A} (f : A -> A) p x :
  iter_pos f p x = Nat.iter (Pos.to_nat p) f x.
Proof.
  revert x. induction p as [p IH | p IH |]; intro x; simpl iter_pos.
  - rewrite !IH, Pos2Nat.inj_xI.
    replace (S (2 * Pos.to_nat p))
      with (Pos.to_nat p + (Pos.to_nat p + 1))%nat by lia.
    rewrite !Nat.iter_add. reflexivity.
  - rewrite !IH, Pos2Nat.inj_xO.
    replace (2 * Pos.to_nat p)%nat
      with (Pos.to_nat p + Pos.to_nat p)%nat by lia.
    rewrite Nat.iter_add. reflexivity.
  - reflexivity.
Qed.

(** One step of the right shift halves the mantissa. *)
Lemma shr_1_m r : 0 <= shr_m r -> shr_m (shr_1 r) = shr_m r / 2.
Proof.
  destruct r as [m b s]. simpl. intros H. rewrite <- Z.div2_div.
  destruct m as [| [p | p |] |]; simpl; try reflexivity; lia.
Qed.

Lemma shr_iter_m n r :
  0 <= shr_m r -> shr_m (Nat.iter n shr_1 r) = shr_m r / 2 ^ Z.of_nat n.
Proof.
  intros H. induction n as [| n IH].
  - simpl. now rewrite Z.div_1_r.
  - rewrite Nat.iter_succ, shr_1_m.
    + rewrite IH, Nat2Z.inj_succ, Z.pow_succ_r by lia.
      rewrite Z.div_div by lia. f_equal. lia.
    + rewrite IH. apply Z.div_pos; lia.
Qed.

(** [shr_fexp] brings a mantissa to the exponent of its format, if that is
    above the exponent it has, and divides it accordingly. *)
Lemma shr_fexp_spec m e l :
  0 <= m ->
  let e' := Z.max e (fexp64 (Zdigits2 m + e)) in
  snd (shr_fexp prec emax m e l) = e' /\
  shr_m (fst (shr_fexp prec emax m e l)) = m / 2 ^ (e' - e).
Proof.
  intros Hm e'. unfold shr_fexp, shr.
  assert (Hrec : shr_m (shr_record_of_loc m l) = m)
    by (destruct l as [| []]; reflexivity).
  destruct (fexp64 (Zdigits2 m + e) - e) as [| p | p] eqn:E; simpl.
  - split; [subst e'; lia |]. rewrite Hrec.
    replace (e' - e) with 0 by (subst e'; lia). now rewrite Z.div_1_r.
  - split; [subst e'; lia |].
    rewrite iter_pos_nat, shr_iter_m by lia. rewrite Hrec, positive_nat_Z.
    f_equal. f_equal. subst e'. lia.
  - split; [subst e'; lia |]. rewrite Hrec.
    replace (e' - e) with 0 by (subst e'; lia). now rewrite Z.div_1_r.
Qed.

Lemma round_nearest_even_bounds m l :
  m <= round_nearest_even m l <= m + 1.
Proof.
  destruct l as [| []]; simpl; try lia. destruct (Z.even m); lia.
Qed.

(** Shifting a positive mantissa down to its format exponent leaves a
    positive mantissa, when the exponent is no less than [emin]. *)
Lemma shr_fexp_pos m e l :
  0 < m -> -1074 <= e ->
  0 < shr_m (fst (shr_fexp prec emax m e l)) /\
  -1074 <= snd (shr_fexp prec emax m e l).
Proof.
  intros Hm He. destruct (shr_fexp_spec m e l) as [He' Hm']; [lia |].
  rewrite He', Hm'. split; [| lia].
  pose proof (Zdigits2_bounds m Hm) as [Hlo _].
  pose proof (Zdigits2_pos m Hm) as Hd.
  apply Z.div_str_pos. split; [apply Z.pow_pos_nonneg; lia |].
  eapply Z.le_trans; [| exact Hlo].
  apply Z.pow_le_mono_r; [lia |]. rewrite fexp64_eq. lia.
Qed.

(** ** Rounding *)

(** Rounding a positive mantissa at an exponent no less than [emin] gives a
    finite number of the same sign or the infinity of that sign, at an
    exponent no less than the one of the format; when it is that exponent,
    the mantissa is no less than the one shifted there. *)
Lemma binary_round_aux_spec s m e l :
  0 < m -> -1074 <= e ->
  let e1 := Z.max e (fexp64 (Zdigits2 m + e)) in
  exists m3 e3,
    binary_round_aux prec emax s m e l =
      (if e3 <=? emax - prec then S754_finite s m3 e3 else S754_infinity s) /\
    e1 <= e3 /\
    (e3 = e1 -> m / 2 ^ (e1 - e) <= Zpos m3).
Proof.
  intros Hm He e1. unfold binary_round_aux.
  pose proof (shr_fexp_spec m e l (Z.lt_le_incl _ _ Hm)) as [He1 Hm1].
  pose proof (shr_fexp_pos m e l Hm He) as [Hp1 Hq1].
  destruct (shr_fexp prec emax m e l) as [r1 e1'] eqn:E1.
  simpl in He1, Hm1, Hp1, Hq1. fold e1 in He1, Hm1.
  pose proof (round_nearest_even_bounds (shr_m r1) (loc_of_shr_record r1)) as Hr.
  set (m2 := round_nearest_even (shr_m r1) (loc_of_shr_record r1)) in *.
  assert (Hm2 : 0 < m2) by lia.
  pose proof (shr_fexp_spec m2 e1' loc_Exact (Z.lt_le_incl _ _ Hm2)) as [He3 Hm3].
  pose proof (shr_fexp_pos m2 e1' loc_Exact Hm2 Hq1) as [Hp3 _].
  destruct (shr_fexp prec emax m2 e1' loc_Exact) as [r3 e3] eqn:E3.
  simpl in He3, Hm3, Hp3.
  destruct (shr_m r3) as [| m3 | m3] eqn:E; try lia.
  exists m3, e3. split; [reflexivity |]. split; [lia |].
  intros Heq. rewrite Hm3, <- He3.
  replace (e3 - e1') with 0 by lia. rewrite Z.pow_0_r, Z.div_1_r. lia.
Qed.

(** Aligning a mantissa to a lower exponent multiplies it. *)
Lemma shl_align_spec mx ex ez :
  ez <= ex ->
  Zpos (fst (shl_align mx ex ez)) = Zpos mx * 2 ^ (ex - ez) /\
  snd (shl_align mx ex ez) = ez.
Proof.
  intros H. unfold shl_align.
  destruct (ez - ex) as [| d | d] eqn:E; simpl; try lia.
  - replace (ex - ez) with 0 by lia. rewrite Z.pow_0_r. lia.
  - replace (ex - ez) with (Zpos d) by lia.
    change (Pos.iter xO mx d) with (shift_pos d mx).
    rewrite shift_pos_correct. change (2 ^ Z.pos d) with (Z.pow_pos 2 d).
    split; [apply Z.mul_comm | reflexivity].
Qed.

(** ** Order and arithmetic of [SpecFloat] *)

Lemma bounded_canonical m e :
  bounded prec emax m e = true ->
  fexp64 (Zpos (digits2_pos m) + e) = e /\ e <= 971.
Proof.
  unfold bounded, canonical_mantissa. intros H.
  apply andb_true_iff in H as [H1 H2].
  apply Z.eqb_eq in H1. apply Z.leb_le in H2. split; [exact H1 | exact H2].
Qed.

(** Of two canonical mantissas, the one with the larger exponent is the
    larger number. *)
Lemma canonical_exponent_lt mx ex my ey :
  bounded prec emax mx ex = true -> bounded prec emax my ey = true ->
  ex < ey -> Zpos mx < Zpos my * 2 ^ (ey - ex).
Proof.
  intros Hx Hy Hlt.
  apply bounded_canonical in Hx as [Hx _]. apply bounded_canonical in Hy as [Hy _].
  rewrite fexp64_eq in Hx, Hy.
  pose proof (digits2_bounds mx) as [_ Hux].
  pose proof (digits2_bounds my) as [Hly _].
  assert (Hdy : Zpos (digits2_pos my) = 53) by lia.
  assert (Hdx : Zpos (digits2_pos mx) <= 53) by lia.
  rewrite Hdy in Hly.
  assert (H53 : 2 ^ Zpos (digits2_pos mx) <= 2 ^ 53)
    by (apply Z.pow_le_mono_r; lia).
  assert (H1 : 2 ^ 1 <= 2 ^ (ey - ex)) by (apply Z.pow_le_mono_r; lia).
  change (2 ^ 1) with 2 in H1. change (2 ^ (53 - 1)) with 4503599627370496 in Hly.
  change (2 ^ 53) with 9007199254740992 in H53.
  nia.
Qed.

Lemma binary_round_spec s m e :
  -1074 <= e ->
  exists m3 e3,
    binary_round prec emax s m e =
      (if e3 <=? emax - prec then S754_finite s m3 e3 else S754_infinity s) /\
    (e <= fexp64 (Zpos (digits2_pos m) + e) ->
     fexp64 (Zpos (digits2_pos m) + e) <= e3 /\
     (e3 = fexp64 (Zpos (digits2_pos m) + e) ->
      Zpos m / 2 ^ (e3 - e) <= Zpos m3)).
Proof.
  intros He. unfold binary_round.
  set (t := fexp64 (Zpos (digits2_pos m) + e)).
  destruct (Z_le_gt_dec e t) as [Hle | Hgt].
  - assert (Hs : shl_align m e t = (m, e)).
    { unfold shl_align. destruct (t - e) eqn:E; try reflexivity; lia. }
    rewrite Hs.
    destruct (binary_round_aux_spec s (Zpos m) e loc_Exact)
      as (m3 & e3 & Hr & Hge & Hm); [lia | lia |].
    exists m3, e3. split; [exact Hr |]. intros _.
    simpl Zdigits2 in Hge, Hm. fold t in Hge, Hm.
    replace (Z.max e t) with t in Hge, Hm by lia.
    split; [exact Hge |]. intros Heq. rewrite Heq. now apply Hm.
  - pose proof (shl_align_spec m e t) as [Hf Hsnd]; [lia |].
    destruct (shl_align m e t) as [mz ez]. simpl in Hf, Hsnd. subst ez.
    destruct (binary_round_aux_spec s (Zpos mz) t loc_Exact)
      as (m3 & e3 & Hr & _); [lia | unfold t; rewrite fexp64_eq; lia |].
    exists m3, e3. split; [exact Hr |]. intros Hle. lia.
Qed.

(** A rounded integer is above zero exactly when the integer is. *)
Lemma binary_normalize_pos m e :
  -1074 <= e ->
  SFltb (S754_zero false) (binary_normalize prec emax m e false) = (0 <? m).
Proof.
  intros He. destruct m as [| p | p]; simpl binary_normalize.
  - reflexivity.
  - destruct (binary_round_spec false p e He) as (m3 & e3 & Hr & _).
    rewrite Hr. destruct (e3 <=? emax - prec); reflexivity.
  - destruct (binary_round_spec true p e He) as (m3 & e3 & Hr & _).
    rewrite Hr. destruct (e3 <=? emax - prec); reflexivity.
Qed.

(** The sign of a difference is the order of its operands. *)
Lemma SFsub_pos x y :
  valid_binary x = true -> valid_binary y = true ->
  x <> S754_nan -> y <> S754_nan ->
  SFltb (S754_zero false) (SF64sub y x) = SFltb x y.
Proof.
  intros Vx Vy Nx Ny.
  destruct x as [sx | sx | | sx mx ex]; try congruence;
    destruct y as [sy | sy | | sy my ey]; try congruence;
    try (destruct sx, sy; reflexivity).
  simpl in Vx, Vy.
  pose proof (bounded_canonical _ _ Vx) as [Cx _].
  pose proof (bounded_canonical _ _ Vy) as [Cy _].
  rewrite fexp64_eq in Cx, Cy.
  unfold SF64sub, SFsub.
  set (ez := Z.min ey ex).
  rewrite binary_normalize_pos by (unfold ez; lia).
  pose proof (shl_align_spec my ey ez) as [Hy _]; [unfold ez; lia |].
  pose proof (shl_align_spec mx ex ez) as [Hx _]; [unfold ez; lia |].
  rewrite Hx, Hy.
  assert (Px : 0 < Zpos mx * 2 ^ (ex - ez))
    by (apply Z.mul_pos_pos; [lia | apply Z.pow_pos_nonneg; unfold ez; lia]).
  assert (Py : 0 < Zpos my * 2 ^ (ey - ez))
    by (apply Z.mul_pos_pos; [lia | apply Z.pow_pos_nonneg; unfold ez; lia]).
  unfold SFltb, SFcompare.
  destruct (Z.compare_spec ex ey) as [Heq | Hlt | Hgt].
  - subst ey. replace (ex - ez) with 0 in * by (unfold ez; lia).
    rewrite Z.pow_0_r, !Z.mul_1_r in *.
    change (Pos.compare_cont Eq mx my) with (Pos.compare mx my).
    rewrite Pos2Z.inj_compare.
    destruct sx, sy; cbv [cond_Zopp];
      destruct (Z.compare_spec (Zpos mx) (Zpos my)); simpl CompOpp;
      try (apply Z.ltb_lt; lia); apply Z.ltb_ge; lia.
  - pose proof (canonical_exponent_lt _ _ _ _ Vx Vy Hlt) as Hd.
    replace (ex - ez) with 0 in * by (unfold ez; lia).
    replace (ey - ez) with (ey - ex) in * by (unfold ez; lia).
    rewrite Z.pow_0_r, !Z.mul_1_r in *.
    destruct sx, sy; cbv [cond_Zopp];
      try (apply Z.ltb_lt; lia); apply Z.ltb_ge; lia.
  - pose proof (canonical_exponent_lt _ _ _ _ Vy Vx Hgt) as Hd.
    replace (ey - ez) with 0 in * by (unfold ez; lia).
    replace (ex - ez) with (ex - ey) in * by (unfold ez; lia).
    rewrite Z.pow_0_r, !Z.mul_1_r in *.
    destruct sx, sy; cbv [cond_Zopp];
      try (apply Z.ltb_lt; lia); apply Z.ltb_ge; lia.
Qed.

(** Adding a positive number to a non-negative one does not decrease it,
    through the rounding. *)
Lemma SFadd_mono x q :
  valid_binary x = true -> valid_binary q = true ->
  SFleb (S754_zero false) x = true ->
  SFltb (S754_zero false) q = true ->
  SFleb x (SF64add x q) = true /\
  SFltb (S754_zero false) (SF64add x q) = true.
Proof.
  intros Vx Vq Px Pq.
  destruct x as [sx | [|] | | [|] mx ex]; try discriminate;
    destruct q as [sq | [|] | | [|] mq eq_]; try discriminate;
    try (split; reflexivity);
    try (destruct sx; split; reflexivity).
  (* finite + finite *)
  simpl in Vx, Vq.
  pose proof (bounded_canonical _ _ Vx) as [Cx _].
  pose proof (bounded_canonical _ _ Vq) as [Cq _].
  unfold SF64add, SFadd. cbv [cond_Zopp].
    set (ez := Z.min ex eq_).
    assert (Hez : -1074 <= ez) by (rewrite fexp64_eq in Cx, Cq; unfold ez; lia).
    pose proof (shl_align_spec mx ex ez) as [Hx _]; [unfold ez; lia |].
    set (mx' := fst (shl_align mx ex ez)) in *.
    set (mq' := fst (shl_align mq eq_ ez)) in *.
    change (Zpos mx' + Zpos mq') with (Zpos (mx' + mq')).
    simpl binary_normalize.
    set (p := (mx' + mq')%positive).
    assert (Hp : Zpos mx * 2 ^ (ex - ez) <= Zpos p) by (unfold p; lia).
    destruct (binary_round_spec false p ez Hez) as (m3 & e3 & Hr & Hs).
    assert (Hpow : 0 < 2 ^ (ex - ez)) by (apply Z.pow_pos_nonneg; unfold ez; lia).
    (* the sum has at least as many bits above [ez] as [x] *)
    assert (Hd : Zpos (digits2_pos mx) + ex <= Zpos (digits2_pos p) + ez).
    { pose proof (digits2_bounds mx) as [Hlx _].
      pose proof (digits2_bounds p) as [_ Hup].
      assert (Hlt : 2 ^ (Zpos (digits2_pos mx) - 1 + (ex - ez))
                    < 2 ^ Zpos (digits2_pos p)).
      { rewrite Z.pow_add_r by (unfold ez; lia).
        eapply Z.le_lt_trans; [| exact Hup].
        eapply Z.le_trans; [| exact Hp].
        apply Z.mul_le_mono_nonneg_r; lia. }
      apply Z.pow_lt_mono_r_iff in Hlt; lia. }
    assert (Hf : ex <= fexp64 (Zpos (digits2_pos p) + ez))
      by (rewrite fexp64_eq in *; lia).
    specialize (Hs ltac:(unfold ez in *; lia)).
    destruct Hs as [Hge Hm].
    rewrite Hr. destruct (e3 <=? emax - prec); [| split; reflexivity].
    split; [| reflexivity].
    unfold SFleb, SFcompare.
    destruct (Z.compare_spec ex e3) as [Heq | Hlt | Hgt]; try reflexivity; [| lia].
    change (Pos.compare_cont Eq mx m3) with (Pos.compare mx m3).
    rewrite Pos2Z.inj_compare.
    assert (Hle : Zpos mx <= Zpos m3).
    { eapply Z.le_trans; [| apply Hm; lia].
      rewrite <- (Z.div_mul (Zpos mx) (2 ^ (ex - ez))) at 1 by lia.
      subst e3. apply Z.div_le_mono; lia. }
    destruct (Z.compare_spec (Zpos mx) (Zpos m3)); try reflexivity; lia.
Qed.

(** ** The comparison *)

Lemma SFcompare_antisym x y :
  SFcompare y x = option_map CompOpp (SFcompare x y).
Proof.
  destruct x as [sx | sx | | sx mx ex], y as [sy | sy | | sy my ey];
    try reflexivity; try (destruct sx; reflexivity);
    try (destruct sy; reflexivity); try (destruct sx, sy; reflexivity).
  unfold SFcompare, option_map. f_equal.
  rewrite (Z.compare_antisym ex ey).
  change (Pos.compare_cont Eq my mx) with (Pos.compare my mx).
  change (Pos.compare_cont Eq mx my) with (Pos.compare mx my).
  rewrite (Pos.compare_antisym mx my).
  destruct sx, sy; try reflexivity;
    destruct (ex ?= ey); try reflexivity; simpl;
    destruct (mx ?= my)%positive; reflexivity.
Qed.

Lemma SFcompare_refl x : x <> S754_nan -> SFcompare x x = Some Eq.
Proof.
  destruct x as [s | s | | s m e]; try congruence; intros _;
    try (destruct s; reflexivity).
  unfold SFcompare. rewrite Z.compare_refl.
  change (Pos.compare_cont Eq m m) with (Pos.compare m m).
  rewrite Pos.compare_refl. destruct s; reflexivity.
Qed.

Lemma SFleb_trans x y z :
  SFleb x y = true -> SFleb y z = true -> SFleb x z = true.
Proof.
  unfold SFleb.
  destruct x as [sx | sx | | sx mx ex], y as [sy | sy | | sy my ey],
    z as [sz | sz | | sz mz ez];
    try discriminate; try reflexivity;
    try (destruct sx, sy, sz; simpl; congruence);
    try (destruct sx, sy; simpl; congruence);
    try (destruct sx, sz; simpl; congruence);
    try (destruct sy, sz; simpl; congruence).
  unfold SFcompare.
  change (Pos.compare_cont Eq mx my) with (Pos.compare mx my).
  change (Pos.compare_cont Eq my mz) with (Pos.compare my mz).
  change (Pos.compare_cont Eq mx mz) with (Pos.compare mx mz).
  rewrite !Pos2Z.inj_compare.
  destruct sx, sy, sz; try discriminate; try reflexivity;
    destruct (Z.compare_spec ex ey); try discriminate;
    destruct (Z.compare_spec ey ez); try discriminate;
    destruct (Z.compare_spec ex ez); try reflexivity; try lia;
    subst;
    destruct (Z.compare_spec (Zpos mx) (Zpos my)); try discriminate;
    destruct (Z.compare_spec (Zpos my) (Zpos mz)); try discriminate;
    destruct (Z.compare_spec (Zpos mx) (Zpos mz)); try reflexivity; simpl; try lia;
    intros; try discriminate.
Qed.

(** The opposite of a rounded integer is above zero exactly when the
    integer is below. *)
Lemma binary_normalize_neg m e :
  -1074 <= e ->
  SFltb (S754_zero false) (SFopp (binary_normalize prec emax m e false))
    = (m <? 0).
Proof.
  intros He. destruct m as [| p | p]; simpl binary_normalize.
  - reflexivity.
  - destruct (binary_round_spec false p e He) as (m3 & e3 & Hr & _).
    rewrite Hr. destruct (e3 <=? emax - prec); reflexivity.
  - destruct (binary_round_spec true p e He) as (m3 & e3 & Hr & _).
    rewrite Hr. destruct (e3 <=? emax - prec); reflexivity.
Qed.

(** The sign of the opposite of a difference. *)
Lemma SFsub_neg x y :
  valid_binary x = true -> valid_binary y = true ->
  x <> S754_nan -> y <> S754_nan ->
  SFltb (S754_zero false) (SFopp (SF64sub x y)) = SFltb x y.
Proof.
  intros Vx Vy Nx Ny.
  destruct x as [sx | sx | | sx mx ex]; try congruence;
    destruct y as [sy | sy | | sy my ey]; try congruence;
    try (destruct sx, sy; reflexivity).
  simpl in Vx, Vy.
  pose proof (bounded_canonical _ _ Vx) as [Cx _].
  pose proof (bounded_canonical _ _ Vy) as [Cy _].
  rewrite fexp64_eq in Cx, Cy.
  unfold SF64sub, SFsub.
  set (ez := Z.min ex ey).
  rewrite binary_normalize_neg by (unfold ez; lia).
  pose proof (shl_align_spec my ey ez) as [Hy _]; [unfold ez; lia |].
  pose proof (shl_align_spec mx ex ez) as [Hx _]; [unfold ez; lia |].
  rewrite Hx, Hy.
  assert (Px : 0 < Zpos mx * 2 ^ (ex - ez))
    by (apply Z.mul_pos_pos; [lia | apply Z.pow_pos_nonneg; unfold ez; lia]).
  assert (Py : 0 < Zpos my * 2 ^ (ey - ez))
    by (apply Z.mul_pos_pos; [lia | apply Z.pow_pos_nonneg; unfold ez; lia]).
  unfold SFltb, SFcompare.
  destruct (Z.compare_spec ex ey) as [Heq | Hlt | Hgt].
  - subst ey. replace (ex - ez) with 0 in * by (unfold ez; lia).
    rewrite Z.pow_0_r, !Z.mul_1_r in *.
    change (Pos.compare_cont Eq mx my) with (Pos.compare mx my).
    rewrite Pos2Z.inj_compare.
    destruct sx, sy; cbv [cond_Zopp];
      destruct (Z.compare_spec (Zpos mx) (Zpos my)); simpl CompOpp;
      try (apply Z.ltb_lt; lia); apply Z.ltb_ge; lia.
  - pose proof (canonical_exponent_lt _ _ _ _ Vx Vy Hlt) as Hd.
    replace (ex - ez) with 0 in * by (unfold ez; lia).
    replace (ey - ez) with (ey - ex) in * by (unfold ez; lia).
    rewrite Z.pow_0_r, !Z.mul_1_r in *.
    destruct sx, sy; cbv [cond_Zopp];
      try (apply Z.ltb_lt; lia); apply Z.ltb_ge; lia.
  - pose proof (canonical_exponent_lt _ _ _ _ Vy Vx Hgt) as Hd.
    replace (ey - ez) with 0 in * by (unfold ez; lia).
    replace (ex - ez) with (ex - ey) in * by (unfold ez; lia).
    rewrite Z.pow_0_r, !Z.mul_1_r in *.
    destruct sx, sy; cbv [cond_Zopp];
      try (apply Z.ltb_lt; lia); apply Z.ltb_ge; lia.
Qed.

(** ** The same facts on primitive floats *)

Local Open Scope float_scope.

Lemma Prim2SF_zero : Prim2SF 0 = S754_zero false.
Proof. reflexivity. Qed.

Lemma is_nan_false x : is_nan x = false -> Prim2SF x <> S754_nan.
Proof.
  unfold is_nan. rewrite eqb_spec. intros H E. rewrite E in H. discriminate.
Qed.

Lemma is_nan_true x : is_nan x = true -> Prim2SF x = S754_nan.
Proof.
  unfold is_nan. rewrite eqb_spec. unfold SFeqb. intros H.
  destruct (Prim2SF x) eqn:E; try reflexivity;
    rewrite SFcompare_refl in H by congruence; discriminate.
Qed.

Lemma ltb_not_nan x y : (x <? y) = true -> is_nan x = false /\ is_nan y = false.
Proof.
  rewrite ltb_spec. unfold SFltb. intros H.
  split; apply not_true_is_false; intros N; apply is_nan_true in N;
    rewrite N in H; [| destruct (Prim2SF x)]; discriminate.
Qed.

Lemma leb_not_nan x y : (x <=? y) = true -> is_nan x = false /\ is_nan y = false.
Proof.
  rewrite leb_spec. unfold SFleb. intros H.
  split; apply not_true_is_false; intros N; apply is_nan_true in N;
    rewrite N in H; [| destruct (Prim2SF x)]; discriminate.
Qed.


Lemma ltb_leb x y : (x <? y) = true -> (x <=? y) = true.
Proof.
  rewrite ltb_spec, leb_spec. unfold SFltb, SFleb.
  destruct (SFcompare (Prim2SF x) (Prim2SF y)) as [[| |] |]; congruence.
Qed.

Lemma leb_refl x : is_nan x = false -> (x <=? x) = true.
Proof.
  intros H. rewrite leb_spec. unfold SFleb.
  now rewrite SFcompare_refl by now apply is_nan_false.
Qed.

Lemma SFcompare_some x y :
  x <> S754_nan -> y <> S754_nan -> exists c, SFcompare x y = Some c.
Proof.
  destruct x, y; try congruence; intros _ _; eexists; reflexivity.
Qed.

(** The order is total away from [NaN]. *)
Lemma ltb_false_leb x y :
  is_nan x = false -> is_nan y = false -> (x <? y) = false -> (y <=? x) = true.
Proof.
  intros Nx Ny. rewrite ltb_spec, leb_spec. unfold SFltb, SFleb.
  rewrite (SFcompare_antisym (Prim2SF x) (Prim2SF y)).
  destruct (SFcompare_some (Prim2SF x) (Prim2SF y)) as [c Hc];
    [now apply is_nan_false | now apply is_nan_false |].
  rewrite Hc. destruct c; simpl; congruence.
Qed.

Lemma ltb_asym x y : (x <? y) = true -> (y <? x) = false.
Proof.
  rewrite !ltb_spec. unfold SFltb.
  rewrite (SFcompare_antisym (Prim2SF x) (Prim2SF y)).
  destruct (SFcompare (Prim2SF x) (Prim2SF y)) as [[| |] |]; simpl; congruence.
Qed.

(** [b - a > 0] is [a < b]: the comparators of the ladders order prices. *)
Lemma sub_pos_iff x y :
  is_nan x = false -> is_nan y = false -> (0 <? y - x) = (x <? y).
Proof.
  intros Nx Ny. rewrite !ltb_spec, sub_spec, Prim2SF_zero.
  apply SFsub_pos; auto using Prim2SF_valid, is_nan_false.
Qed.

(** A running total of positive quantities never decreases. *)
Lemma add_pos_mono x q :
  (0 <=? x) = true -> (0 <? q) = true ->
  (x <=? x + q) = true /\ (0 <? x + q) = true.
Proof.
  rewrite !leb_spec, !ltb_spec, add_spec, Prim2SF_zero.
  apply SFadd_mono; apply Prim2SF_valid.
Qed.

(** Numbers equal to a third one are not ordered strictly. *)
Lemma SFeqb_cases x v :
  SFeqb x v = true ->
  x = v \/ (exists s s', x = S754_zero s /\ v = S754_zero s').
Proof.
  unfold SFeqb.
  destruct x as [sx | sx | | sx mx ex], v as [sv | sv | | sv mv ev];
    simpl; try discriminate; try (destruct sx; discriminate);
    try (destruct sv; discriminate).
  - intros _. right. eauto.
  - destruct sx, sv; try discriminate; auto.
  - destruct sx, sv; try discriminate;
      destruct (Z.compare_spec ex ev); try discriminate; subst;
      change (Pos.compare_cont Eq mx mv) with (Pos.compare mx mv);
      destruct (Pos.compare_spec mx mv); try discriminate; subst; auto.
Qed.

Lemma eqb_eqb_ltb x y v :
  (x =? v) = true -> (y =? v) = true -> (x <? y) = false.
Proof.
  rewrite !eqb_spec, ltb_spec. intros Hx Hy. unfold SFltb.
  assert (Nv : Prim2SF v <> S754_nan).
  { intros E. rewrite E in Hx. unfold SFeqb in Hx.
    destruct (Prim2SF x); discriminate. }
  destruct (SFeqb_cases _ _ Hx) as [Ex | (s & s' & Ex & Ev)];
    destruct (SFeqb_cases _ _ Hy) as [Ey | (t & t' & Ey & Ev')];
    rewrite ?Ex, ?Ey; try rewrite Ev; try rewrite Ev';
    try (rewrite SFcompare_refl by congruence); reflexivity.
Qed.

Lemma leb_trans x y z :
  (x <=? y) = true -> (y <=? z) = true -> (x <=? z) = true.
Proof. rewrite !leb_spec. apply SFleb_trans. Qed.

Lemma leb_ltb_false x y : (x <=? y) = true -> (y <? x) = false.
Proof.
  rewrite leb_spec, ltb_spec. unfold SFleb, SFltb.
  rewrite (SFcompare_antisym (Prim2SF x) (Prim2SF y)).
  destruct (SFcompare (Prim2SF x) (Prim2SF y)) as [[| |] |]; simpl; congruence.
Qed.

(** Away from [NaN], "not below" is transitive. *)
Lemma ltb_false_trans x y z :
  is_nan x = false -> is_nan y = false -> is_nan z = false ->
  (x <? y) = false -> (y <? z) = false -> (x <? z) = false.
Proof.
  intros Nx Ny Nz Hxy Hyz. apply leb_ltb_false.
  apply leb_trans with y; now apply ltb_false_leb.
Qed.

Lemma ltb_irrefl x : (x <? x) = false.
Proof.
  destruct (x <? x) eqn:E; [| reflexivity].
  rewrite (ltb_asym _ _ E) in E. discriminate.
Qed.

Lemma ltb_neq x y : (x <? y) = true -> (y =? x) = false.
Proof.
  rewrite ltb_spec, eqb_spec. unfold SFltb, SFeqb.
  rewrite (SFcompare_antisym (Prim2SF x) (Prim2SF y)).
  destruct (SFcompare (Prim2SF x) (Prim2SF y)) as [[| |] |]; simpl; congruence.
Qed.

(** Nothing that is not negative lies below a zero. *)
Lemma leb_zero_ltb x y :
  (0 <=? x) = true -> (y =? 0) = true -> (x <? y) = false.
Proof.
  rewrite leb_spec, eqb_spec, ltb_spec, Prim2SF_zero. intros Hx Hy.
  destruct (SFeqb_cases _ _ Hy) as [-> | (s & s' & -> & _)];
    destruct (Prim2SF x) as [sx | [|] | | [|] m e]; try discriminate;
    reflexivity.
Qed.

(** [-(a - b) > 0] is [a < b]: a comparator in descending direction. *)
Lemma opp_sub_pos_iff x y :
  is_nan x = false -> is_nan y = false -> (0 <? - (x - y)) = (x <? y).
Proof.
  intros Nx Ny. rewrite !ltb_spec, opp_spec, sub_spec, Prim2SF_zero.
  apply SFsub_neg; auto using Prim2SF_valid, is_nan_false.
Qed.

Lemma eqb_refl x : is_nan x = false -> (x =? x) = true.
Proof.
  intros H. rewrite eqb_spec. unfold SFeqb.
  now rewrite SFcompare_refl by now apply is_nan_false.
Qed.


End FloatFacts.

(* ================================================================= *)
(** * Readings of [parseFloat]                                         *)
(* ================================================================= *)

Module JsFacts.
Import Js.
Local Open Scope float_scope.

(** Leading white space and what follows the number are dropped. *)
Example parseFloat_prefix :
  parseFloat (VStr "  -12.5e1xyz") = -125 /\
  parseFloat (VStr "98.5") = 98.5 /\
  parseFloat (VStr ".5") = 0.5 /\
  parseFloat (VStr "5.") = 5 /\
  parseFloat (VStr "1e") = 1 /\
  parseFloat (VStr "0x10") = 0.
Proof. repeat split; reflexivity. Qed.

(** White space beyond ASCII is skipped as well: a no-break space, a byte
    order mark and a line separator before the number. *)
Example parseFloat_space :
  parseFloat (VStr (String "194" (String "160" "7.5"))) = 7.5 /\
  parseFloat (VStr (String "239" (String "187" (String "191" " 12")))) = 12 /\
  parseFloat (VStr (String "226" (String "128" (String "168" "3")))) = 3 /\
  is_nan (parseFloat (VStr (String "226" (String "128" (String "139" "3")))))
    = true.
Proof. repeat split; reflexivity. Qed.

(** A decimal is rounded once, as the quotient of two integers is. *)
Example parseFloat_rounds :
  parseFloat (VStr "0.1") = 1 / 10 /\
  parseFloat (VStr "0.3") = 3 / 10 /\
  parseFloat (VStr "1e21") = 1e21 /\
  parseFloat (VStr "9007199254740993") = 9007199254740992 /\
  parseFloat (VStr "2e-324") = 0 /\
  parseFloat (VStr "1e400") = infinity.
Proof. repeat split; reflexivity. Qed.

(** What is no number reads as [NaN]. *)
Example parseFloat_nan :
  is_nan (parseFloat (VStr "abc")) = true /\
  is_nan (parseFloat (VStr "")) = true /\
  is_nan (parseFloat (VStr "-")) = true /\
  is_nan (parseFloat (VStr ".")) = true /\
  is_nan (parseFloat (VStr "infinity")) = true /\
  is_nan (parseFloat VUndefined) = true /\
  is_nan (parseFloat VNull) = true /\
  is_nan (parseFloat (VBool true)) = true.
Proof. repeat split; reflexivity. Qed.

(** Signs, infinities and zeros. *)
Example parseFloat_signs :
  parseFloat (VStr "-Infinity") = neg_infinity /\
  parseFloat (VStr "+Infinity") = infinity /\
  parseFloat (VStr "-0") = neg_zero /\
  parseFloat (VNum neg_zero) = 0 /\
  parseFloat (VNum infinity) = infinity.
Proof. repeat split; reflexivity. Qed.

(** A number that is not [NaN] reads as a number equal to itself. *)
Lemma parseFloat_number f :
  is_nan f = false -> (parseFloat (VNum f) =? f) = true.
Proof.
  intros H. simpl. rewrite H. destruct (f =? 0) eqn:E.
  - rewrite eqb_spec in *. unfold SFeqb in *.
    rewrite FloatFacts.SFcompare_antisym.
    change (Prim2SF 0) with (S754_zero false) in *.
    destruct (SFcompare (Prim2SF f) (S754_zero false)) as [[| |] |];
      try discriminate. reflexivity.
  - rewrite eqb_spec. unfold SFeqb.
    now rewrite FloatFacts.SFcompare_refl by now apply FloatFacts.is_nan_false.
Qed.

End JsFacts.


(* ================================================================= *)
(** * Facts about the array operations                                 *)
(* ================================================================= *)

Section SortFacts.
Context {A : Type}.
Variable comparator : A -> A -> float.

Lemma insert_In x l z : In z (insert comparator x l) <-> z = x \/ In z l.
Proof.
  induction l as [| y r IH]; simpl.
  - intuition.
  - destruct (after comparator x y); simpl; rewrite ?IH; intuition.
Qed.

Lemma sort_In l z : In z (sort comparator l) <-> In z l.
Proof.
  induction l as [| x r IH]; simpl; [reflexivity |].
  rewrite insert_In, IH. intuition.
Qed.

Lemma insert_length x l :
  List.length (insert comparator x l) = S (List.length l).
Proof.
  induction l as [| y r IH]; simpl; [reflexivity |].
  destruct (after comparator x y); simpl; now rewrite ?IH.
Qed.

Lemma sort_length l : List.length (sort comparator l) = List.length l.
Proof.
  induction l as [| x r IH]; simpl; [reflexivity |].
  now rewrite insert_length, IH.
Qed.

Lemma sort_Forall (Q : A -> Prop) l : Forall Q l -> Forall Q (sort comparator l).
Proof.
  rewrite !Forall_forall. intros H z Hz. apply H. now apply sort_In.
Qed.

(** *** Order: where the comparator decides an order [R] on the elements
    that satisfy [Q], sorting a list of such elements orders it. *)
Section Ordered.
Variable Q : A -> Prop.
Variable R : A -> A -> Prop.
Hypothesis after_true : forall x y, Q x -> Q y -> after comparator x y = true -> R y x.
Hypothesis after_false : forall x y, Q x -> Q y -> after comparator x y = false -> R x y.



End Ordered.

(** *** Stability: elements that the comparator never reorders among
    themselves come out in the order they went in. *)
Section Stable.
Variable Q : A -> Prop.
Variable P : A -> bool.
Hypothesis keeps :
  forall x y, Q x -> Q y -> P x = true -> P y = true ->
              after comparator x y = false.

Lemma insert_filter x l :
  Q x -> Forall Q l ->
  filter P (insert comparator x l) =
  if P x then x :: filter P l else filter P l.
Proof.
  intros Qx Ql. induction Ql as [| y r Qy Qr IH]; simpl.
  - reflexivity.
  - destruct (after comparator x y) eqn:E; simpl.
    + rewrite IH. destruct (P x) eqn:Px, (P y) eqn:Py; try reflexivity.
      rewrite keeps in E by assumption. discriminate.
    + reflexivity.
Qed.

Lemma sort_filter l :
  Forall Q l -> filter P (sort comparator l) = filter P l.
Proof.
  induction 1 as [| x r Qx Qr IH]; simpl; [reflexivity |].
  rewrite insert_filter, IH; auto using sort_Forall.
Qed.
End Stable.

(** *** The result the language fixes: where the comparator is consistent
    on the elements that satisfy [Q], [sort] arranges a list of such
    elements as the language asks, and no other list does. *)
Section Arranged.
Variable Q : A -> Prop.
Hypothesis after_asym :
  forall x y, Q x -> Q y ->
    after comparator x y = true -> after comparator y x = false.
Hypothesis after_trans :
  forall x y z, Q x -> Q y -> Q z ->
    after comparator x y = false -> after comparator y z = false ->
    after comparator x z = false.

Lemma after_irrefl x : Q x -> after comparator x x = false.
Proof.
  intros Qx. destruct (after comparator x x) eqn:E; [| reflexivity].
  rewrite (after_asym x x Qx Qx E) in E. discriminate.
Qed.

Lemma insert_Permutation x l : Permutation (x :: l) (insert comparator x l).
Proof.
  induction l as [| y r IH]; simpl; [reflexivity |].
  destruct (after comparator x y); [| reflexivity].
  rewrite perm_swap. now constructor.
Qed.

Lemma sort_Permutation l : Permutation l (sort comparator l).
Proof.
  induction l as [| x r IH]; simpl; [reflexivity |].
  rewrite <- insert_Permutation. now constructor.
Qed.

Lemma insert_StronglySorted x l :
  Q x -> Forall Q l ->
  StronglySorted (fun a b => after comparator a b = false) l ->
  StronglySorted (fun a b => after comparator a b = false)
                 (insert comparator x l).
Proof.
  intros Qx Ql Hs. induction Hs as [| y r Hr IH Hy]; simpl.
  - repeat constructor.
  - inversion Ql as [| ? ? Qy Qr]; subst.
    destruct (after comparator x y) eqn:E.
    + constructor; [now apply IH |].
      apply Forall_forall. intros z Hz. apply insert_In in Hz as [-> | Hz].
      * now apply after_asym.
      * rewrite Forall_forall in Hy. now apply Hy.
    + constructor; [now constructor |].
      constructor; [exact E |].
      apply Forall_forall. intros z Hz.
      rewrite Forall_forall in Hy, Qr.
      apply after_trans with y; auto.
Qed.

Lemma sort_StronglySorted l :
  Forall Q l ->
  StronglySorted (fun a b => after comparator a b = false)
                 (sort comparator l).
Proof.
  induction 1 as [| x r Qx Qr IH]; simpl; [constructor |].
  apply insert_StronglySorted; auto using sort_Forall.
Qed.

Lemma tied_keeps z x y :
  Q z -> Q x -> Q y ->
  tied comparator z x = true -> tied comparator z y = true ->
  after comparator x y = false.
Proof.
  unfold tied. intros Qz Qx Qy Hx Hy.
  apply andb_true_iff in Hx as [_ Hx]. apply andb_true_iff in Hy as [Hy _].
  apply negb_true_iff in Hx, Hy. now apply after_trans with z.
Qed.

Lemma sort_arranged l : Forall Q l -> arranged comparator l (sort comparator l).
Proof.
  intros Hl. split; [apply sort_Permutation |].
  split; [now apply sort_StronglySorted |].
  intros z Hz.
  assert (Qz : Q z) by (rewrite Forall_forall in Hl; now apply Hl).
  apply sort_filter with (Q := Q); [| exact Hl].
  intros x y Qx Qy. now apply tied_keeps.
Qed.

(** Two lists that are ordered, hold the same elements and agree on every
    class of tied elements are the same list. *)
Lemma arranged_same l1 : forall l2,
  Forall Q l1 ->
  Permutation l1 l2 ->
  StronglySorted (fun a b => after comparator a b = false) l1 ->
  StronglySorted (fun a b => after comparator a b = false) l2 ->
  (forall z, In z l1 ->
     filter (tied comparator z) l1 = filter (tied comparator z) l2) ->
  l1 = l2.
Proof.
  induction l1 as [| a t1 IH]; intros l2 Hq Hp S1 S2 Hf.
  - now apply Permutation_nil in Hp.
  - destruct l2 as [| b t2];
      [apply Permutation_sym, Permutation_nil in Hp; discriminate |].
    inversion Hq as [| ? ? Qa Qt]; subst.
    inversion S1 as [| ? ? S1' F1]; subst.
    inversion S2 as [| ? ? S2' F2]; subst.
    assert (Qb : Q b).
    { rewrite Forall_forall in Hq. apply Hq.
      apply (Permutation_in b (Permutation_sym Hp)). now left. }
    assert (Hab : after comparator a b = false).
    { assert (Hin : In b (a :: t1))
        by (apply (Permutation_in b (Permutation_sym Hp)); now left).
      destruct Hin as [<- | Hin]; [now apply after_irrefl |].
      rewrite Forall_forall in F1. now apply F1. }
    assert (Hba : after comparator b a = false).
    { assert (Hin : In a (b :: t2))
        by (apply (Permutation_in a Hp); now left).
      destruct Hin as [<- | Hin]; [now apply after_irrefl |].
      rewrite Forall_forall in F2. now apply F2. }
    assert (Heq : a = b).
    { assert (Taa : tied comparator a a = true)
        by (unfold tied; now rewrite (after_irrefl a Qa)).
      assert (Tab : tied comparator a b = true)
        by (unfold tied; now rewrite Hab, Hba).
      specialize (Hf a (or_introl eq_refl)). simpl in Hf.
      rewrite Taa, Tab in Hf. now inversion Hf. }
    subst b. f_equal. apply IH; auto.
    + now apply Permutation_cons_inv with a.
    + intros z Hz. specialize (Hf z (or_intror Hz)). simpl in Hf.
      destruct (tied comparator z a); [now inversion Hf | exact Hf].
Qed.

(** The arrangement is unique: whatever algorithm an engine runs, on a list
    of elements that the comparator orders consistently it returns
    [sort l]. *)
Theorem arranged_unique l l' :
  Forall Q l -> arranged comparator l l' -> l' = sort comparator l.
Proof.
  intros Hl (Hp & Hs & Hf).
  destruct (sort_arranged l Hl) as (Hp' & Hs' & Hf').
  symmetry. apply arranged_same; auto.
  - now apply sort_Forall.
  - rewrite <- Hp'. exact Hp.
  - intros z Hz. apply (proj1 (sort_In l z)) in Hz.
    now rewrite Hf', Hf.
Qed.
End Arranged.
End SortFacts.


Lemma Sorted_adjacent {A : Type} (R : A -> A -> Prop) (l : list A) (d : A) :
  Sorted R l ->
  forall i, (S i < List.length l)%nat -> R (nth i l d) (nth (S i) l d).
Proof.
  induction 1 as [| x r Hr IH Hd]; intros i Hi; simpl in Hi; [lia |].
  destruct i as [| i].
  - destruct r as [| y r']; simpl in *; [lia |]. now inversion Hd.
  - apply (IH i). lia.
Qed.

Lemma mapC_In {A B : Type} (f : A -> completion B) l ys y :
  mapC f l = Normal ys -> In y ys -> exists x, In x l /\ f x = Normal y.
Proof.
  revert ys. induction l as [| x r IH]; simpl; intros ys H Hy.
  - inversion H; subst. destruct Hy.
  - destruct (f x) as [b |] eqn:Fx; [| discriminate].
    destruct (mapC f r) as [bs |] eqn:Fr; [| discriminate].
    inversion H; subst. destruct Hy as [<- | Hy].
    + exists x. auto.
    + destruct (IH bs eq_refl Hy) as (x' & Hx' & Hf). exists x'. auto.
Qed.

Lemma slice0_firstn {A : Type} (l : list A) (n : Z) :
  exists k, slice0 l n = firstn k l.
Proof. unfold slice0. eexists. reflexivity. Qed.

Lemma slice0_In {A : Type} (l : list A) (n : Z) x : In x (slice0 l n) -> In x l.
Proof.
  destruct (slice0_firstn l n) as [k ->].
  rewrite <- (firstn_skipn k l) at 2. intros H. apply in_or_app. now left.
Qed.



Lemma last_map {A B : Type} (f : A -> B) (l : list A) (d : A) :
  last (map f l) (f d) = f (last l d).
Proof.
  induction l as [| x r IH]; [reflexivity |].
  destruct r as [| y r']; [reflexivity |].
  change (last (map f (x :: y :: r')) (f d)) with (last (map f (y :: r')) (f d)).
  change (last (x :: y :: r') d) with (last (y :: r') d). exact IH.
Qed.

Module OrderBookFacts.
Import OrderBook.
Local Open Scope float_scope.

Lemma at_app (r s : Row) i : (i < List.length r)%nat -> at_ (r ++ s) i = at_ r i.
Proof. intros H. unfold at_. now apply app_nth1. Qed.

Lemma at_app_end (r : Row) x : at_ (r ++ [x]) (List.length r) = x.
Proof. unfold at_. rewrite app_nth2, Nat.sub_diag by lia. reflexivity. Qed.

(** *** [normalize] and the filter *)

Lemma normalize_pair item r :
  normalize item = Normal r -> r = [price r; quantity r].
Proof. destruct item; simpl; intros H; inversion H; reflexivity. Qed.

Lemma survivors_In items rows r :
  survivors items rows -> In r rows ->
  r = [price r; quantity r] /\ (0 <? quantity r) = true /\
  exists item, In item items /\ normalize item = Normal r.
Proof.
  intros (processed & Hm & ->) Hr. apply filter_In in Hr as [Hin Hq].
  destruct (mapC_In _ _ _ _ Hm Hin) as (item & Hi & Hn).
  split; [now apply normalize_pair with item |]. split; [exact Hq |].
  exists item. auto.
Qed.

(** *** [_processDepthData] *)

Lemma processDepthData_array this items isBids l :
  _processDepthData this (SideArray items) isBids = Normal l ->
  exists rows,
    survivors items rows /\
    l = slice0 (sort (comparator isBids) rows) (maxRows this).
Proof.
  unfold _processDepthData. destruct (mapC normalize items) as [processed |] eqn:E;
    [| discriminate].
  intros H. inversion H; subst. eexists. split; [exists processed; eauto | reflexivity].
Qed.

Lemma processDepthData_maxRows this this' f isBids :
  maxRows this = maxRows this' ->
  _processDepthData this f isBids = _processDepthData this' f isBids.
Proof. intros H. unfold _processDepthData. now rewrite H. Qed.

Lemma processDepthData_rows this f isBids l :
  _processDepthData this f isBids = Normal l ->
  Forall (fun r => r = [price r; quantity r] /\ (0 <? quantity r) = true) l.
Proof.
  destruct f as [| | items]; simpl; try (intros H; inversion H; constructor).
  intros H. apply processDepthData_array in H as (rows & Hs & ->).
  apply Forall_forall. intros r Hr. apply slice0_In, sort_In in Hr.
  destruct (survivors_In _ _ _ Hs Hr) as (H1 & H2 & _). auto.
Qed.

(** *** [_calculateStats] *)

Lemma withTotals_length total l :
  List.length (withTotals total l) = List.length l.
Proof.
  revert total. induction l as [| r l IH]; intros total; simpl; [reflexivity |].
  now rewrite IH.
Qed.

(** What is already in a row stays where it is. *)
Lemma withTotals_at total l i :
  Forall (fun r => (i < List.length r)%nat) l ->
  map (fun r => at_ r i) (withTotals total l) = map (fun r => at_ r i) l.
Proof.
  revert total. induction l as [| r l IH]; intros total H; simpl; [reflexivity |].
  inversion H; subst. rewrite at_app by assumption. now rewrite IH.
Qed.

Lemma withTotals_firstn total l k :
  Forall (fun r => (k <= List.length r)%nat) l ->
  map (firstn k) (withTotals total l) = map (firstn k) l.
Proof.
  revert total. induction l as [| r l IH]; intros total H; simpl; [reflexivity |].
  inversion H; subst. rewrite IH by assumption. f_equal.
  rewrite firstn_app. replace (k - List.length r)%nat with 0%nat by lia.
  simpl. now rewrite app_nil_r.
Qed.

(** On rows of two numbers the total comes third. *)
Lemma withTotals_cumulative total l :
  Forall (fun r => List.length r = 2%nat) l ->
  map cumulative (withTotals total l) = runningTotals total (map quantity l).
Proof.
  revert total. induction l as [| r l IH]; intros total H; simpl; [reflexivity |].
  inversion H as [| ? ? Hr Hl]; subst. rewrite IH by assumption. f_equal.
  unfold cumulative. rewrite <- Hr. apply at_app_end.
Qed.

Lemma totalVolume_fold l :
  totalVolume l = fold_left PrimFloat.add (map quantity l) 0.
Proof.
  unfold totalVolume. generalize 0. induction l as [| r l IH]; intros z; simpl.
  - reflexivity.
  - apply IH.
Qed.

Lemma runningTotals_length total qs :
  List.length (runningTotals total qs) = List.length qs.
Proof.
  revert total. induction qs as [| q r IH]; intros total; simpl; [reflexivity |].
  now rewrite IH.
Qed.

(** The last running total is the sum. *)
Lemma runningTotals_last total qs d :
  qs <> [] ->
  last (runningTotals total qs) d = fold_left PrimFloat.add qs total.
Proof.
  revert total. induction qs as [| q r IH]; intros total H; [congruence |].
  destruct r as [| q' r'].
  - reflexivity.
  - change (runningTotals total (q :: q' :: r'))
      with ((total + q) :: runningTotals (total + q) (q' :: r')).
    change (fold_left PrimFloat.add (q :: q' :: r') total)
      with (fold_left PrimFloat.add (q' :: r') (total + q)).
    rewrite <- IH by congruence. reflexivity.
Qed.

(** Running totals of positive quantities rise, and stay positive. *)
Lemma runningTotals_Sorted total qs :
  (0 <=? total) = true ->
  Forall (fun q => (0 <? q) = true) qs ->
  Sorted (fun a b => (a <=? b) = true) (runningTotals total qs) /\
  HdRel (fun a b => (a <=? b) = true) total (runningTotals total qs).
Proof.
  revert total. induction qs as [| q r IH]; intros total Ht Hq; simpl.
  - split; constructor.
  - inversion Hq as [| ? ? Hq1 Hq2]; subst.
    destruct (FloatFacts.add_pos_mono total q Ht Hq1) as [Hle Hpos].
    destruct (IH (total + q)) as [Hs Hd];
      [now apply FloatFacts.ltb_leb | assumption |].
    split; constructor; assumption.
Qed.

Lemma withTotals_Forall (P Q : Row -> Prop) total l :
  (forall r x, P r -> Q (r ++ [x])) ->
  Forall P l -> Forall Q (withTotals total l).
Proof.
  intros HPQ. revert total. induction l as [| r l IH]; intros total H; simpl.
  - constructor.
  - inversion H; subst. constructor; auto.
Qed.

(** A ladder out of [_processDepthData] is a stored ladder once the totals
    are attached. *)
Lemma withTotals_fresh l :
  Forall (fun r => r = [price r; quantity r] /\ (0 <? quantity r) = true) l ->
  ladderStored (withTotals 0 l).
Proof.
  intros H. split.
  - eapply withTotals_Forall; [| exact H].
    intros r x [Hr Hq]. split.
    + rewrite length_app, Hr. simpl. lia.
    + unfold quantity. rewrite at_app; [exact Hq | rewrite Hr; simpl; lia].
  - rewrite withTotals_cumulative.
    + f_equal. symmetry. apply (withTotals_at 0 l 1).
      eapply Forall_impl; [| exact H]. intros r [Hr _]. rewrite Hr. simpl. lia.
    + eapply Forall_impl; [| exact H]. intros r [Hr _]. now rewrite Hr.
Qed.

(** A stored ladder that runs through [_calculateStats] again stays one, and
    keeps its first three columns. *)
Lemma withTotals_stored l :
  ladderStored l ->
  ladderStored (withTotals 0 l) /\
  map (firstn 3) (withTotals 0 l) = map (firstn 3) l.
Proof.
  intros [Hrows Hcum].
  assert (H3 : Forall (fun r => (3 <= List.length r)%nat) l)
    by (eapply Forall_impl; [| exact Hrows]; intros r [Hr _]; exact Hr).
  assert (Hq : map quantity (withTotals 0 l) = map quantity l).
  { apply (withTotals_at 0 l 1). eapply Forall_impl; [| exact H3].
    simpl. intros; lia. }
  split; [split |].
  - eapply withTotals_Forall; [| exact Hrows].
    intros r x [Hr Hp]. split.
    + rewrite length_app. lia.
    + unfold quantity. rewrite at_app by lia. exact Hp.
  - rewrite Hq, <- Hcum. apply (withTotals_at 0 l 2).
    eapply Forall_impl; [| exact H3]. simpl. intros; lia.
  - now apply withTotals_firstn.
Qed.

(** *** [update] *)

(** [update] returns normally exactly when both sides do, and then leaves
    what [_calculateStats] makes of the two ladders. *)
Lemma update_normal data this this' :
  update (Some data) this = (this', Normal tt) <->
  exists lb la,
    sideAfter this (u_bids data) true = Normal lb /\
    sideAfter this (u_asks data) false = Normal la /\
    this' = calculateStats (beforeStats data this lb la).
Proof.
  destruct this as [mr b a id sv sp tb ta].
  destruct data as [uid ub ua].
  unfold update, sideAfter, beforeStats, idAfter, bind, get, modify, lift, ret,
    _calculateStats, ladder, _processDepthData, isPresent; simpl.
  destruct uid as [i |]; simpl; [destruct (newer i _); simpl |];
    destruct ub as [| | bs], ua as [| | az]; simpl;
    repeat match goal with
      | |- context [mapC normalize ?l] => destruct (mapC normalize l); simpl
      end;
    (split;
     [ intros H; inversion H; do 2 eexists; repeat split; reflexivity
     | intros (? & ? & H1 & H2 & H3); try discriminate;
       inversion H1; inversion H2; subst; reflexivity ]).
Qed.

Lemma withTotals_In total l row :
  In row (withTotals total l) -> exists r x, In r l /\ row = r ++ [x].
Proof.
  revert total. induction l as [| r l IH]; intros total H; simpl in H.
  - destruct H.
  - destruct H as [<- | H].
    + exists r. eexists. split; [now left | reflexivity].
    + destruct (IH _ H) as (r' & x & Hr & ->). exists r', x. split; [now right | reflexivity].
Qed.

(** The whole path of a side that the update holds as an array. *)
Lemma ladder_rebuilt isBids this data items this' :
  update (Some data) this = (this', Normal tt) ->
  field isBids data = SideArray items ->
  exists rows,
    survivors items rows /\
    ladder isBids this' =
      withTotals 0 (slice0 (sort (comparator isBids) rows) (maxRows this)).
Proof.
  intros Hu Hf. apply update_normal in Hu as (lb & la & Hb & Ha & ->).
  destruct isBids; simpl in Hf; simpl ladder.
  - unfold sideAfter in Hb. rewrite Hf in Hb. simpl in Hb.
    apply processDepthData_array in Hb as (rows & Hs & ->). eauto.
  - unfold sideAfter in Ha. rewrite Hf in Ha. simpl in Ha.
    apply processDepthData_array in Ha as (rows & Hs & ->). eauto.
Qed.

(** The path of a side that the update leaves out. *)
Lemma ladder_retained isBids this data this' :
  update (Some data) this = (this', Normal tt) ->
  field isBids data = SideAbsent ->
  ladder isBids this' = withTotals 0 (ladder isBids this).
Proof.
  intros Hu Hf. apply update_normal in Hu as (lb & la & Hb & Ha & ->).
  destruct isBids; simpl in Hf; simpl ladder.
  - unfold sideAfter in Hb. rewrite Hf in Hb. simpl in Hb. now inversion Hb.
  - unfold sideAfter in Ha. rewrite Hf in Ha. simpl in Ha. now inversion Ha.
Qed.

Lemma ladderKept_rows l :
  ladderKept l -> Forall (fun r => (2 <= List.length r)%nat) l.
Proof.
  intros [[H _] | H]; eapply Forall_impl; try exact H.
  - intros r [Hr _]. lia.
  - intros r [Hr _]. rewrite Hr. simpl. lia.
Qed.

Lemma sideAfter_stored this f isBids l :
  ladderKept (ladder isBids this) ->
  sideAfter this f isBids = Normal l ->
  ladderStored (withTotals 0 l).
Proof.
  intros Hs. unfold sideAfter. destruct (isPresent f).
  - intros H. apply withTotals_fresh. eapply processDepthData_rows. exact H.
  - intros H. inversion H; subst. destruct Hs as [Hs | Hs].
    + now apply withTotals_stored.
    + now apply withTotals_fresh.
Qed.

Lemma sideAfter_rows this f isBids l :
  ladderKept (ladder isBids this) ->
  sideAfter this f isBids = Normal l ->
  Forall (fun r => (2 <= List.length r)%nat) l.
Proof.
  intros Hs. unfold sideAfter. destruct (isPresent f); intros H.
  - apply processDepthData_rows in H. apply ladderKept_rows. now right.
  - inversion H; subst. now apply ladderKept_rows.
Qed.

Lemma new_stored n : stored (new n).
Proof. repeat split; try (left; split; simpl; auto). Qed.

Lemma leb_zero_larger a b :
  (0 <=? a) = true -> (a <? b) = true -> (0 <=? b) = true.
Proof.
  intros Ha E.
  rewrite leb_spec, FloatFacts.Prim2SF_zero in *.
  rewrite ltb_spec in E. unfold SFleb, SFltb in *.
  destruct (Prim2SF a) as [sa | [|] | | [|] ma ea]; try discriminate;
    destruct (Prim2SF b) as [sb | [|] | | [|] mb eb]; try discriminate;
    reflexivity.
Qed.

Lemma idAfter_nonneg data this :
  (0 <=? lastUpdateId this) = true -> (0 <=? idAfter data this) = true.
Proof.
  intros H. unfold idAfter, newer.
  destruct (u_lastUpdateId data) as [id |]; [| exact H].
  destruct (Js.truthy (Js.VNum id)); simpl; [| exact H].
  destruct (lastUpdateId this <? id) eqn:E; [| exact H].
  now apply leb_zero_larger with (lastUpdateId this).
Qed.

(** [update] keeps the invariant of the stored state, and leaves both
    ladders with their totals. *)
Lemma update_stored data this this' :
  stored this ->
  update (Some data) this = (this', Normal tt) ->
  stored this' /\ ladderStored (bids this') /\ ladderStored (asks this').
Proof.
  intros (Hb & Ha & Hid) Hu.
  apply update_normal in Hu as (lb & la & Hlb & Hla & ->).
  assert (Sb : ladderStored (withTotals 0 lb))
    by (eapply (sideAfter_stored this _ true); eauto).
  assert (Sa : ladderStored (withTotals 0 la))
    by (eapply (sideAfter_stored this _ false); eauto).
  repeat split; simpl; try (left; assumption); try apply Sb; try apply Sa.
  now apply idAfter_nonneg.
Qed.

(** Either way the side comes out of [update] as a stored ladder whose
    totals were computed from its quantities. *)
Lemma ladder_after isBids this data this' :
  stored this ->
  update (Some data) this = (this', Normal tt) ->
  exists l,
    ladder isBids this' = withTotals 0 l /\
    sideVolume isBids this' = totalVolume l /\
    ladderStored (withTotals 0 l) /\
    Forall (fun r => (2 <= List.length r)%nat) l.
Proof.
  intros (Hsb & Hsa & _) Hu.
  apply update_normal in Hu as (lb & la & Hb & Ha & ->).
  destruct isBids; simpl.
  - exists lb. split; [reflexivity |]. split; [reflexivity |]. split.
    + now apply (sideAfter_stored this (u_bids data) true).
    + now apply (sideAfter_rows this (u_bids data) true).
  - exists la. split; [reflexivity |]. split; [reflexivity |]. split.
    + now apply (sideAfter_stored this (u_asks data) false).
    + now apply (sideAfter_rows this (u_asks data) false).
Qed.

(** An [update] that throws leaves the invariant as well: the side it had
    built stays without totals. *)
Lemma update_throw_stored data this this' :
  stored this ->
  update (Some data) this = (this', Throw) ->
  stored this'.
Proof.
  intros (Hb & Ha & Hid).
  assert (Hn := idAfter_nonneg data this Hid).
  destruct this as [mr b a id sv sp tb ta].
  destruct data as [uid ub ua]. simpl in *.
  unfold update, idAfter, bind, get, modify, lift, ret, _calculateStats in *;
    simpl in *.
  destruct uid as [i |]; simpl in *; [destruct (newer i _); simpl in * |];
    (destruct (isPresent ub) eqn:Pb; simpl;
     [ match goal with
       | |- context [_processDepthData ?s ub true] =>
           destruct (_processDepthData s ub true) as [lb |] eqn:Eb; simpl
       end | ];
     [ destruct (isPresent ua) eqn:Pa; simpl;
       [ match goal with
         | |- context [_processDepthData ?s ua false] =>
             destruct (_processDepthData s ua false) as [la |] eqn:Ea; simpl
         end | ]
     | | destruct (isPresent ua) eqn:Pa; simpl;
       [ match goal with
         | |- context [_processDepthData ?s ua false] =>
             destruct (_processDepthData s ua false) as [la |] eqn:Ea; simpl
         end | ] ]);
    intros H; inversion H; subst; clear H;
    repeat split; simpl; auto;
    right; eapply processDepthData_rows; eassumption.
Qed.

(** *** [update] returns unless an entry is [null] *)

Lemma mapC_normalize_returns items :
  Forall (fun item => item <> ItemNull) items ->
  exists rows, mapC normalize items = Normal rows.
Proof.
  induction 1 as [| item items Hi Hr [rows IH]]; simpl.
  - eauto.
  - rewrite IH. destruct item; simpl; eauto. congruence.
Qed.

Lemma sideAfter_returns this f isBids :
  (forall items, f = SideArray items ->
                 Forall (fun item => item <> ItemNull) items) ->
  exists l, sideAfter this f isBids = Normal l.
Proof.
  intros H. unfold sideAfter, _processDepthData.
  destruct f as [| | items]; simpl; eauto.
  destruct (mapC_normalize_returns items (H items eq_refl)) as [rows ->].
  eauto.
Qed.

Lemma update_returns data this :
  (forall items, u_bids data = SideArray items ->
                 Forall (fun item => item <> ItemNull) items) ->
  (forall items, u_asks data = SideArray items ->
                 Forall (fun item => item <> ItemNull) items) ->
  exists this', update (Some data) this = (this', Normal tt).
Proof.
  intros Hb Ha.
  destruct (sideAfter_returns this (u_bids data) true Hb) as [lb Hlb].
  destruct (sideAfter_returns this (u_asks data) false Ha) as [la Hla].
  eexists. apply update_normal. exists lb, la. eauto.
Qed.

Lemma updateOptions_stored n this :
  stored this -> stored (fst (updateOptions n this)).
Proof. destruct n; intros H; exact H. Qed.

(** Every state an order book goes through satisfies the invariant. *)
Lemma reachable_stored this : reachable this -> stored this.
Proof.
  induction 1 as [n | data this Hr IH | n this Hr IH].
  - apply new_stored.
  - destruct data as [data |]; [| exact IH].
    destruct (update (Some data) this) as [this' [[] |]] eqn:E; simpl.
    + now apply (update_stored data this).
    + now apply (update_throw_stored data this).
  - now apply updateOptions_stored.
Qed.

Lemma update_shape data this this' :
  stored this ->
  update (Some data) this = (this', Normal tt) ->
  exists lb la,
    this' = calculateStats (beforeStats data this lb la) /\
    Forall (fun r => (2 <= List.length r)%nat) lb /\
    Forall (fun r => (2 <= List.length r)%nat) la.
Proof.
  intros Hst Hu.
  destruct (ladder_after true _ _ _ Hst Hu) as (lb' & Hb & _ & _ & Hrb).
  destruct (ladder_after false _ _ _ Hst Hu) as (la' & Ha & _ & _ & Hra).
  apply update_normal in Hu as (lb & la & _ & _ & ->). simpl in Hb, Ha.
  exists lb, la. split; [reflexivity |].
  assert (Hinj : forall l l', withTotals 0 l = withTotals 0 l' ->
                 Forall (fun r => (2 <= List.length r)%nat) l' ->
                 Forall (fun r => (2 <= List.length r)%nat) l).
  { intros l. generalize 0. induction l as [| r l IH]; intros z l' He Hl'.
    - constructor.
    - destruct l' as [| r' l']; simpl in He; [discriminate |].
      inversion He as [[Hr Hl]]. inversion Hl'; subst. constructor.
      + apply (f_equal (@List.length float)) in Hr.
        rewrite !length_app in Hr. simpl in Hr. lia.
      + apply app_inj_tail in Hr as [_ Hx]. rewrite Hx in Hl. eauto. }
  split; eauto.
Qed.

End OrderBookFacts.

(* ================================================================= *)
(** * Properties of the order book                                     *)
(* ================================================================= *)

Module OrderBookSpec.
Import OrderBook OrderBookFacts Samples.
Local Open Scope float_scope.

(** ** Levels of a built ladder *)

(** C1, as the code has it: every level of a ladder built from a raw side
    array has a quantity above zero, so one that is neither [NaN], nor zero,
    nor negative, and is the [[price, quantity]] parsed from an entry of that
    array, with its running total.  (The filter looks at the quantity only.) *)
Theorem ladder_quantities_positive isBids this data items this' :
  update (Some data) this = (this', Normal tt) ->
  field isBids data = SideArray items ->
  Forall (fun row =>
            (0 <? quantity row) = true /\
            is_nan (quantity row) = false /\
            (quantity row =? 0) = false /\
            (quantity row <? 0) = false /\
            exists item,
              In item items /\
              normalize item = Normal [price row; quantity row] /\
              row = [price row; quantity row; cumulative row])
         (ladder isBids this').
Proof.
  intros Hu Hf.
  destruct (ladder_rebuilt _ _ _ _ _ Hu Hf) as (rows & Hs & ->).
  apply Forall_forall. intros row Hrow.
  apply withTotals_In in Hrow as (r & x & Hr & ->).
  apply slice0_In, sort_In in Hr.
  destruct (survivors_In _ _ _ Hs Hr) as (Hpair & Hq & item & Hi & Hn).
  assert (Hp' : price (r ++ [x]) = price r)
    by (unfold price; apply at_app; rewrite Hpair; simpl; lia).
  assert (Hq' : quantity (r ++ [x]) = quantity r)
    by (unfold quantity; apply at_app; rewrite Hpair; simpl; lia).
  assert (Hc' : cumulative (r ++ [x]) = x).
  { unfold cumulative. replace 2%nat with (List.length r)
      by (rewrite Hpair; reflexivity). apply at_app_end. }
  rewrite Hp', Hq', Hc'.
  split; [exact Hq |].
  split; [apply (FloatFacts.ltb_not_nan _ _ Hq) |].
  split; [now apply FloatFacts.ltb_neq |].
  split; [now apply FloatFacts.ltb_asym |].
  exists item. split; [exact Hi |]. split; [now rewrite <- Hpair |].
  rewrite Hpair at 1. reflexivity.
Qed.

Lemma ladder_quantities_positive_witness :
  update (Some mixed) (new None) = (firstState mixed, Normal tt) /\
  field true mixed = SideArray mixedBids /\
  bids (firstState mixed) = [[100; 1; 1]; [98.5; 3; 4]; [98.5; 2; 6]] /\
  Forall (fun row => (0 <? quantity row) = true)
         (ladder true (firstState mixed)).
Proof.
  split; [reflexivity |]. split; [reflexivity |]. split; [reflexivity |].
  eapply Forall_impl;
    [| apply (ladder_quantities_positive true (new None) mixed mixedBids
                (firstState mixed));
       reflexivity].
  intros row H. apply H.
Defined.

(** A price that parses to [NaN] reaches the ladder: [["abc", 1]] is kept as
    the level [[NaN, 1, 1]]. *)
Lemma nan_price_reaches_ladder :
  bids (firstState nanPrice) = [[nan; 1; 1]] /\
  ~ Forall (fun row => is_nan (price row) = false) (bids (firstState nanPrice)).
Proof.
  split; [reflexivity |].
  intros H. inversion H as [| ? ? Hnan _]. discriminate Hnan.
Qed.

(** So does a quantity that is infinite: [[5, "Infinity"]] is kept. *)
Lemma infinite_quantity_reaches_ladder :
  bids (firstState infiniteQuantity) = [[5; infinity; infinity]].
Proof. reflexivity. Qed.

(** ** Spread statistics *)

Lemma withTotals_nil total l : withTotals total l = [] <-> l = [].
Proof. destruct l; simpl; split; congruence. Qed.

Lemma withTotals_head_price l :
  Forall (fun r => (2 <= List.length r)%nat) l ->
  price (nth 0 (withTotals 0 l) []) = price (nth 0 l []).
Proof.
  destruct l as [| r l]; simpl; [reflexivity |].
  intros H. inversion H; subst. unfold price. apply at_app. lia.
Qed.

(** C2, as the code has it: after an update, when both ladders have a level
    the spread is the first ask price less the first bid price and
    [spreadPercent] is the spread over the first ask price times 100
    (whatever that price is); when a ladder is empty both are 0.  For bids
    [[100,1],[99,2]] and asks [[101,1],[102,2]] the spread is 1 and
    [spreadPercent] lies between 0.990 and 0.991. *)
Theorem spread_statistics this data this' :
  stored this ->
  update (Some data) this = (this', Normal tt) ->
  (bids this' <> [] -> asks this' <> [] ->
   spreadValue this' =
     price (nth 0 (asks this') []) - price (nth 0 (bids this') []) /\
   spreadPercent this' =
     spreadValue this' / price (nth 0 (asks this') []) * 100) /\
  (bids this' = [] \/ asks this' = [] ->
   spreadValue this' = 0 /\ spreadPercent this' = 0) /\
  (spreadValue (firstState snapshot) = 1 /\
   spreadPercent (firstState snapshot) = 1 / 101 * 100 /\
   (990 / 1000 <? spreadPercent (firstState snapshot)) = true /\
   (spreadPercent (firstState snapshot) <? 991 / 1000) = true).
Proof.
  intros Hst Hu.
  destruct (update_shape _ _ _ Hst Hu) as (lb & la & -> & Hb & Ha).
  split; [| split].
  - simpl. rewrite !withTotals_nil, !withTotals_head_price by assumption.
    intros Nb Na. destruct lb, la; try congruence. simpl. auto.
  - simpl. rewrite !withTotals_nil.
    intros [-> | ->]; simpl; [destruct la | ]; auto.
  - repeat split; reflexivity.
Qed.

Lemma spread_statistics_witness :
  stored (new None) /\
  update (Some mixed) (new None) = (firstState mixed, Normal tt) /\
  spreadValue (firstState mixed) = 101.25 - 100 /\
  spreadPercent (firstState mixed)
    = spreadValue (firstState mixed) / 101.25 * 100.
Proof.
  split; [apply new_stored |]. split; [reflexivity |].
  destruct (spread_statistics (new None) mixed (firstState mixed)
              (new_stored None) eq_refl) as [H _].
  destruct H as [Hs Hp]; [discriminate | discriminate |].
  split; [exact Hs | exact Hp].
Defined.

(** With a best ask of zero the percentage is a division by zero and not 0:
    bids [[1,1]] and asks [[0,1]] leave [-Infinity]. *)
Lemma zero_ask_spread_percent :
  (price (nth 0 (asks (firstState zeroAsk)) []) =? 0) = true /\
  spreadPercent (firstState zeroAsk) = neg_infinity /\
  (spreadPercent (firstState zeroAsk) =? 0) = false.
Proof. repeat split; reflexivity. Qed.

(** ** The side an update leaves out *)

(** The first three columns of the side an update leaves out stay as they
    were. *)
Lemma omitted_side_keeps_columns isBids this data this' :
  ladderStored (ladder isBids this) ->
  update (Some data) this = (this', Normal tt) ->
  field isBids data = SideAbsent ->
  map (firstn 3) (ladder isBids this') = map (firstn 3) (ladder isBids this).
Proof.
  intros Hst Hu Hf. rewrite (ladder_retained _ _ _ _ Hu Hf).
  now apply withTotals_stored.
Qed.

(** C3: [{bids:[[50,1]]}] after the snapshot leaves the ask rows one number
    longer than they were: [_calculateStats] attaches a total to the rows of
    the side that was left out as well. *)
Theorem omitted_side_rows_grow :
  update (Some bidsOnly) (firstState snapshot) = (partialState, Normal tt) /\
  asks (firstState snapshot) = [[101; 1; 1]; [102; 2; 3]] /\
  asks partialState = [[101; 1; 1; 1]; [102; 2; 3; 3]] /\
  asks partialState <> asks (firstState snapshot).
Proof.
  repeat split; try reflexivity.
  intros H. apply (f_equal (map (@List.length float))) in H. discriminate H.
Qed.

(** ** The depth cap *)

Lemma map_firstn_pairs (l : list Row) :
  Forall (fun r => r = [price r; quantity r]) l -> map (firstn 2) l = l.
Proof.
  induction 1 as [| r l Hr Hl IH]; [reflexivity |].
  cbn [map]. rewrite IH. f_equal. rewrite Hr. reflexivity.
Qed.




(** ** [lastUpdateId] *)

Lemma idAfter_larger data this id :
  u_lastUpdateId data = Some id ->
  is_nan id = false ->
  (0 <=? lastUpdateId this) = true ->
  idAfter data this = larger (lastUpdateId this) id.
Proof.
  intros Hid Hnan Hpos. unfold idAfter, larger, newer. rewrite Hid.
  simpl. rewrite Hnan, orb_false_r.
  destruct (id =? 0) eqn:E; simpl; [| reflexivity].
  now rewrite (FloatFacts.leb_zero_ltb _ _ Hpos E).
Qed.

Lemma larger_bounds a b :
  is_nan a = false -> is_nan b = false ->
  (a <=? larger a b) = true /\ (b <=? larger a b) = true.
Proof.
  intros Na Nb. unfold larger. destruct (a <? b) eqn:E.
  - split; [now apply FloatFacts.ltb_leb | now apply FloatFacts.leb_refl].
  - split; [now apply FloatFacts.leb_refl | now apply FloatFacts.ltb_false_leb].
Qed.

(** C6: after an update that carries an id, [lastUpdateId] is the larger of
    its previous value and that id, so it is below neither; and whatever the
    id, the side arrays of the update are built into the ladders. *)
Theorem lastUpdateId_larger this data id this' :
  update (Some data) this = (this', Normal tt) ->
  u_lastUpdateId data = Some id ->
  is_nan id = false ->
  (0 <=? lastUpdateId this) = true ->
  lastUpdateId this' = larger (lastUpdateId this) id /\
  (lastUpdateId this <=? lastUpdateId this') = true /\
  (id <=? lastUpdateId this') = true /\
  (0 <=? lastUpdateId this') = true /\
  forall isBids items,
    field isBids data = SideArray items ->
    exists rows,
      survivors items rows /\
      ladder isBids this' =
        withTotals 0 (slice0 (sort (comparator isBids) rows) (maxRows this)).
Proof.
  intros Hu Hid Hnan Hpos.
  assert (Hl : lastUpdateId this' = larger (lastUpdateId this) id).
  { apply update_normal in Hu as (lb & la & _ & _ & ->). simpl.
    now apply idAfter_larger. }
  destruct (FloatFacts.leb_not_nan _ _ Hpos) as [_ Nthis].
  destruct (larger_bounds _ _ Nthis Hnan) as [H1 H2].
  rewrite Hl. split; [reflexivity |]. split; [exact H1 |]. split; [exact H2 |].
  split; [rewrite <- Hl; apply update_normal in Hu as (lb & la & _ & _ & ->);
          now apply idAfter_nonneg |].
  intros isBids items Hf. eapply ladder_rebuilt; eauto.
Qed.

Lemma lastUpdateId_larger_witness :
  update (Some mixed) (firstState snapshot)
    = (stateAfter (update (Some mixed)) (firstState snapshot), Normal tt) /\
  u_lastUpdateId mixed = Some 3 /\
  is_nan 3 = false /\
  (0 <=? lastUpdateId (firstState snapshot)) = true /\
  lastUpdateId (firstState snapshot) = 7 /\
  lastUpdateId (stateAfter (update (Some mixed)) (firstState snapshot))
    = larger 7 3 /\
  bids (stateAfter (update (Some mixed)) (firstState snapshot))
    = [[100; 1; 1]; [98.5; 3; 4]; [98.5; 2; 6]].
Proof.
  split; [reflexivity |]. split; [reflexivity |]. split; [reflexivity |].
  split; [reflexivity |]. split; [reflexivity |].
  split; [| reflexivity].
  exact (proj1 (lastUpdateId_larger (firstState snapshot) mixed 3
                  (stateAfter (update (Some mixed)) (firstState snapshot))
                  eq_refl eq_refl eq_refl eq_refl)).
Defined.

(** An update without an id leaves [lastUpdateId] as it was. *)
Lemma lastUpdateId_kept this data this' :
  update (Some data) this = (this', Normal tt) ->
  u_lastUpdateId data = None ->
  lastUpdateId this' = lastUpdateId this.
Proof.
  intros Hu Hid. apply update_normal in Hu as (lb & la & _ & _ & ->). simpl.
  unfold idAfter. now rewrite Hid.
Qed.

(** ** Order of the ladders *)

Lemma after_bids x y :
  is_nan (price x) = false -> is_nan (price y) = false ->
  after (comparator true) x y = (price x <? price y).
Proof. intros Nx Ny. unfold after, comparator. now apply FloatFacts.sub_pos_iff. Qed.

Lemma after_asks x y :
  is_nan (price x) = false -> is_nan (price y) = false ->
  after (comparator false) x y = (price y <? price x).
Proof. intros Nx Ny. unfold after, comparator. now apply FloatFacts.sub_pos_iff. Qed.


Lemma after_false_inOrder isBids x y :
  is_nan (price x) = false -> is_nan (price y) = false ->
  after (comparator isBids) x y = false -> inOrder isBids x y.
Proof.
  intros Nx Ny. destruct isBids; [rewrite after_bids | rewrite after_asks];
    auto; intros H; simpl; now apply FloatFacts.ltb_false_leb.
Qed.


(** On rows whose prices are not [NaN] the comparator of a side is
    consistent, so that the sorted rows are the ones any engine returns. *)
Lemma sorted_rows_unique isBids rows l' :
  Forall (fun r => is_nan (price r) = false) rows ->
  arranged (comparator isBids) rows l' ->
  l' = sort (comparator isBids) rows.
Proof.
  apply arranged_unique.
  - intros x y Nx Ny.
    destruct isBids; [rewrite !after_bids | rewrite !after_asks]; auto;
      apply FloatFacts.ltb_asym.
  - intros x y z Nx Ny Nz.
    destruct isBids; [rewrite !after_bids | rewrite !after_asks]; auto;
      intros Hxy Hyz;
      [apply FloatFacts.ltb_false_trans with (price y)
      | apply FloatFacts.ltb_false_trans with (price y)]; auto.
Qed.




(** ** Running totals *)

Lemma totalVolume_withTotals l :
  Forall (fun r => (2 <= List.length r)%nat) l ->
  totalVolume (withTotals 0 l) = totalVolume l.
Proof.
  intros H. rewrite !totalVolume_fold. f_equal. apply (withTotals_at 0 l 1).
  eapply Forall_impl; [| exact H]. simpl. intros; lia.
Qed.

(** C8: after an update the totals of each ladder rise along it, the last
    one is the sum of the quantities of the ladder (added in the order of
    the ladder), and the volume reported for the side is that last total, or
    0 for an empty ladder. *)
Theorem cumulative_totals isBids this data this' :
  stored this ->
  update (Some data) this = (this', Normal tt) ->
  (forall i, (S i < List.length (ladder isBids this'))%nat ->
        (cumulative (nth i (ladder isBids this') [])
         <=? cumulative (nth (S i) (ladder isBids this') [])) = true) /\
  (ladder isBids this' <> [] ->
   cumulative (last (ladder isBids this') []) =
     totalVolume (ladder isBids this')) /\
  sideVolume isBids this' =
    match ladder isBids this' with
    | [] => 0
    | _ :: _ => cumulative (last (ladder isBids this') [])
    end.
Proof.
  intros Hst Hu.
  destruct (ladder_after isBids _ _ _ Hst Hu) as (l & -> & -> & [Hrows Hcum] & H2).
  set (L := withTotals 0 l) in *.
  assert (Hq : Forall (fun q => (0 <? q) = true) (map quantity L)).
  { apply Forall_map. eapply Forall_impl; [| exact Hrows]. now intros r [_ H]. }
  assert (Hlast : L <> [] -> cumulative (last L []) = totalVolume L).
  { intros Hne. rewrite <- (last_map cumulative L []), Hcum.
    rewrite runningTotals_last, totalVolume_fold; [reflexivity |].
    destruct L; simpl; congruence. }
  split; [| split].
  - intros i Hi.
    rewrite <- !(map_nth cumulative L [] _), Hcum.
    destruct (runningTotals_Sorted 0 (map quantity L) eq_refl Hq) as [Hs _].
    apply (Sorted_adjacent _ _ (cumulative []) Hs i).
    now rewrite runningTotals_length, length_map.
  - exact Hlast.
  - rewrite <- (totalVolume_withTotals l H2). fold L.
    destruct L as [| r L'] eqn:E; [reflexivity |].
    symmetry. apply Hlast. discriminate.
Qed.

Lemma cumulative_totals_witness :
  stored (firstState snapshot) /\
  update (Some bidsOnly) (firstState snapshot) = (partialState, Normal tt) /\
  map cumulative (ladder false partialState) = [1; 3] /\
  sideVolume false partialState = 3 /\
  (forall i,
      (S i < List.length (ladder false partialState))%nat ->
      (cumulative (nth i (ladder false partialState) [])
       <=? cumulative (nth (S i) (ladder false partialState) [])) = true).
Proof.
  assert (Hst : stored (firstState snapshot))
    by (apply (update_stored snapshot (new None));
        [apply new_stored | reflexivity]).
  split; [exact Hst |]. split; [reflexivity |]. split; [reflexivity |].
  split; [reflexivity |].
  exact (proj1 (cumulative_totals false (firstState snapshot) bidsOnly
                  partialState Hst eq_refl)).
Defined.

(** ** Applying an update again *)

Lemma idAfter_again data this this1 :
  lastUpdateId this1 = idAfter data this ->
  idAfter data this1 = lastUpdateId this1.
Proof.
  unfold idAfter, newer. destruct (u_lastUpdateId data) as [id |]; [| reflexivity].
  intros H. rewrite H.
  destruct (Js.truthy (Js.VNum id) && (lastUpdateId this <? id)) eqn:E.
  - now rewrite FloatFacts.ltb_irrefl, andb_false_r.
  - now rewrite E.
Qed.

(** C9: an update that holds both side arrays, applied to the state it has
    just left, leaves that state again: ladders, spread, [spreadPercent] and
    volumes are the same. *)
Theorem update_twice this data bs az this1 :
  u_bids data = SideArray bs ->
  u_asks data = SideArray az ->
  update (Some data) this = (this1, Normal tt) ->
  update (Some data) this1 = (this1, Normal tt) /\
  forall this2,
    update (Some data) this1 = (this2, Normal tt) ->
    bids this2 = bids this1 /\ asks this2 = asks this1 /\
    spreadValue this2 = spreadValue this1 /\
    spreadPercent this2 = spreadPercent this1 /\
    totalBidVolume this2 = totalBidVolume this1 /\
    totalAskVolume this2 = totalAskVolume this1.
Proof.
  intros Hb Ha Hu.
  assert (H1 : update (Some data) this1 = (this1, Normal tt)).
  { apply update_normal in Hu as (lb & la & Hlb & Hla & ->).
    apply update_normal. exists lb, la.
    unfold sideAfter in *. rewrite Hb in *. rewrite Ha in *. simpl isPresent in *.
    cbv iota in *.
    split; [rewrite <- Hlb; now apply processDepthData_maxRows |].
    split; [rewrite <- Hla; now apply processDepthData_maxRows |].
    unfold calculateStats, beforeStats. simpl. f_equal.
    symmetry. now apply (idAfter_again data this). }
  split; [exact H1 |].
  intros this2 H2. rewrite H1 in H2. inversion H2; subst. repeat split.
Qed.

Lemma update_twice_witness :
  u_bids mixed = SideArray mixedBids /\
  u_asks mixed = SideArray mixedAsks /\
  update (Some mixed) (firstState snapshot)
    = (stateAfter (update (Some mixed)) (firstState snapshot), Normal tt) /\
  update (Some mixed) (stateAfter (update (Some mixed)) (firstState snapshot))
    = (stateAfter (update (Some mixed)) (firstState snapshot), Normal tt).
Proof.
  split; [reflexivity |]. split; [reflexivity |]. split; [reflexivity |].
  exact (proj1 (update_twice (firstState snapshot) mixed mixedBids mixedAsks
                  (stateAfter (update (Some mixed)) (firstState snapshot))
                  eq_refl eq_refl eq_refl)).
Defined.

(** ** A missing argument *)

(** C10: [update] with [null] or [undefined] returns normally and leaves
    every field as it was. *)
Theorem update_null_noop this :
  update None this = (this, Normal tt) /\
  bids (stateAfter (update None) this) = bids this /\
  asks (stateAfter (update None) this) = asks this /\
  lastUpdateId (stateAfter (update None) this) = lastUpdateId this /\
  spreadValue (stateAfter (update None) this) = spreadValue this /\
  spreadPercent (stateAfter (update None) this) = spreadPercent this /\
  totalBidVolume (stateAfter (update None) this) = totalBidVolume this /\
  totalAskVolume (stateAfter (update None) this) = totalAskVolume this.
Proof. repeat split. Qed.

End OrderBookSpec.

(* ================================================================= *)
(** * Properties of the trade history                                  *)
(* ================================================================= *)

Module TradeHistorySpec.
Import TradeHistory.
Local Open Scope float_scope.




End TradeHistorySpec.

(* ================================================================= *)
(** * Lists in order                                                   *)
(* ================================================================= *)

Module ListFacts.

Lemma StronglySorted_among {A : Type} (Q : A -> Prop) (R1 R2 : A -> A -> Prop) l :
  (forall x y, Q x -> Q y -> R1 x y -> R2 x y) ->
  Forall Q l -> StronglySorted R1 l -> StronglySorted R2 l.
Proof.
  intros H Hq Hs. induction Hs as [| x l Hl IH Hx]; [constructor |].
  inversion Hq as [| ? ? Qx Ql]; subst. constructor; [now apply IH |].
  rewrite Forall_forall in *. intros y Hy. apply H; auto.
Qed.

Lemma StronglySorted_across {A : Type} (R : A -> A -> Prop) l1 l2 :
  StronglySorted R (l1 ++ l2) ->
  forall x y, In x l1 -> In y l2 -> R x y.
Proof.
  induction l1 as [| a l1 IH]; simpl; intros Hs x y Hx Hy; [destruct Hx |].
  inversion Hs as [| ? ? Hs' Ha]; subst. destruct Hx as [<- | Hx].
  - rewrite Forall_forall in Ha. apply Ha. apply in_or_app. now right.
  - now apply IH.
Qed.

Lemma StronglySorted_map {A B : Type} (f : A -> B) (P : B -> B -> Prop) l :
  StronglySorted P (map f l) <-> StronglySorted (fun x y => P (f x) (f y)) l.
Proof.
  induction l as [| a l IH]; simpl.
  - split; constructor.
  - split; intros H; inversion H as [| ? ? Hs Hf]; subst; constructor;
      try (now apply IH); rewrite Forall_map in *; exact Hf.
Qed.

Lemma StronglySorted_snoc {A : Type} (R : A -> A -> Prop) l x :
  StronglySorted R l -> Forall (fun y => R y x) l -> StronglySorted R (l ++ [x]).
Proof.
  induction l as [| a l IH]; simpl; intros Hs Hf.
  - repeat constructor.
  - inversion Hs as [| ? ? Hs' Ha]; inversion Hf as [| ? ? Hax Hf']; subst.
    constructor; [now apply IH |].
    apply Forall_app. split; [exact Ha | now constructor].
Qed.

Lemma StronglySorted_rev {A : Type} (R : A -> A -> Prop) l :
  StronglySorted R l -> StronglySorted (fun a b => R b a) (rev l).
Proof.
  induction 1 as [| a l Hs IH Ha]; simpl; [constructor |].
  apply StronglySorted_snoc; [exact IH |].
  apply Forall_rev. exact Ha.
Qed.

Lemma StronglySorted_firstn {A : Type} (R : A -> A -> Prop) l k :
  StronglySorted R l -> StronglySorted R (firstn k l).
Proof.
  intros Hs. revert k. induction Hs as [| a l Hs IH Ha]; intros [| k]; simpl;
    try constructor; [apply IH |].
  rewrite Forall_forall in *. intros y Hy. apply Ha.
  rewrite <- (firstn_skipn k l). apply in_or_app. now left.
Qed.

Lemma StronglySorted_last {A : Type} (R : A -> A -> Prop) l d :
  StronglySorted R l -> (forall x, In x l -> R x x) ->
  forall x, In x l -> R x (last l d).
Proof.
  induction 1 as [| a l Hs IH Ha]; intros Hr x Hx; [destruct Hx |].
  destruct l as [| b l].
  - destruct Hx as [<- | []]. apply Hr. now left.
  - change (last (a :: b :: l) d) with (last (b :: l) d).
    assert (Hlast : In (last (b :: l) d) (b :: l)).
    { destruct (exists_last (l := b :: l)) as (l' & z & E); [discriminate |].
      rewrite E, last_last. apply in_or_app. right. now left. }
    destruct Hx as [<- | Hx].
    + rewrite Forall_forall in Ha. now apply Ha.
    + apply IH; [intros y Hy; apply Hr; now right | exact Hx].
Qed.

Lemma mapC_length {A B : Type} (f : A -> completion B) l ys :
  mapC f l = Normal ys -> List.length ys = List.length l.
Proof.
  revert ys. induction l as [| x r IH]; simpl; intros ys H.
  - now inversion H.
  - destruct (f x); [| discriminate].
    destruct (mapC f r) as [bs |]; [| discriminate].
    inversion H; subst. simpl. now rewrite (IH bs eq_refl).
Qed.



Lemma filter_none {A : Type} (p : A -> bool) l :
  (forall x, In x l -> p x = false) -> filter p l = [].
Proof.
  induction l as [| a l IH]; simpl; intros H; [reflexivity |].
  rewrite (H a) by now left. apply IH. intros x Hx. apply H. now right.
Qed.

Lemma map_removelast {A B : Type} (f : A -> B) l :
  map f (removelast l) = removelast (map f l).
Proof.
  induction l as [| a [| b l] IH]; try reflexivity.
  change (f a :: map f (removelast (b :: l))
          = f a :: removelast (map f (b :: l))).
  now rewrite IH.
Qed.

End ListFacts.

(* ================================================================= *)
(** * More properties of the order book                                *)
(* ================================================================= *)

Module OrderBookProperties.
Import OrderBook OrderBookFacts OrderBookView Samples ListFacts.
Local Open Scope float_scope.

(** ** Entries on which [update] throws *)

Lemma mapC_normalize_throws items :
  mapC normalize items = Throw <-> In ItemNull items.
Proof.
  induction items as [| item items IH]; simpl.
  - split; [discriminate | intros []].
  - destruct (normalize item) as [r |] eqn:N.
    + assert (Hitem : item <> ItemNull) by (intros ->; discriminate N).
      destruct (mapC normalize items); split.
      * discriminate.
      * intros [H | H]; [congruence | apply IH in H; discriminate].
      * intros _. right. now apply IH.
      * reflexivity.
    + split; [intros _ | reflexivity].
      left. destruct item; try discriminate N. reflexivity.
Qed.

Lemma sideAfter_throws this f isBids :
  sideAfter this f isBids = Throw <-> hasNull f.
Proof.
  unfold sideAfter, _processDepthData, hasNull.
  destruct f as [| | items]; simpl; try (split; [discriminate | intros []]).
  rewrite <- mapC_normalize_throws.
  destruct (mapC normalize items); split; congruence.
Qed.

(** What [update] leaves when the bids throw, and when the asks do. *)
Lemma update_throw data this :
  (sideAfter this (u_bids data) true = Throw ->
   update (Some data) this
   = (set_lastUpdateId (idAfter data this) this, Throw)) /\
  (forall lb,
      sideAfter this (u_bids data) true = Normal lb ->
      sideAfter this (u_asks data) false = Throw ->
      update (Some data) this
      = (set_bids lb (set_lastUpdateId (idAfter data this) this), Throw)).
Proof.
  destruct this as [mr b a id sv sp tb ta].
  destruct data as [uid ub ua].
  unfold update, sideAfter, idAfter, bind, get, modify, lift, ret,
    _calculateStats, ladder, _processDepthData, isPresent,
    set_bids, set_lastUpdateId; simpl.
  split; [intros Hb | intros lb Hb Ha];
    (destruct uid as [i |]; simpl; [destruct (newer i _); simpl |]);
    destruct ub as [| | bs], ua as [| | az]; simpl in *;
    repeat match goal with
      | H : context [mapC normalize ?l] |- _ =>
          destruct (mapC normalize l); simpl in *
      end;
    try discriminate; try reflexivity;
    inversion Hb; subst; reflexivity.
Qed.

(** A [null] entry in either side array makes [update] throw, whatever
    else the message holds, and it throws before [_calculateStats]: the id
    has been compared, but the asks, the spread and the volumes are those
    of before. *)
Theorem null_entry_throws data this :
  hasNull (u_bids data) \/ hasNull (u_asks data) ->
  snd (update (Some data) this) = Throw /\
  lastUpdateId (fst (update (Some data) this)) = idAfter data this /\
  asks (fst (update (Some data) this)) = asks this /\
  spreadValue (fst (update (Some data) this)) = spreadValue this /\
  spreadPercent (fst (update (Some data) this)) = spreadPercent this /\
  totalBidVolume (fst (update (Some data) this)) = totalBidVolume this /\
  totalAskVolume (fst (update (Some data) this)) = totalAskVolume this.
Proof.
  intros H. destruct (update_throw data this) as [Hb Ha].
  destruct (sideAfter this (u_bids data) true) as [lb |] eqn:Eb.
  - assert (Hasks : sideAfter this (u_asks data) false = Throw).
    { destruct H as [H | H].
      - apply (sideAfter_throws this _ true) in H. congruence.
      - now apply sideAfter_throws. }
    rewrite (Ha lb eq_refl Hasks). repeat split.
  - rewrite (Hb eq_refl). repeat split.
Qed.

Lemma null_entry_throws_witness :
  (hasNull (u_bids nullAsk) \/ hasNull (u_asks nullAsk)) /\
  snd (update (Some nullAsk) (firstState snapshot)) = Throw /\
  lastUpdateId (fst (update (Some nullAsk) (firstState snapshot))) = 9 /\
  spreadValue (fst (update (Some nullAsk) (firstState snapshot))) = 1.
Proof.
  assert (H : hasNull (u_bids nullAsk) \/ hasNull (u_asks nullAsk))
    by (right; simpl; auto).
  split; [exact H |].
  destruct (null_entry_throws nullAsk (firstState snapshot) H)
    as (H1 & H2 & _ & H4 & _).
  split; [exact H1 |]. split; [rewrite H2; reflexivity |].
  rewrite H4. reflexivity.
Defined.

(** When the bids hold a [null] entry, [update] throws having changed
    nothing but, for a newer id, [lastUpdateId]: ladders and statistics are
    those of before. *)
Theorem null_bid_keeps_book data this :
  hasNull (u_bids data) ->
  update (Some data) this
    = (set_lastUpdateId (idAfter data this) this, Throw) /\
  bids (fst (update (Some data) this)) = bids this /\
  asks (fst (update (Some data) this)) = asks this /\
  spreadValue (fst (update (Some data) this)) = spreadValue this /\
  totalBidVolume (fst (update (Some data) this)) = totalBidVolume this /\
  totalAskVolume (fst (update (Some data) this)) = totalAskVolume this.
Proof.
  intros H. apply (sideAfter_throws this _ true) in H.
  destruct (update_throw data this) as [Hb _].
  rewrite (Hb H). repeat split.
Qed.

Lemma null_bid_keeps_book_witness :
  hasNull (u_bids nullBid) /\
  update (Some nullBid) (firstState snapshot)
    = (set_lastUpdateId 9 (firstState snapshot), Throw) /\
  bids (fst (update (Some nullBid) (firstState snapshot)))
    = [[100; 1; 1]; [99; 2; 3]].
Proof.
  split; [simpl; auto |].
  destruct (null_bid_keeps_book nullBid (firstState snapshot)) as (H1 & H2 & _);
    [simpl; auto |].
  split; [exact H1 | rewrite H2; reflexivity].
Defined.

(** When the asks hold a [null] entry and the bids do not, [update] throws
    between the two sides: the bids are the new ladder without its totals
    (rows of two numbers), while the asks, the spread and the volumes are
    those of before. *)
Theorem null_ask_tears_book data this items :
  u_bids data = SideArray items ->
  ~ In ItemNull items ->
  hasNull (u_asks data) ->
  snd (update (Some data) this) = Throw /\
  (exists rows,
      survivors items rows /\
      bids (fst (update (Some data) this))
        = slice0 (sort (comparator true) rows) (maxRows this)) /\
  Forall (fun row => List.length row = 2%nat)
         (bids (fst (update (Some data) this))) /\
  asks (fst (update (Some data) this)) = asks this /\
  spreadValue (fst (update (Some data) this)) = spreadValue this /\
  spreadPercent (fst (update (Some data) this)) = spreadPercent this /\
  totalBidVolume (fst (update (Some data) this)) = totalBidVolume this /\
  totalAskVolume (fst (update (Some data) this)) = totalAskVolume this.
Proof.
  intros Hb Hnb Ha.
  apply (sideAfter_throws this _ false) in Ha.
  destruct (sideAfter this (u_bids data) true) as [lb |] eqn:Eb;
    [| apply sideAfter_throws in Eb; rewrite Hb in Eb; contradiction].
  destruct (update_throw data this) as [_ Hu].
  rewrite (Hu lb Eb Ha). simpl.
  unfold sideAfter in Eb. rewrite Hb in Eb. cbn [isPresent] in Eb.
  assert (Hrows : Forall rowFresh lb)
    by (eapply processDepthData_rows; exact Eb).
  apply processDepthData_array in Eb as (rows & Hs & ->).
  split; [reflexivity |]. split; [eauto |].
  split; [| repeat split].
  eapply Forall_impl; [| exact Hrows]. intros r [-> _]. reflexivity.
Qed.

Lemma null_ask_tears_book_witness :
  u_bids nullAsk = SideArray [level 98 4; level 99 5] /\
  ~ In ItemNull [level 98 4; level 99 5] /\
  hasNull (u_asks nullAsk) /\
  snd (update (Some nullAsk) (firstState snapshot)) = Throw /\
  bids (fst (update (Some nullAsk) (firstState snapshot)))
    = [[99; 5]; [98; 4]] /\
  asks (fst (update (Some nullAsk) (firstState snapshot)))
    = [[101; 1; 1]; [102; 2; 3]] /\
  totalBidVolume (fst (update (Some nullAsk) (firstState snapshot))) = 3.
Proof.
  assert (Hn : ~ In ItemNull [level 98 4; level 99 5])
    by (intros [H | [H | []]]; discriminate).
  split; [reflexivity |]. split; [exact Hn |]. split; [simpl; auto |].
  destruct (null_ask_tears_book nullAsk (firstState snapshot)
              [level 98 4; level 99 5] eq_refl Hn)
    as (H1 & _ & _ & H4 & _ & _ & H7 & _); [simpl; auto |].
  split; [exact H1 |]. split; [reflexivity |].
  split; [rewrite H4; reflexivity | rewrite H7; reflexivity].
Defined.

(** ** The states of an order book *)

(** In every state an order book goes through, also after an [update] that
    threw, each row of both ladders has a price and a quantity and the
    quantity is above zero, and [lastUpdateId] is a number that is not
    negative. *)
Theorem reachable_invariant this :
  reachable this ->
  (forall isBids row,
      In row (ladder isBids this) ->
      (2 <= List.length row)%nat /\ (0 <? quantity row) = true) /\
  (0 <=? lastUpdateId this) = true /\
  is_nan (lastUpdateId this) = false.
Proof.
  intros H. apply reachable_stored in H as (Hb & Ha & Hid).
  split; [| split; [exact Hid | apply (FloatFacts.leb_not_nan _ _ Hid)]].
  assert (Hk : forall l row, ladderKept l -> In row l ->
                 (2 <= List.length row)%nat /\ (0 <? quantity row) = true).
  { intros l row [[Hl _] | Hl] Hin; rewrite Forall_forall in Hl;
      destruct (Hl row Hin) as [H1 H2]; split; auto; try lia.
    rewrite H1. simpl. lia. }
  intros [|] row Hin; simpl in Hin; eauto.
Qed.

Lemma reachable_invariant_witness :
  reachable (fst (update (Some nullAsk) (firstState snapshot))) /\
  (forall isBids row,
      In row (ladder isBids (fst (update (Some nullAsk) (firstState snapshot)))) ->
      (2 <= List.length row)%nat /\ (0 <? quantity row) = true).
Proof.
  assert (H : reachable (fst (update (Some nullAsk) (firstState snapshot)))).
  { apply reach_update. unfold firstState, stateAfter.
    apply reach_update. apply reach_new. }
  split; [exact H |]. exact (proj1 (reachable_invariant _ H)).
Defined.

(** ** The levels a ladder holds *)

Lemma comparator_asym isBids x y :
  is_nan (price x) = false -> is_nan (price y) = false ->
  after (comparator isBids) x y = true ->
  after (comparator isBids) y x = false.
Proof.
  intros Nx Ny.
  destruct isBids;
    [rewrite !OrderBookSpec.after_bids | rewrite !OrderBookSpec.after_asks];
    auto; apply FloatFacts.ltb_asym.
Qed.

Lemma comparator_trans isBids x y z :
  is_nan (price x) = false -> is_nan (price y) = false ->
  is_nan (price z) = false ->
  after (comparator isBids) x y = false ->
  after (comparator isBids) y z = false ->
  after (comparator isBids) x z = false.
Proof.
  intros Nx Ny Nz.
  destruct isBids;
    [rewrite !OrderBookSpec.after_bids | rewrite !OrderBookSpec.after_asks];
    auto; intros Hxy Hyz;
    apply FloatFacts.ltb_false_trans with (price y); auto.
Qed.

(** Sorted rows without a [NaN] price are in order throughout, not only
    from each row to the next. *)
Lemma sorted_rows_in_order isBids rows :
  Forall (fun r => is_nan (price r) = false) rows ->
  StronglySorted (inOrder isBids) (sort (comparator isBids) rows).
Proof.
  intros Hn.
  apply StronglySorted_among
    with (Q := fun r => is_nan (price r) = false)
         (R1 := fun a b => after (comparator isBids) a b = false).
  - intros x y. apply OrderBookSpec.after_false_inOrder.
  - now apply sort_Forall.
  - apply sort_StronglySorted with (Q := fun r => is_nan (price r) = false).
    + intros x y. apply comparator_asym.
    + intros x y z. apply comparator_trans.
    + exact Hn.
Qed.

Lemma inOrder_prices isBids x y x' y' :
  price x' = price x -> price y' = price y ->
  inOrder isBids x y -> inOrder isBids x' y'.
Proof. unfold inOrder. intros -> ->. auto. Qed.

Lemma survivors_prices items rows :
  survivors items rows ->
  (forall item p q,
      In item items -> normalize item = Normal [p; q] ->
      (0 <? q) = true -> is_nan p = false) ->
  Forall (fun r => r = [price r; quantity r] /\ is_nan (price r) = false) rows.
Proof.
  intros Hs Hnan. apply Forall_forall. intros r Hr.
  destruct (survivors_In _ _ _ Hs Hr) as (Hp & Hq & item & Hi & Hn).
  split; [exact Hp |]. rewrite Hp in Hn. eauto.
Qed.

(** The levels of a rebuilt ladder, without their totals, are the first of
    the sorted surviving rows, and the rest of these are the rows dropped. *)
Lemma ladder_split isBids this data items this' :
  update (Some data) this = (this', Normal tt) ->
  field isBids data = SideArray items ->
  exists rows k,
    survivors items rows /\
    ladder isBids this'
      = withTotals 0 (firstn k (sort (comparator isBids) rows)) /\
    map (firstn 2) (ladder isBids this')
      = firstn k (sort (comparator isBids) rows) /\
    ((Z.of_nat (List.length rows) <= maxRows this)%Z ->
     firstn k (sort (comparator isBids) rows) = sort (comparator isBids) rows).
Proof.
  intros Hu Hf.
  destruct (ladder_rebuilt _ _ _ _ _ Hu Hf) as (rows & Hs & ->).
  set (sorted := sort (comparator isBids) rows).
  exists rows. unfold slice0.
  set (k := Z.to_nat _). exists k.
  assert (Hpairs : Forall (fun r => r = [price r; quantity r]) (firstn k sorted)).
  { apply Forall_forall. intros r Hr.
    assert (Hin : In r rows).
    { apply (sort_In (comparator isBids)). fold sorted.
      rewrite <- (firstn_skipn k sorted). apply in_or_app. now left. }
    now destruct (survivors_In _ _ _ Hs Hin). }
  split; [exact Hs |]. split; [reflexivity |]. split.
  - rewrite withTotals_firstn.
    + now apply OrderBookSpec.map_firstn_pairs.
    + eapply Forall_impl; [| exact Hpairs]. intros r ->. simpl. lia.
  - intros Hle. apply firstn_all2. unfold k, sorted.
    rewrite sort_length.
    destruct (maxRows this <? 0)%Z eqn:E;
      [apply Z.ltb_lt in E | apply Z.ltb_ge in E]; lia.
Qed.

(** A rebuilt ladder holds the best of the surviving levels, when none of
    them has a [NaN] price: the surviving rows are the levels of the ladder
    and the rows dropped, every level is at least as good as every row
    dropped, and the first level is at least as good as every surviving
    row (the highest bid, the lowest ask). *)
Theorem ladder_holds_best isBids this data items this' :
  update (Some data) this = (this', Normal tt) ->
  field isBids data = SideArray items ->
  (forall item p q,
      In item items -> normalize item = Normal [p; q] ->
      (0 <? q) = true -> is_nan p = false) ->
  exists rows dropped,
    survivors items rows /\
    Permutation rows (map (firstn 2) (ladder isBids this') ++ dropped) /\
    (forall x y,
        In x (ladder isBids this') -> In y dropped -> inOrder isBids x y) /\
    (forall x y,
        nth_error (ladder isBids this') 0 = Some x -> In y rows ->
        inOrder isBids x y).
Proof.
  intros Hu Hf Hnan.
  destruct (ladder_split _ _ _ _ _ Hu Hf) as (rows & k & Hs & Hl & Hm & _).
  pose proof (survivors_prices _ _ Hs Hnan) as Hrows.
  assert (Hq : Forall (fun r => is_nan (price r) = false) rows)
    by (eapply Forall_impl; [| exact Hrows]; now intros r [_ H]).
  pose proof (sorted_rows_in_order isBids rows Hq) as Hsorted.
  set (sorted := sort (comparator isBids) rows) in *.
  assert (Hbase : forall x, In x (ladder isBids this') ->
            exists r, In r (firstn k sorted) /\ price x = price r).
  { intros x Hx. rewrite Hl in Hx.
    apply withTotals_In in Hx as (r & t & Hr & ->). exists r.
    split; [exact Hr |]. unfold price. apply at_app.
    assert (Hin : In r rows).
    { apply (sort_In (comparator isBids)). fold sorted.
      rewrite <- (firstn_skipn k sorted). apply in_or_app. now left. }
    rewrite Forall_forall in Hrows. destruct (Hrows r Hin) as [-> _].
    simpl. lia. }
  exists rows, (skipn k sorted). split; [exact Hs |]. split; [| split].
  - rewrite Hm, firstn_skipn. apply sort_Permutation.
  - intros x y Hx Hy. destruct (Hbase x Hx) as (r & Hr & Hp).
    apply inOrder_prices with r y; auto.
    rewrite <- (firstn_skipn k sorted) in Hsorted.
    now apply (StronglySorted_across _ _ _ Hsorted).
  - intros x y Hx Hy.
    assert (Hxin : In x (ladder isBids this'))
      by (eapply nth_error_In; exact Hx).
    destruct (Hbase x Hxin) as (r & Hr & Hp).
    (* [x] is the first row of [sorted], with its total *)
    assert (Hy' : In y sorted) by now apply sort_In.
    rewrite Hl in Hx.
    destruct sorted as [| r0 rest] eqn:E; [destruct Hy' |].
    destruct k as [| k']; [discriminate Hx |].
    simpl in Hx. inversion Hx; subst x.
    apply inOrder_prices with r0 y; auto.
    { unfold price. apply at_app.
      assert (Hin : In r0 rows)
        by (apply (sort_In (comparator isBids)); fold sorted;
            rewrite E; now left).
      rewrite Forall_forall in Hrows. destruct (Hrows r0 Hin) as [-> _].
      simpl. lia. }
    inversion Hsorted as [| ? ? _ Hall]; subst.
    destruct Hy' as [<- | Hy'].
    + assert (Hin : In r0 rows)
        by (apply (sort_In (comparator isBids)); fold sorted;
            rewrite E; now left).
      rewrite Forall_forall in Hq. specialize (Hq r0 Hin).
      unfold inOrder. destruct isBids; now apply FloatFacts.leb_refl.
    + rewrite Forall_forall in Hall. now apply Hall.
Qed.

Lemma threeBids_prices :
  forall item p q,
    In item [level 3 1; level 2 1; level 1 1] ->
    normalize item = Normal [p; q] ->
    (0 <? q) = true -> is_nan p = false.
Proof.
  intros item p q Hin Hn Hq.
  repeat (destruct Hin as [<- | Hin]; [inversion Hn; subst; reflexivity |]).
  destruct Hin.
Qed.

Lemma ladder_holds_best_witness :
  update (Some threeBids) (stateAfter (updateOptions (Some 2%Z)) (new None))
    = (cappedState 2, Normal tt) /\
  field true threeBids = SideArray [level 3 1; level 2 1; level 1 1] /\
  bids (cappedState 2) = [[3; 1; 1]; [2; 1; 2]] /\
  exists rows dropped,
    survivors [level 3 1; level 2 1; level 1 1] rows /\
    Permutation rows (map (firstn 2) (ladder true (cappedState 2)) ++ dropped) /\
    (forall x y,
        In x (ladder true (cappedState 2)) -> In y dropped ->
        inOrder true x y) /\
    (forall x y,
        nth_error (ladder true (cappedState 2)) 0 = Some x -> In y rows ->
        inOrder true x y).
Proof.
  split; [reflexivity |]. split; [reflexivity |]. split; [reflexivity |].
  exact (ladder_holds_best true
           (stateAfter (updateOptions (Some 2%Z)) (new None)) threeBids
           [level 3 1; level 2 1; level 1 1] (cappedState 2)
           eq_refl eq_refl threeBids_prices).
Defined.

Lemma survivors_length items rows :
  survivors items rows -> (List.length rows <= List.length items)%nat.
Proof.
  intros (processed & Hm & ->). rewrite <- (mapC_length _ _ _ Hm).
  apply filter_length_le.
Qed.

(** A side array of no more entries than [maxRows] loses none of its
    surviving levels: the ladder holds each of them once, whatever their
    prices. *)
Theorem ladder_keeps_all isBids this data items this' :
  update (Some data) this = (this', Normal tt) ->
  field isBids data = SideArray items ->
  (Z.of_nat (List.length items) <= maxRows this)%Z ->
  exists rows,
    survivors items rows /\
    Permutation rows (map (firstn 2) (ladder isBids this')) /\
    List.length (ladder isBids this') = List.length rows.
Proof.
  intros Hu Hf Hcap.
  destruct (ladder_split _ _ _ _ _ Hu Hf) as (rows & k & Hs & Hl & Hm & Hall).
  pose proof (survivors_length _ _ Hs) as Hlen.
  exists rows. split; [exact Hs |].
  rewrite Hm, Hl, withTotals_length, Hall by lia.
  split; [apply sort_Permutation | apply sort_length].
Qed.

Lemma ladder_keeps_all_witness :
  update (Some mixed) (new None) = (firstState mixed, Normal tt) /\
  field true mixed = SideArray mixedBids /\
  (Z.of_nat (List.length mixedBids) <= maxRows (new None))%Z /\
  exists rows,
    survivors mixedBids rows /\
    Permutation rows (map (firstn 2) (ladder true (firstState mixed))) /\
    List.length (ladder true (firstState mixed)) = List.length rows.
Proof.
  split; [reflexivity |]. split; [reflexivity |].
  assert (Hcap : (Z.of_nat (List.length mixedBids) <= maxRows (new None))%Z)
    by (simpl; lia).
  split; [exact Hcap |].
  exact (ladder_keeps_all true (new None) mixed mixedBids (firstState mixed)
           eq_refl eq_refl Hcap).
Defined.

(** ** The sorted rows do not depend on the engine *)

(** The comparator of a side is consistent on rows whose prices are not
    [NaN]: an arrangement of such rows that meets what the language asks of
    [Array.prototype.sort] is the one computed here. *)
Theorem sorted_rows_any_engine isBids rows l' :
  Forall (fun r => is_nan (price r) = false) rows ->
  arranged (comparator isBids) rows l' ->
  l' = sort (comparator isBids) rows.
Proof.
  apply arranged_unique.
  - intros x y. apply comparator_asym.
  - intros x y z. apply comparator_trans.
Qed.

Lemma sorted_rows_any_engine_witness :
  Forall (fun r => is_nan (price r) = false) [[99; 2]; [100; 1]; [99; 7]] /\
  arranged (comparator true) [[99; 2]; [100; 1]; [99; 7]]
           [[100; 1]; [99; 2]; [99; 7]] /\
  [[100; 1]; [99; 2]; [99; 7]]
    = sort (comparator true) [[99; 2]; [100; 1]; [99; 7]].
Proof.
  assert (Hn : Forall (fun r => is_nan (price r) = false)
                 [[99; 2]; [100; 1]; [99; 7]])
    by (repeat constructor).
  assert (Ha : arranged (comparator true) [[99; 2]; [100; 1]; [99; 7]]
                 [[100; 1]; [99; 2]; [99; 7]]).
  { split; [apply perm_swap |]. split.
    - repeat constructor.
    - intros z [<- | [<- | [<- | []]]]; reflexivity. }
  split; [exact Hn |]. split; [exact Ha |].
  exact (sorted_rows_any_engine true _ _ Hn Ha).
Defined.

(** ** What the table and the chart are given *)

Lemma runningTotals_pos total qs :
  (0 <=? total) = true ->
  Forall (fun q => (0 <? q) = true) qs ->
  Forall (fun c => (0 <? c) = true) (runningTotals total qs).
Proof.
  revert total. induction qs as [| q r IH]; intros total Ht Hq; simpl.
  - constructor.
  - inversion Hq as [| ? ? Hq1 Hq2]; subst.
    destruct (FloatFacts.add_pos_mono total q Ht Hq1) as [_ Hpos].
    constructor; [exact Hpos |].
    apply IH; [now apply FloatFacts.ltb_leb | exact Hq2].
Qed.

(** Along a stored ladder the totals are positive and never fall. *)
Lemma ladderStored_totals l :
  ladderStored l ->
  StronglySorted (fun a b => (cumulative a <=? cumulative b) = true) l /\
  Forall (fun r => (0 <? cumulative r) = true) l.
Proof.
  intros [Hrows Hcum].
  assert (Hq : Forall (fun q => (0 <? q) = true) (map quantity l)).
  { rewrite Forall_map. eapply Forall_impl; [| exact Hrows].
    now intros r [_ H]. }
  split.
  - apply (StronglySorted_map cumulative (fun a b => (a <=? b) = true)).
    rewrite Hcum. apply Sorted_StronglySorted.
    + intros x y z. apply FloatFacts.leb_trans.
    + now apply runningTotals_Sorted.
  - rewrite <- (Forall_map cumulative (fun c => (0 <? c) = true)), Hcum.
    now apply runningTotals_pos.
Qed.

(** The total that [_renderBids] and [_renderAsks] measure the bars against
    is the largest of the side: after an [update] that returns, every row of
    a side has a positive total which is at most [maxTotal], the total of
    the last row. *)
Theorem totals_within_maxTotal isBids this data this' :
  stored this ->
  update (Some data) this = (this', Normal tt) ->
  forall row, In row (ladder isBids this') ->
    (0 <? cumulative row) = true /\
    (cumulative row <=? maxTotal (ladder isBids this')) = true.
Proof.
  intros Hst Hu row Hin.
  destruct (update_stored _ _ _ Hst Hu) as (_ & Hb & Ha).
  assert (Hl : ladderStored (ladder isBids this')) by now destruct isBids.
  destruct (ladderStored_totals _ Hl) as [Hs Hp].
  rewrite Forall_forall in Hp. split; [now apply Hp |].
  assert (E : maxTotal (ladder isBids this')
              = cumulative (last (ladder isBids this') [])).
  { unfold maxTotal, cumulative. destruct (ladder isBids this'); [destruct Hin |].
    reflexivity. }
  rewrite E.
  apply (StronglySorted_last
           (fun a b => (cumulative a <=? cumulative b) = true) _ [] Hs);
    [| exact Hin].
  intros x Hx. apply FloatFacts.leb_refl.
  now destruct (FloatFacts.ltb_not_nan _ _ (Hp x Hx)).
Qed.

Lemma totals_within_maxTotal_witness :
  stored (new None) /\
  update (Some snapshot) (new None) = (firstState snapshot, Normal tt) /\
  forall row, In row (ladder false (firstState snapshot)) ->
    (0 <? cumulative row) = true /\
    (cumulative row <=? maxTotal (ladder false (firstState snapshot))) = true.
Proof.
  split; [apply new_stored |]. split; [reflexivity |].
  exact (totals_within_maxTotal false (new None) snapshot (firstState snapshot)
           (new_stored None) eq_refl).
Defined.

(** A rebuilt side whose surviving prices are numbers is in the order of
    its side, totals attached. *)
Lemma ladder_in_order isBids this data items this' :
  update (Some data) this = (this', Normal tt) ->
  field isBids data = SideArray items ->
  (forall item p q,
      In item items -> normalize item = Normal [p; q] ->
      (0 <? q) = true -> is_nan p = false) ->
  StronglySorted (inOrder isBids) (ladder isBids this') /\
  ladderStored (ladder isBids this').
Proof.
  intros Hu Hf Hnan.
  destruct (ladder_split _ _ _ _ _ Hu Hf) as (rows & k & Hs & Hl & Hm & _).
  pose proof (survivors_prices _ _ Hs Hnan) as Hrows.
  assert (Hq : Forall (fun r => is_nan (price r) = false) rows)
    by (eapply Forall_impl; [| exact Hrows]; now intros r [_ H]).
  pose proof (sorted_rows_in_order isBids rows Hq) as Hsorted.
  split.
  - apply (StronglySorted_firstn _ _ k) in Hsorted. rewrite <- Hm in Hsorted.
    apply (StronglySorted_map (firstn 2)) in Hsorted.
    eapply StronglySorted_among with (Q := fun _ => True);
      [| apply Forall_forall; now intros | exact Hsorted].
    intros x y _ _. unfold inOrder, price, at_.
    now destruct x as [| ? [| ? ?]], y as [| ? [| ? ?]].
  - rewrite Hl. apply withTotals_fresh. apply Forall_forall. intros r Hr.
    assert (Hin : In r rows).
    { apply (sort_In (comparator isBids)).
      rewrite <- (firstn_skipn k (sort (comparator isBids) rows)).
      apply in_or_app. now left. }
    destruct (survivors_In _ _ _ Hs Hin) as (Hp & Hq' & _). now split.
Qed.

Lemma point_stored l :
  ladderStored l ->
  map point l = map (fun r => [Some (price r); Some (cumulative r)]) l.
Proof.
  intros [Hrows _]. apply map_ext_in. intros r Hr.
  rewrite Forall_forall in Hrows. destruct (Hrows r Hr) as [H3 _].
  destruct r as [| a [| b [| c r]]]; simpl in H3; try lia. reflexivity.
Qed.

(** Both series of the depth chart run from the lowest price to the
    highest when both sides were rebuilt from prices that are numbers: every
    point has a price and a positive total, the total falls along the bid
    series and rises along the ask series. *)
Theorem depth_series_rise this data bs az this' :
  update (Some data) this = (this', Normal tt) ->
  u_bids data = SideArray bs ->
  u_asks data = SideArray az ->
  (forall item p q,
      In item (bs ++ az) -> normalize item = Normal [p; q] ->
      (0 <? q) = true -> is_nan p = false) ->
  Forall (fun pt => exists x y, pt = [Some x; Some y] /\ (0 <? y) = true)
         (fst (depthSeries this') ++ snd (depthSeries this')) /\
  StronglySorted (fun a b => (coordinate 0 a <=? coordinate 0 b) = true)
                 (fst (depthSeries this')) /\
  StronglySorted (fun a b => (coordinate 1 b <=? coordinate 1 a) = true)
                 (fst (depthSeries this')) /\
  StronglySorted (fun a b => (coordinate 0 a <=? coordinate 0 b) = true)
                 (snd (depthSeries this')) /\
  StronglySorted (fun a b => (coordinate 1 a <=? coordinate 1 b) = true)
                 (snd (depthSeries this')).
Proof.
  intros Hu Hb Ha Hnan.
  destruct (ladder_in_order true _ _ _ _ Hu Hb) as [Ob Sb];
    [intros item p q Hi; apply Hnan, in_or_app; now left |].
  destruct (ladder_in_order false _ _ _ _ Hu Ha) as [Oa Sa];
    [intros item p q Hi; apply Hnan, in_or_app; now right |].
  simpl ladder in *.
  destruct (ladderStored_totals _ Sb) as [Tb Pb].
  destruct (ladderStored_totals _ Sa) as [Ta Pa].
  unfold depthSeries. simpl fst. simpl snd.
  rewrite (point_stored _ Sb), (point_stored _ Sa), <- map_rev.
  split; [| repeat split].
  - apply Forall_app. split; rewrite Forall_map; [apply Forall_rev |];
      (eapply Forall_impl; [| eassumption]); intros r Hr; eauto.
  - apply StronglySorted_map. apply (StronglySorted_rev _ _ Ob).
  - apply StronglySorted_map. apply (StronglySorted_rev _ _ Tb).
  - apply StronglySorted_map. exact Oa.
  - apply StronglySorted_map. exact Ta.
Qed.

Lemma snapshot_prices :
  forall item p q,
    In item ([level 100 1; level 99 2] ++ [level 101 1; level 102 2]) ->
    normalize item = Normal [p; q] ->
    (0 <? q) = true -> is_nan p = false.
Proof.
  intros item p q Hin Hn Hq. simpl in Hin.
  repeat (destruct Hin as [<- | Hin]; [inversion Hn; subst; reflexivity |]).
  destruct Hin.
Qed.

Lemma depth_series_rise_witness :
  update (Some snapshot) (new None) = (firstState snapshot, Normal tt) /\
  depthSeries (firstState snapshot)
    = ([[Some 99; Some 3]; [Some 100; Some 1]],
       [[Some 101; Some 1]; [Some 102; Some 3]])%float /\
  StronglySorted (fun a b => (coordinate 1 b <=? coordinate 1 a) = true)
                 (fst (depthSeries (firstState snapshot))).
Proof.
  split; [reflexivity |]. split; [reflexivity |].
  exact (proj1 (proj2 (proj2
           (depth_series_rise (new None) snapshot
              [level 100 1; level 99 2] [level 101 1; level 102 2]
              (firstState snapshot) eq_refl eq_refl eq_refl
              snapshot_prices)))).
Defined.

End OrderBookProperties.

(* ================================================================= *)
(** * The trade history: its list, its view, its pages                 *)
(* ================================================================= *)

Module TradeTableFacts.
Import TradeTable ListFacts.
Local Open Scope float_scope.

(** ** Lists *)

Lemma filterAt_filter {A : Type} (p : A -> bool) i l :
  filterAt (fun _ x => p x) i l = filter p l.
Proof.
  revert i. induction l as [| a l IH]; intros i; simpl; [reflexivity |].
  now rewrite IH.
Qed.

Lemma filterAt_ext {A : Type} (f g : nat -> A -> bool) i l :
  (forall k x, In x l -> f k x = g k x) -> filterAt f i l = filterAt g i l.
Proof.
  revert i. induction l as [| a l IH]; intros i H; simpl; [reflexivity |].
  rewrite (H i a) by now left.
  rewrite (IH (S i)) by (intros k x Hx; apply H; now right). reflexivity.
Qed.

Lemma filterAt_In {A : Type} (f : nat -> A -> bool) i l x :
  In x (filterAt f i l) -> In x l.
Proof.
  revert i. induction l as [| a l IH]; intros i; simpl; [auto |].
  destruct (f i a); simpl; intros H.
  - destruct H as [-> | H]; [now left | right; eauto].
  - right; eauto.
Qed.

Lemma filterAt_length {A : Type} (f : nat -> A -> bool) i l :
  (List.length (filterAt f i l) <= List.length l)%nat.
Proof.
  revert i. induction l as [| a l IH]; intros i; simpl; [lia |].
  destruct (f i a); simpl; specialize (IH (S i)); lia.
Qed.

(** ** Identifiers *)

Lemma sameValueZero_refl v : sameValueZero v v = true.
Proof.
  destruct v as [| | b | f | s]; simpl; try reflexivity.
  - now destruct b.
  - destruct (is_nan f) eqn:E; [reflexivity |].
    now rewrite FloatFacts.eqb_refl.
  - apply String.eqb_refl.
Qed.


Lemma has_In ids v : In v ids -> has ids v = true.
Proof.
  intros H. apply existsb_exists. exists v. split; [exact H |].
  apply sameValueZero_refl.
Qed.

Lemma has_app l1 l2 v : has (l1 ++ l2) v = has l1 v || has l2 v.
Proof. apply existsb_app. Qed.


(** ** Processing a batch *)

Lemma mapCAt_entriesOf host clock i raws :
  mapCAt (fun i entry =>
            match entry with
            | Some trade => Normal (process host (clock i) trade)
            | None => @Throw Trade
            end) i (entriesOf raws)
  = Normal (processAt host clock i raws).
Proof.
  revert i. induction raws as [| r raws IH]; intros i; simpl; [reflexivity |].
  unfold entriesOf in IH. now rewrite IH.
Qed.

Lemma mapCAt_entries host clock i entries :
  match mapCAt (fun i entry =>
                  match entry with
                  | Some trade => Normal (process host (clock i) trade)
                  | None => @Throw Trade
                  end) i entries with
  | Throw => In None entries
  | Normal l =>
      ~ In None entries /\
      exists raws, entries = entriesOf raws /\ l = processAt host clock i raws
  end.
Proof.
  revert i. induction entries as [| e entries IH]; intros i; simpl.
  - split; [tauto |]. now exists [].
  - destruct e as [trade |]; [| now left].
    specialize (IH (S i)). destruct (mapCAt _ (S i) entries) as [l |].
    + destruct IH as (Hn & raws & -> & ->). split.
      * intros [H | H]; [discriminate | contradiction].
      * now exists (trade :: raws).
    + now right.
Qed.

Lemma processAt_ids host clock i raws :
  map id (processAt host clock i raws) = map tradeId raws.
Proof.
  revert i. induction raws as [| r raws IH]; intros i; simpl; [reflexivity |].
  now rewrite IH.
Qed.

Lemma processAt_length host clock i raws :
  List.length (processAt host clock i raws) = List.length raws.
Proof.
  revert i. induction raws as [| r raws IH]; intros i; simpl; [reflexivity |].
  now rewrite IH.
Qed.

(** ** What the calls leave alone *)

Lemma applySort_fields this :
  trades (_applySort this) = trades this /\
  maxRows (_applySort this) = maxRows this /\
  pageSize (_applySort this) = pageSize this /\
  currentPage (_applySort this) = currentPage this /\
  filter_ (_applySort this) = filter_ this /\
  sort_ (_applySort this) = sort_ this /\
  lastPrice (_applySort this) = lastPrice this.
Proof. repeat split. Qed.

Lemma applyFilters_fields host clock this :
  trades (_applyFilters host clock this) = trades this /\
  maxRows (_applyFilters host clock this) = maxRows this /\
  pageSize (_applyFilters host clock this) = pageSize this /\
  currentPage (_applyFilters host clock this) = 1%Z /\
  filter_ (_applyFilters host clock this) = filter_ this /\
  sort_ (_applyFilters host clock this) = sort_ this /\
  lastPrice (_applyFilters host clock this) = lastPrice this.
Proof. repeat split. Qed.

Lemma applyFilters_view host clock this :
  filteredTrades (_applyFilters host clock this)
  = sort (comparator (sort_ this))
         (filterAt (fun i trade => passes host (filter_ this) (clock i) trade)
                   0 (trades this)).
Proof. reflexivity. Qed.

(** The stored list that [update] leaves when no entry is [null]. *)
Lemma update_trades host clock filterClock raws append this :
  update host clock filterClock (Some (entriesOf raws)) append this
  = (_applyFilters host filterClock
       (set_trades
          (if append then
             let all :=
               filter (fun trade => negb (has (ids this) (id trade)))
                      (processAt host clock 0 raws) ++ trades this in
             if (maxRows this <? Z.of_nat (List.length all))%Z
             then slice0 all (maxRows this) else all
           else slice0 (processAt host clock 0 raws) (maxRows this))
          this),
     Normal tt).
Proof.
  unfold update. now rewrite mapCAt_entriesOf.
Qed.

Lemma addTrade_trades host now filterClock raw this :
  trades (addTrade host now filterClock (Some raw) this)
  = let l := process host now raw :: trades this in
    if (maxRows this <? Z.of_nat (List.length l))%Z
    then removelast l else l.
Proof. reflexivity. Qed.

Lemma addTrade_maxRows host now filterClock trade this :
  maxRows (addTrade host now filterClock trade this) = maxRows this.
Proof. now destruct trade. Qed.

Lemma addTrade_lastPrice host now filterClock raw this :
  lastPrice (addTrade host now filterClock (Some raw) this)
  = option_map price (nth_error (trades this) 0).
Proof. unfold addTrade. simpl. now destruct (trades this). Qed.

(** The list that [addTrade] keeps here is, number for number, the one
    from which the class of the next row is computed. *)
Lemma addTrade_asHistory host now filterClock colors auto raw this :
  fst (TradeHistory.addTrade (Some (numbers raw)) (asHistory colors auto this))
  = asHistory colors auto (addTrade host now filterClock (Some raw) this).
Proof.
  unfold TradeHistory.addTrade, asHistory.
  rewrite addTrade_trades, addTrade_maxRows, addTrade_lastPrice.
  cbn [TradeHistory.trades TradeHistory.maxRows].
  set (processed := process host now raw).
  assert (E : {| TradeHistory.price := TradeHistory._getTradePrice (numbers raw);
                 TradeHistory.quantity :=
                   TradeHistory._getTradeQuantity (numbers raw);
                 TradeHistory.amount :=
                   (TradeHistory._getTradePrice (numbers raw)
                    * TradeHistory._getTradeQuantity (numbers raw))%float |}
              = numbersOf processed) by reflexivity.
  rewrite E.
  change (numbersOf processed :: map numbersOf (trades this))
    with (map numbersOf (processed :: trades this)).
  rewrite length_map.
  assert (L : match map numbersOf (trades this) with
              | first :: _ => Some (TradeHistory.price first)
              | [] => None
              end = option_map price (nth_error (trades this) 0))
    by now destruct (trades this).
  rewrite L. cbv zeta.
  destruct (maxRows this <? _)%Z; rewrite ?map_removelast;
    destruct auto; reflexivity.
Qed.

Lemma slice0_within {A : Type} (l : list A) n :
  (0 <= n)%Z -> (Z.of_nat (List.length (slice0 l n)) <= n)%Z.
Proof.
  intros Hn. unfold slice0.
  destruct (n <? 0)%Z eqn:E; [apply Z.ltb_lt in E; lia |].
  rewrite length_firstn. lia.
Qed.

(** ** The comparator of [_applySort] *)

(** Where the values of the sort field are numbers, the comparator puts
    [x] after [y] when the value of [x] is the larger one in ascending
    direction, the smaller one in descending direction. *)
Lemma after_comparator s x y :
  is_nan (get (s_field s) x) = false ->
  is_nan (get (s_field s) y) = false ->
  after (comparator s) x y
  = match direction s with
    | Asc => get (s_field s) y <? get (s_field s) x
    | Desc => get (s_field s) x <? get (s_field s) y
    end.
Proof.
  intros Nx Ny. unfold after, comparator.
  destruct (direction s).
  - destruct (s_field s); now apply FloatFacts.sub_pos_iff.
  - destruct (s_field s); now apply FloatFacts.opp_sub_pos_iff.
Qed.

Lemma sortComparator_asym s x y :
  is_nan (get (s_field s) x) = false ->
  is_nan (get (s_field s) y) = false ->
  after (comparator s) x y = true -> after (comparator s) y x = false.
Proof.
  intros Nx Ny. rewrite !after_comparator by assumption.
  destruct (direction s); apply FloatFacts.ltb_asym.
Qed.

Lemma sortComparator_trans s x y z :
  is_nan (get (s_field s) x) = false ->
  is_nan (get (s_field s) y) = false ->
  is_nan (get (s_field s) z) = false ->
  after (comparator s) x y = false -> after (comparator s) y z = false ->
  after (comparator s) x z = false.
Proof.
  intros Nx Ny Nz. rewrite !after_comparator by assumption.
  destruct (direction s); intros H1 H2.
  - now apply (FloatFacts.ltb_false_trans _ (get (s_field s) y)).
  - now apply (FloatFacts.ltb_false_trans _ (get (s_field s) y)).
Qed.

Lemma after_false_ordered s x y :
  is_nan (get (s_field s) x) = false ->
  is_nan (get (s_field s) y) = false ->
  after (comparator s) x y = false <-> ordered s x y.
Proof.
  intros Nx Ny. rewrite after_comparator by assumption. unfold ordered.
  destruct (direction s); split; intros H;
    try (now apply FloatFacts.ltb_false_leb);
    now apply FloatFacts.leb_ltb_false.
Qed.

(** ** Pages *)

Lemma slice_page {A : Type} (l : list A) (n size : Z) :
  (1 <= n)%Z -> (0 < size)%Z ->
  slice l ((n - 1) * size)
        (Z.min ((n - 1) * size + size) (Z.of_nat (List.length l)))
  = firstn (Z.to_nat size) (skipn (Z.to_nat ((n - 1) * size)) l).
Proof.
  intros Hn Hs. unfold slice.
  set (start := ((n - 1) * size)%Z).
  assert (H0 : (0 <= start)%Z) by (unfold start; nia).
  set (len := Z.of_nat (List.length l)).
  destruct (start <? 0)%Z eqn:E1; [apply Z.ltb_lt in E1; lia |].
  destruct (Z.min (start + size) len <? 0)%Z eqn:E2;
    [apply Z.ltb_lt in E2; lia |].
  destruct (Z_le_gt_dec start len) as [Hle | Hgt].
  - replace (Z.min start len) with start by lia.
    rewrite <- (firstn_all (skipn (Z.to_nat start) l)) at 2.
    rewrite firstn_firstn, length_skipn. f_equal. lia.
  - replace (Z.min start len) with len by lia.
    rewrite !skipn_all2 by (unfold len in *; lia).
    now rewrite !firstn_nil.
Qed.

Lemma chunks {A : Type} (size : nat) (l : list A) k :
  (List.length l <= k * size)%nat ->
  List.concat (map (fun n => firstn size (skipn ((n - 1) * size) l)) (seq 1 k))
  = l.
Proof.
  revert l. induction k as [| k IH]; intros l H.
  - destruct l; [reflexivity | simpl in H; lia].
  - assert (E : map (fun n => firstn size (skipn ((n - 1) * size) l))
                    (seq 2 k)
               = map (fun n => firstn size
                                 (skipn ((n - 1) * size) (skipn size l)))
                     (seq 1 k)).
    { rewrite <- seq_shift, map_map. apply map_ext_in. intros n Hn.
      apply in_seq in Hn. rewrite skipn_skipn. do 2 f_equal.
      destruct n as [| n]; [lia |]. simpl. rewrite Nat.sub_0_r. lia. }
    cbn [seq map List.concat]. rewrite E, IH.
    + simpl. apply firstn_skipn.
    + rewrite length_skipn. simpl in H. lia.
Qed.

End TradeTableFacts.

(* ================================================================= *)
(** * Properties of the trade history                                  *)
(* ================================================================= *)

Module TradeTableProperties.
Import TradeTable TradeTableFacts ListFacts.
Local Open Scope float_scope.

(** ** [update]: bad entries and the size of the list *)

(** A [null] entry in the batch makes [update] throw in [trades.map],
    before anything is stored: the history is as it was, its list, its
    view, its page and [lastPrice]. *)
Theorem update_null_entry host clock filterClock entries append this :
  In None entries ->
  update host clock filterClock (Some entries) append this = (this, Throw).
Proof.
  intros H. unfold update.
  pose proof (mapCAt_entries host clock 0 entries) as Hm.
  destruct (mapCAt _ 0 entries) as [l |]; [| reflexivity].
  destruct Hm as [Hn _]. contradiction.
Qed.

Lemma update_null_entry_witness :
  In None [Some (priced "d" 4); None] /\
  update utc newYear newYear (Some [Some (priced "d" 4); None]) true
         threeTrades
    = (threeTrades, Throw).
Proof.
  assert (H : In None [Some (priced "d" 4); None]) by (right; now left).
  split; [exact H |].
  exact (update_null_entry utc newYear newYear _ true threeTrades H).
Defined.

(** After an [update] that returns, in either mode, the history holds at
    most [maxRows] trades, when [maxRows] is not negative. *)
Theorem update_within_maxRows host clock filterClock entries append this this' :
  (0 <= maxRows this)%Z ->
  update host clock filterClock (Some entries) append this
    = (this', Normal tt) ->
  within this' /\ maxRows this' = maxRows this.
Proof.
  intros Hm Hu.
  pose proof (mapCAt_entries host clock 0 entries) as H.
  unfold update in Hu.
  destruct (mapCAt _ 0 entries) as [l |]; [| discriminate].
  clear H. inversion Hu; subst this'; clear Hu.
  unfold within. simpl. split; [| reflexivity].
  destruct append.
  - destruct (maxRows this <? _)%Z eqn:E.
    + now apply slice0_within.
    + now apply Z.ltb_ge in E.
  - now apply slice0_within.
Qed.

Lemma update_within_maxRows_witness :
  (0 <= maxRows (new (Some 2%Z) None))%Z /\
  within (fst (update utc newYear newYear
                 (Some (entriesOf [priced "a" 1; priced "b" 2; priced "c" 3]))
                 false (new (Some 2%Z) None))) /\
  map id (trades (fst (update utc newYear newYear
                 (Some (entriesOf [priced "a" 1; priced "b" 2; priced "c" 3]))
                 false (new (Some 2%Z) None))))
    = [Js.VStr "a"; Js.VStr "b"].
Proof.
  assert (H0 : (0 <= maxRows (new (Some 2%Z) None))%Z) by (simpl; lia).
  split; [exact H0 |]. split; [| reflexivity].
  exact (proj1 (update_within_maxRows utc newYear newYear
                  (entriesOf [priced "a" 1; priced "b" 2; priced "c" 3])
                  false (new (Some 2%Z) None) _ H0 eq_refl)).
Defined.

(** ** [addTrade]: the newest trade first, the oldest dropped *)

(** On a history within [maxRows], [addTrade] puts the new trade first and
    keeps the first [maxRows] trades: when the history is full the oldest
    is dropped.  The history stays within [maxRows], and [lastPrice] is the
    price of the trade that was first before. *)
Theorem addTrade_keeps_newest host now filterClock raw this :
  within this ->
  let this' := addTrade host now filterClock (Some raw) this in
  trades this'
    = firstn (Z.to_nat (maxRows this)) (process host now raw :: trades this) /\
  within this' /\
  lastPrice this' = option_map price (nth_error (trades this) 0).
Proof.
  unfold within. intros Hw. cbv zeta.
  rewrite addTrade_trades, addTrade_maxRows, addTrade_lastPrice. cbv zeta.
  set (l := process host now raw :: trades this).
  assert (Hlen : List.length l = S (List.length (trades this))) by reflexivity.
  assert (E : (if (maxRows this <? Z.of_nat (List.length l))%Z
               then removelast l else l)
              = firstn (Z.to_nat (maxRows this)) l).
  { destruct (maxRows this <? Z.of_nat (List.length l))%Z eqn:E.
    - apply Z.ltb_lt in E. rewrite removelast_firstn_len. f_equal. lia.
    - apply Z.ltb_ge in E. symmetry. apply firstn_all2. lia. }
  rewrite E. split; [reflexivity |]. split.
  - rewrite length_firstn. lia.
  - reflexivity.
Qed.

Lemma addTrade_keeps_newest_witness :
  within (fst (update utc newYear newYear
                 (Some (entriesOf [priced "a" 1; priced "b" 2]))
                 false (new (Some 2%Z) None))) /\
  map id (trades (addTrade utc 0 newYear (Some (priced "c" 3))
                    (fst (update utc newYear newYear
                            (Some (entriesOf [priced "a" 1; priced "b" 2]))
                            false (new (Some 2%Z) None)))))
    = [Js.VStr "c"; Js.VStr "a"] /\
  within (addTrade utc 0 newYear (Some (priced "c" 3))
            (fst (update utc newYear newYear
                    (Some (entriesOf [priced "a" 1; priced "b" 2]))
                    false (new (Some 2%Z) None)))).
Proof.
  assert (Hw : within (fst (update utc newYear newYear
                 (Some (entriesOf [priced "a" 1; priced "b" 2]))
                 false (new (Some 2%Z) None))))
    by (unfold within; simpl; lia).
  split; [exact Hw |]. split; [reflexivity |].
  exact (proj1 (proj2 (addTrade_keeps_newest utc 0 newYear (priced "c" 3)
                         _ Hw))).
Defined.

(** ** [update] in append mode *)

Lemma fresh_ids host clock i raws old :
  map id (filter (fun trade => negb (has old (id trade)))
                 (processAt host clock i raws))
  = filter (fun v => negb (has old v)) (map tradeId raws).
Proof.
  revert i. induction raws as [| r raws IH]; intros i; simpl; [reflexivity |].
  change (id (process host (clock i) r)) with (tradeId r).
  destruct (negb (has old (tradeId r))); simpl; now rewrite IH.
Qed.

Lemma append_stored host clock filterClock raws this :
  (Z.of_nat (List.length raws + List.length (trades this))
     <= maxRows this)%Z ->
  trades (fst (update host clock filterClock (Some (entriesOf raws)) true this))
  = filter (fun trade => negb (has (ids this) (id trade)))
           (processAt host clock 0 raws) ++ trades this.
Proof.
  intros H. rewrite update_trades. simpl.
  set (fresh := filter _ _).
  assert (Hf : (List.length fresh <= List.length raws)%nat).
  { unfold fresh. rewrite <- (processAt_length host clock 0 raws).
    apply filter_length_le. }
  destruct (maxRows this <? _)%Z eqn:E; [| reflexivity].
  apply Z.ltb_lt in E. rewrite length_app in E. lia.
Qed.

(** Appending a batch a second time adds nothing, when the history had
    room for the whole batch: every entry is taken for the trade of the
    same id that the first call stored. *)
Theorem append_twice host clock filterClock clock' filterClock' raws this :
  (Z.of_nat (List.length raws + List.length (trades this))
     <= maxRows this)%Z ->
  let this1 :=
    fst (update host clock filterClock (Some (entriesOf raws)) true this) in
  trades (fst (update host clock' filterClock' (Some (entriesOf raws)) true
                 this1))
  = trades this1.
Proof.
  intros H this1.
  assert (H1 : trades this1
               = filter (fun trade => negb (has (ids this) (id trade)))
                        (processAt host clock 0 raws) ++ trades this)
    by now apply append_stored.
  assert (Hm : maxRows this1 = maxRows this)
    by (unfold this1; now rewrite update_trades).
  assert (Hlen : (List.length (trades this1)
                  <= List.length raws + List.length (trades this))%nat).
  { rewrite H1, length_app.
    pose proof (filter_length_le
                  (fun trade => negb (has (ids this) (id trade)))
                  (processAt host clock 0 raws)) as Hf.
    rewrite processAt_length in Hf. lia. }
  rewrite update_trades. simpl trades.
  assert (Hnone : filter (fun trade => negb (has (ids this1) (id trade)))
                         (processAt host clock' 0 raws) = []).
  { apply filter_none. intros x Hx. apply negb_false_iff.
    assert (Hid : In (id x) (map tradeId raws)).
    { rewrite <- (processAt_ids host clock' 0). now apply in_map. }
    unfold ids. rewrite H1, map_app, has_app, fresh_ids.
    destruct (has (map id (trades this)) (id x)) eqn:E;
      [apply orb_true_r |].
    rewrite orb_false_r. apply has_In. apply filter_In. split; [exact Hid |].
    unfold ids. now rewrite E. }
  cbv zeta. rewrite Hnone. simpl app.
  destruct (maxRows this1 <? _)%Z eqn:E; [| reflexivity].
  apply Z.ltb_lt in E. lia.
Qed.

Lemma append_twice_witness :
  (Z.of_nat (List.length [priced "b" 2; priced "c" 3]
             + List.length (trades (addTrade utc 0 newYear
                                      (Some (priced "a" 1)) (new None None))))
     <= maxRows (addTrade utc 0 newYear (Some (priced "a" 1)) (new None None)))%Z /\
  map id (trades
            (fst (update utc newYear newYear
                    (Some (entriesOf [priced "b" 2; priced "c" 3])) true
                    (fst (update utc newYear newYear
                            (Some (entriesOf [priced "b" 2; priced "c" 3]))
                            true
                            (addTrade utc 0 newYear (Some (priced "a" 1))
                               (new None None)))))))
  = [Js.VStr "b"; Js.VStr "c"; Js.VStr "a"].
Proof.
  assert (H : (Z.of_nat (List.length [priced "b" 2; priced "c" 3]
             + List.length (trades (addTrade utc 0 newYear
                                      (Some (priced "a" 1)) (new None None))))
     <= maxRows (addTrade utc 0 newYear (Some (priced "a" 1)) (new None None)))%Z)
    by (simpl; lia).
  split; [exact H |].
  rewrite (append_twice utc newYear newYear newYear newYear
             [priced "b" 2; priced "c" 3] _ H).
  reflexivity.
Defined.

(** Trades without an id all get the id [''].  Once the history holds one
    of them, [update] in append mode adds no trade without an id: the list
    stays as it was when it is within [maxRows], and is cut to [maxRows]
    when it is longer, as it can be once [updateOptions] has lowered
    [maxRows]. *)
Theorem append_without_ids host clock filterClock raws this :
  In (Js.VStr "") (ids this) ->
  Forall (fun raw => Js.truthy (r_id raw) = false /\
                     Js.truthy (r_tradeId raw) = false) raws ->
  trades (fst (update host clock filterClock (Some (entriesOf raws)) true this))
  = (if (maxRows this <? Z.of_nat (List.length (trades this)))%Z
     then slice0 (trades this) (maxRows this)
     else trades this) /\
  (within this ->
   trades (fst (update host clock filterClock (Some (entriesOf raws)) true
                  this))
   = trades this).
Proof.
  intros Hin Hraws.
  assert (Hnone : filter (fun trade => negb (has (ids this) (id trade)))
                         (processAt host clock 0 raws) = []).
  { apply filter_none. intros x Hx. apply negb_false_iff.
    assert (Hid : In (id x) (map tradeId raws)).
    { rewrite <- (processAt_ids host clock 0). now apply in_map. }
    apply in_map_iff in Hid as (r & Hr & Hin').
    rewrite Forall_forall in Hraws. destruct (Hraws r Hin') as [H1 H2].
    rewrite <- Hr. unfold tradeId, Js.or. rewrite H1, H2.
    now apply has_In. }
  assert (E : trades (fst (update host clock filterClock
                             (Some (entriesOf raws)) true this))
              = (if (maxRows this <? Z.of_nat (List.length (trades this)))%Z
                 then slice0 (trades this) (maxRows this)
                 else trades this)).
  { rewrite update_trades. simpl trades. cbv zeta. rewrite Hnone.
    reflexivity. }
  split; [exact E |].
  intros Hw. rewrite E.
  destruct (maxRows this <? _)%Z eqn:L; [| reflexivity].
  apply Z.ltb_lt in L. unfold within in Hw. lia.
Qed.

Lemma append_without_ids_witness :
  In (Js.VStr "") (ids lowered) /\
  List.length (trades lowered) = 2%nat /\
  maxRows lowered = 1%Z /\
  map price
    (trades (fst (update utc newYear newYear
                    (Some (entriesOf [unnamed 102; unnamed 103])) true
                    lowered)))
    = [101] /\
  trades (fst (update utc newYear newYear
                 (Some (entriesOf [unnamed 102; unnamed 103])) true lowered))
    = slice0 (trades lowered) 1.
Proof.
  assert (Hin : In (Js.VStr "") (ids lowered)) by (left; reflexivity).
  assert (Hraws : Forall (fun raw => Js.truthy (r_id raw) = false /\
                                     Js.truthy (r_tradeId raw) = false)
                         [unnamed 102; unnamed 103])
    by (repeat constructor).
  split; [exact Hin |]. split; [reflexivity |]. split; [reflexivity |].
  split; [reflexivity |].
  rewrite (proj1 (append_without_ids utc newYear newYear
                    [unnamed 102; unnamed 103] lowered Hin Hraws)).
  reflexivity.
Defined.




(** ** The view: what the filters let through *)

(** Choosing a side in the select shows the stored trades of that side,
    each once, and all stored trades for ['all'], when no bound on the
    amount and no time range is set; the view goes back to page 1 and the
    stored list stays as it is. *)
Theorem side_select_shows_side host clock v this :
  minAmount (filter_ this) = None ->
  maxAmount (filter_ this) = None ->
  timeRange (filter_ this) = AllTime ->
  let this' := sideSelect_change host clock v this in
  Permutation (filter (onSide v) (trades this)) (filteredTrades this') /\
  currentPage this' = 1%Z /\
  trades this' = trades this.
Proof.
  intros Hmin Hmax Htime this'. split; [| split; reflexivity].
  unfold this', sideSelect_change. rewrite applyFilters_view. simpl.
  rewrite Hmin, Hmax, Htime.
  rewrite (filterAt_ext _ (fun _ x => onSide v x)).
  - rewrite filterAt_filter. apply sort_Permutation.
  - intros k x _. unfold passes, onSide. simpl.
    destruct v as [| s]; [reflexivity |].
    now destruct (Side_eqb (side x) s).
Qed.

Lemma side_select_shows_side_witness :
  minAmount (filter_ bothSides) = None /\
  maxAmount (filter_ bothSides) = None /\
  timeRange (filter_ bothSides) = AllTime /\
  map id (filteredTrades (sideSelect_change utc newYear (Only Sell) bothSides))
    = [Js.VStr "b"] /\
  Permutation
    (filter (onSide (Only Sell)) (trades bothSides))
    (filteredTrades (sideSelect_change utc newYear (Only Sell) bothSides)).
Proof.
  split; [reflexivity |]. split; [reflexivity |]. split; [reflexivity |].
  split; [reflexivity |].
  exact (proj1 (side_select_shows_side utc newYear (Only Sell)
                  bothSides eq_refl eq_refl eq_refl)).
Defined.

(** A trade whose date is invalid passes every time range: the filter
    lets it through exactly when it would with the range ['all']. *)
Theorem invalid_date_passes host f now trade :
  is_nan (time trade) = true ->
  passes host f now trade = passes host (anyTime f) now trade.
Proof.
  intros Hn.
  assert (Hlt : forall x, (time trade <? x) = false).
  { intros x. destruct (time trade <? x) eqn:E; [| reflexivity].
    destruct (FloatFacts.ltb_not_nan _ _ E). congruence. }
  assert (Hle : forall x, (x <=? time trade) = false).
  { intros x. destruct (x <=? time trade) eqn:E; [| reflexivity].
    destruct (FloatFacts.leb_not_nan _ _ E). congruence. }
  unfold passes, anyTime. simpl.
  destruct (timeRange f); rewrite ?Hlt, ?Hle; reflexivity.
Qed.

Lemma invalid_date_passes_witness :
  is_nan (time (process utc 0 (dated "soon" 5))) = true /\
  passes utc (ranged Today) 1704067200000 (process utc 0 (dated "soon" 5))
    = true.
Proof.
  assert (H : is_nan (time (process utc 0 (dated "soon" 5))) = true)
    by reflexivity.
  split; [exact H |].
  rewrite (invalid_date_passes utc (ranged Today) 1704067200000 _ H).
  reflexivity.
Defined.

(** ** The view: its order *)

(** [_applySort] leaves the view in the order of the sort field, when the
    values of that field are numbers: the rows are the rows it had, the
    value does not fall down the rows in ascending direction and does not
    rise in descending direction, and rows of the same value stay in the
    order they were in. *)
Theorem applySort_orders this :
  Forall (fun trade => is_nan (get (s_field (sort_ this)) trade) = false)
         (filteredTrades this) ->
  Permutation (filteredTrades this) (filteredTrades (_applySort this)) /\
  StronglySorted (ordered (sort_ this)) (filteredTrades (_applySort this)) /\
  forall z,
    filter (sameValue (s_field (sort_ this)) z)
           (filteredTrades (_applySort this))
    = filter (sameValue (s_field (sort_ this)) z) (filteredTrades this).
Proof.
  intros Hn. set (s := sort_ this) in *.
  set (Q := fun trade => is_nan (get (s_field s) trade) = false) in *.
  change (filteredTrades (_applySort this))
    with (sort (comparator s) (filteredTrades this)).
  split; [apply sort_Permutation |]. split.
  - apply StronglySorted_among
      with (Q := Q) (R1 := fun a b => after (comparator s) a b = false).
    + intros x y Qx Qy. now apply after_false_ordered.
    + now apply sort_Forall.
    + apply sort_StronglySorted with (Q := Q); [| | exact Hn].
      * intros x y. apply sortComparator_asym.
      * intros x y z. apply sortComparator_trans.
  - intros z. apply sort_filter with (Q := Q); [| exact Hn].
    intros x y Qx Qy Px Py. rewrite after_comparator by assumption.
    unfold sameValue in Px, Py.
    destruct (direction s).
    + exact (FloatFacts.eqb_eqb_ltb _ _ _ Py Px).
    + exact (FloatFacts.eqb_eqb_ltb _ _ _ Px Py).
Qed.

Lemma applySort_orders_witness :
  Forall (fun trade =>
            is_nan (get (s_field (sort_ (_toggleSort ByPrice threeTrades)))
                        trade) = false)
         (filteredTrades (_toggleSort ByPrice threeTrades)) /\
  map price (filteredTrades (_applySort (_toggleSort ByPrice threeTrades)))
    = [3; 2; 1] /\
  StronglySorted (ordered (sort_ (_toggleSort ByPrice threeTrades)))
    (filteredTrades (_applySort (_toggleSort ByPrice threeTrades))).
Proof.
  assert (H : Forall (fun trade =>
            is_nan (get (s_field (sort_ (_toggleSort ByPrice threeTrades)))
                        trade) = false)
         (filteredTrades (_toggleSort ByPrice threeTrades)))
    by (repeat constructor).
  split; [exact H |]. split; [reflexivity |].
  exact (proj1 (proj2 (applySort_orders _ H))).
Defined.

Lemma tied_directions s s' z x :
  s_field s' = s_field s ->
  direction s' = match direction s with Asc => Desc | Desc => Asc end ->
  is_nan (get (s_field s) z) = false ->
  is_nan (get (s_field s) x) = false ->
  tied (comparator s') z x = tied (comparator s) z x.
Proof.
  intros Hf Hd Nz Nx. unfold tied.
  rewrite !after_comparator by (rewrite ?Hf; assumption).
  rewrite Hf, Hd. destruct (direction s); apply andb_comm.
Qed.

(** A click on the header of the sort column turns the direction; a
    second click gives back the state before the first, view and all, when
    the view was in the order of that column and the values of the column
    are numbers. *)
Theorem toggleSort_twice field this :
  s_field (sort_ this) = field ->
  Forall (fun trade => is_nan (get field trade) = false)
         (filteredTrades this) ->
  StronglySorted (ordered (sort_ this)) (filteredTrades this) ->
  _toggleSort field (_toggleSort field this) = this.
Proof.
  intros Hf Hn Hs.
  destruct this as [mr ps tr view lp cp fl [f d]]. simpl in *. subst f.
  set (s := {| s_field := field; direction := d |}) in *.
  set (s' := {| s_field := field;
                direction := match d with Asc => Desc | Desc => Asc end |}).
  set (Q := fun trade => is_nan (get field trade) = false) in *.
  assert (Hview : sort (comparator s) (sort (comparator s') view) = view).
  { symmetry.
    apply (arranged_unique (comparator s) Q).
    - intros x y. apply (sortComparator_asym s).
    - intros x y z. apply (sortComparator_trans s).
    - now apply sort_Forall.
    - split; [apply Permutation_sym, sort_Permutation |]. split.
      + apply StronglySorted_among
          with (Q := Q) (R1 := ordered s); [| exact Hn | exact Hs].
        intros x y Qx Qy. now apply (after_false_ordered s).
      + intros z Hz.
        assert (Qz : Q z).
        { apply (proj1 (sort_In (comparator s') view z)) in Hz.
          rewrite Forall_forall in Hn. now apply Hn. }
        pose proof (sort_arranged (comparator s') Q
                      (fun x y => sortComparator_asym s' x y)
                      (fun x y w => sortComparator_trans s' x y w) view Hn)
          as (_ & _ & Hst).
        assert (Ht : forall l, Forall Q l ->
                       filter (tied (comparator s) z) l
                       = filter (tied (comparator s') z) l).
          { intros l Hl. apply filter_ext_in. intros x Hx.
            rewrite Forall_forall in Hl. symmetry.
            exact (tied_directions s s' z x eq_refl eq_refl Qz (Hl x Hx)). }
          rewrite (Ht view Hn), (Ht _ (sort_Forall _ Q _ Hn)).
          symmetry. apply Hst.
          exact (proj1 (sort_In (comparator s') view z) Hz). }
  unfold _toggleSort, _applySort, set_sort, set_filteredTrades. simpl.
  assert (E : SortField_eqb field field = true) by now destruct field.
  rewrite E. simpl. rewrite E. simpl.
  fold s'. replace (match match d with Asc => Desc | Desc => Asc end with
                    | Asc => Desc | Desc => Asc end) with d by now destruct d.
  fold s. now rewrite Hview.
Qed.

Lemma toggleSort_twice_witness :
  s_field (sort_ (_toggleSort ByPrice threeTrades)) = ByPrice /\
  map price (filteredTrades (_toggleSort ByPrice threeTrades)) = [3; 2; 1] /\
  map price (filteredTrades
               (_toggleSort ByPrice (_toggleSort ByPrice threeTrades)))
    = [1; 2; 3] /\
  _toggleSort ByPrice
    (_toggleSort ByPrice (_toggleSort ByPrice threeTrades))
  = _toggleSort ByPrice threeTrades.
Proof.
  split; [reflexivity |]. split; [reflexivity |]. split; [reflexivity |].
  apply (toggleSort_twice ByPrice (_toggleSort ByPrice threeTrades)).
  - reflexivity.
  - repeat constructor.
  - repeat constructor.
Defined.

(** ** The pages *)

Lemma totalPages_positive this :
  (0 < pageSize this)%Z ->
  exists k,
    totalPages this = Finite (Z.of_nat k) /\
    (List.length (filteredTrades this) <= k * Z.to_nat (pageSize this))%nat /\
    (filteredTrades this <> [] ->
     ((k - 1) * Z.to_nat (pageSize this)
      < List.length (filteredTrades this))%nat) /\
    (filteredTrades this = [] -> k = 0%nat).
Proof.
  intros Hp. unfold totalPages.
  set (len := Z.of_nat (List.length (filteredTrades this))).
  set (size := pageSize this) in *.
  destruct (size =? 0)%Z eqn:E; [apply Z.eqb_eq in E; lia |].
  set (k := (- (- len / size))%Z).
  assert (Hk : (len <= k * size /\ (k - 1) * size < len \/ len = 0 /\ k = 0)%Z).
  { unfold k. pose proof (Z.div_mod (- len) size ltac:(lia)) as Hd.
    pose proof (Z.mod_pos_bound (- len) size Hp) as Hm.
    assert (H0 : (0 <= len)%Z) by (unfold len; lia).
    destruct (Z.eq_dec len 0) as [E0 | Hne].
    - right. split; [exact E0 |]. rewrite E0. reflexivity.
    - left. nia. }
  assert (H0 : (0 <= k)%Z) by (unfold len in *; nia).
  exists (Z.to_nat k). rewrite Z2Nat.id by exact H0.
  split; [reflexivity |]. split; [| split].
  - apply Nat2Z.inj_le. rewrite Nat2Z.inj_mul, !Z2Nat.id by lia.
    fold len. destruct Hk as [[H _] | [H1 H2]]; [lia | rewrite H2; lia].
  - intros Hne.
    assert (Hl : (0 < len)%Z).
    { unfold len. destruct (filteredTrades this); [congruence | simpl; lia]. }
    destruct Hk as [[_ H] | [H _]]; [| lia].
    apply Nat2Z.inj_lt. rewrite Nat2Z.inj_mul, Nat2Z.inj_sub_max.
    rewrite !Z2Nat.id by lia. fold len. simpl Z.of_nat. nia.
  - intros E0. assert (Hl : len = 0%Z) by (unfold len; now rewrite E0).
    destruct Hk as [[_ H] | [_ H]]; [nia | lia].
Qed.

Lemma currentPageTrades_page this n :
  (1 <= n)%nat -> (0 < pageSize this)%Z ->
  currentPageTrades (onPage (Z.of_nat n) this)
  = firstn (Z.to_nat (pageSize this))
           (skipn ((n - 1) * Z.to_nat (pageSize this)) (filteredTrades this)).
Proof.
  intros Hn Hp. unfold currentPageTrades, onPage. simpl.
  rewrite slice_page by lia. do 2 f_equal.
  rewrite Z2Nat.inj_mul by lia. f_equal. lia.
Qed.

Lemma page_rows this n :
  (1 <= n)%nat -> (0 < pageSize this)%Z ->
  ((n - 1) * Z.to_nat (pageSize this)
   < List.length (filteredTrades this))%nat ->
  currentPageTrades (onPage (Z.of_nat n) this) <> [].
Proof.
  intros Hn Hp Hlt. rewrite currentPageTrades_page by assumption.
  intros E. apply (f_equal (@List.length Trade)) in E.
  rewrite length_firstn, length_skipn in E. simpl in E. lia.
Qed.

(** With a positive [pageSize] the number of pages is finite, and the
    pages 1 to that number hold the view between them: their rows, page
    after page, are the rows of the view; no page has more than [pageSize]
    rows and none is empty. *)
Theorem pages_hold_view this :
  (0 < pageSize this)%Z ->
  exists k,
    totalPages this = Finite (Z.of_nat k) /\
    List.concat (pagesTo k this) = filteredTrades this /\
    Forall (fun rows =>
              rows <> [] /\
              (Z.of_nat (List.length rows) <= pageSize this)%Z)
           (pagesTo k this).
Proof.
  intros Hp.
  destruct (totalPages_positive this Hp) as (k & Hk & Hle & Hlast & Hzero).
  exists k. split; [exact Hk |].
  assert (E : pagesTo k this
              = map (fun n => firstn (Z.to_nat (pageSize this))
                                (skipn ((n - 1) * Z.to_nat (pageSize this))
                                       (filteredTrades this)))
                    (seq 1 k)).
  { unfold pagesTo. apply map_ext_in. intros n Hn. apply in_seq in Hn.
    apply currentPageTrades_page; lia. }
  split.
  - rewrite E. now apply chunks.
  - unfold pagesTo. rewrite Forall_map. apply Forall_forall. intros n Hn.
    apply in_seq in Hn. split.
    + apply page_rows; [lia | exact Hp |].
      assert (Hne : filteredTrades this <> []).
      { intros E0. specialize (Hzero E0). lia. }
      specialize (Hlast Hne).
      assert ((n - 1) * Z.to_nat (pageSize this)
              <= (k - 1) * Z.to_nat (pageSize this))%nat
        by (apply Nat.mul_le_mono_r; lia).
      lia.
    + rewrite currentPageTrades_page by (lia || exact Hp).
      rewrite length_firstn. lia.
Qed.

Lemma pages_hold_view_witness :
  (0 < pageSize (paged 2))%Z /\
  totalPages (paged 2) = Finite 2 /\
  map (map price) (pagesTo 2 (paged 2)) = [[3; 2]; [1]] /\
  exists k,
    totalPages (paged 2) = Finite (Z.of_nat k) /\
    List.concat (pagesTo k (paged 2)) = filteredTrades (paged 2) /\
    Forall (fun rows =>
              rows <> [] /\
              (Z.of_nat (List.length rows) <= pageSize (paged 2))%Z)
           (pagesTo k (paged 2)).
Proof.
  assert (H : (0 < pageSize (paged 2))%Z) by (simpl; lia).
  split; [exact H |]. split; [reflexivity |]. split; [reflexivity |].
  exact (pages_hold_view (paged 2) H).
Defined.

Lemma applyFilters_inRange host clock this :
  inRange (_applyFilters host clock this).
Proof.
  split; [simpl; lia |]. split; [| now left].
  rewrite applyFilters_view. intros x Hx.
  apply (proj1 (sort_In _ _ x)) in Hx.
  destruct (applyFilters_fields host clock this) as (-> & _).
  eapply filterAt_In. exact Hx.
Qed.

Lemma totalPages_length this this' :
  List.length (filteredTrades this') = List.length (filteredTrades this) ->
  pageSize this' = pageSize this ->
  totalPages this' = totalPages this.
Proof. unfold totalPages. now intros -> ->. Qed.

Lemma reachable_inRange host this : reachable host this -> inRange this.
Proof.
  induction 1 as [m p
                 | clock filterClock batch append this this' c _ IH Hu
                 | now filterClock trade this _ IH
                 | this _ IH
                 | field this _ IH
                 | this _ IH
                 | this _ IH
                 | clock v this _ IH
                 | clock v this _ IH
                 | filterClock m p this _ IH].
  - split; [simpl; lia |]. split; [intros x [] | now left].
  - unfold update in Hu. destruct batch as [entries |].
    + destruct (mapCAt _ 0 entries); inversion Hu; subst;
        [apply applyFilters_inRange | exact IH].
    + now inversion Hu; subst.
  - destruct trade as [trade |]; [apply applyFilters_inRange | exact IH].
  - split; [simpl; lia |]. split; [intros x [] | now left].
  - destruct IH as (H1 & H2 & H3). split; [exact H1 |]. split.
    + intros x Hx. apply H2.
      change (filteredTrades (_toggleSort field this))
        with (sort (comparator (sort_ (_toggleSort field this)))
                   (filteredTrades this)) in Hx.
      exact (proj1 (sort_In _ _ x) Hx).
    + assert (E : totalPages (_toggleSort field this) = totalPages this)
        by (apply totalPages_length; [apply sort_length | reflexivity]).
      rewrite E. exact H3.
  - destruct IH as (H1 & H2 & H3). unfold prevButton_click.
    destruct (1 <? currentPage this)%Z eqn:E; [| now repeat split].
    apply Z.ltb_lt in E. split; [simpl; lia |]. split; [exact H2 |].
    intros Hp. destruct (H3 Hp) as [H | (k & Hk & Hle)]; [lia |].
    right. exists k. split; [exact Hk | simpl; lia].
  - destruct IH as (H1 & H2 & H3). unfold nextButton_click.
    destruct (below (currentPage this) (totalPages this)) eqn:E;
      [| now repeat split].
    split; [simpl; lia |]. split; [exact H2 |].
    intros Hp. right.
    destruct (totalPages_positive this Hp) as (k & Hk & _).
    rewrite Hk in E. simpl in E. apply Z.ltb_lt in E.
    exists (Z.of_nat k). split; [exact Hk | simpl; lia].
  - apply applyFilters_inRange.
  - apply applyFilters_inRange.
  - apply applyFilters_inRange.
Qed.

(** Whatever is done to the table, the page number stays at 1 or above
    and the view shows stored trades only; with a positive [pageSize] the
    page that is shown has rows whenever the view has. *)
Theorem shown_page_has_rows host this :
  reachable host this ->
  (1 <= currentPage this)%Z /\
  incl (filteredTrades this) (trades this) /\
  ((0 < pageSize this)%Z -> filteredTrades this <> [] ->
   currentPageTrades this <> []).
Proof.
  intros Hr. destruct (reachable_inRange host this Hr) as (H1 & H2 & H3).
  split; [exact H1 |]. split; [exact H2 |]. intros Hp Hne.
  destruct (totalPages_positive this Hp) as (k & Hk & _ & Hlast & _).
  specialize (Hlast Hne).
  assert (E : this = onPage (Z.of_nat (Z.to_nat (currentPage this))) this).
  { rewrite Z2Nat.id by lia. now destruct this. }
  rewrite E. apply page_rows; [lia | exact Hp |].
  destruct (H3 Hp) as [H | (k' & Hk' & Hle)].
  - rewrite H. simpl. destruct (filteredTrades this); [congruence |].
    simpl; lia.
  - rewrite Hk in Hk'. inversion Hk'; subst k'.
    assert ((Z.to_nat (currentPage this) - 1) * Z.to_nat (pageSize this)
            <= (k - 1) * Z.to_nat (pageSize this))%nat
      by (apply Nat.mul_le_mono_r; lia).
    lia.
Qed.

Lemma shown_page_has_rows_witness :
  reachable utc (nextButton_click (nextButton_click (paged 2))) /\
  currentPage (nextButton_click (nextButton_click (paged 2))) = 2%Z /\
  map price (currentPageTrades (nextButton_click (nextButton_click (paged 2))))
    = [1%float] /\
  ((0 < pageSize (nextButton_click (nextButton_click (paged 2))))%Z ->
   filteredTrades (nextButton_click (nextButton_click (paged 2))) <> [] ->
   currentPageTrades (nextButton_click (nextButton_click (paged 2))) <> []).
Proof.
  assert (H : reachable utc (nextButton_click (nextButton_click (paged 2)))).
  { do 2 apply reach_next. apply reach_toggleSort.
    apply (reach_update utc newYear newYear
             (Some (entriesOf [priced "a" 2; priced "b" 3; priced "c" 1]))
             false (new None (Some 2%Z)) _ (Normal tt)
             (reach_new utc None (Some 2%Z))).
    reflexivity. }
  split; [exact H |]. split; [reflexivity |]. split; [reflexivity |].
  exact (proj2 (proj2 (shown_page_has_rows utc _ H))).
Defined.

End TradeTableProperties.
